(** * insiders_sniffer: a shallow embedding of [insiders_sniffer.py]

    The script is a linear pipeline: pool discovery (Dexscreener), a
    paginated walk over the signatures of every pool, batched parsing of the
    transactions, extraction of buyer tuples, and a dictionary reducer whose
    values are written to a CSV file.

    Modelling choices.
    - Python strings are sequences of Unicode code points ([pystr]); this is
      what [str.isdigit] and [int] look at.
    - Decoded JSON is the type [json]. A JSON number is a Python [int] or a
      Python [float]; a float is a binary64 value of [SpecFloat] (canonical
      mantissa and exponent), and its arithmetic is that of IEEE 754 with
      rounding to nearest even. Floats are embedded where the script computes
      with them, the score of a pair; a float that is a timestamp or block
      time compared with the window, a dict key or a transfer amount turned
      into text is [Unmodelled]. An object is the list of its items in
      insertion order, looked up by first match.
    - Exceptions are never caught by the script, so a computation either
      returns a value or halts ([outcome]). [Unmodelled] marks the few
      inputs whose Python behaviour is not embedded (container and float
      [repr], sort keys that are not numbers, most sorts with a NaN key);
      [Starved] marks a scripted network that has no reply left.
    - The network is a script: the list of replies the HTTP layer will give,
      consumed in order. Every request is logged, and so is what the CSV file
      holds when the [with] block is left; the file system is taken to accept
      the file name.
    - Python integers are unbounded; CPython's optional cap on the length of
      decimal integer strings is taken to be disabled.
    - [print] and [time.sleep] have no effect on any value and are dropped,
      except where the printed expression can raise. *)

From Stdlib Require Import Bool String Ascii.
From Stdlib Require Import List ZArith NArith Lia Permutation Sorted.
From Stdlib Require Import SpecFloat.
Import ListNotations.

Set Implicit Arguments.
Set Warnings "-register-all".

(* ================================================================== *)
(** ** Python values *)

Module Py.

(** A Python [str]: its code points. *)
Definition pystr : Type := list N.

(** The string written by an ASCII literal of the source. *)
Definition lit (s : string) : pystr :=
  map N_of_ascii (list_ascii_of_string s).

Fixpoint str_eqb (a b : pystr) : bool :=
  match a, b with
  | [], [] => true
  | x :: a', y :: b' => N.eqb x y && str_eqb a' b'
  | _, _ => false
  end.

(** Lexicographic [<] on strings, by code point. *)
Fixpoint str_ltb (a b : pystr) : bool :=
  match a, b with
  | _, [] => false
  | [], _ :: _ => true
  | x :: a', y :: b' =>
      if N.ltb x y then true
      else if N.eqb x y then str_ltb a' b' else false
  end.

(** Decoded JSON ([r.json()]): [JNull] is [None]. *)
Inductive json : Type :=
| JNull
| JBool (b : bool)
| JInt (z : Z)
| JStr (s : pystr)
| JArr (l : list json)
| JObj (kv : list (pystr * json))
| JFloat (f : spec_float).

Inductive exn : Type :=
| TypeError
| ValueError
| KeyError
| AttributeError
| OverflowError
| UnicodeEncodeError
| RuntimeError (payload : json)
| SystemExit (msg : string)
| RequestError.

Inductive stop : Type :=
| Raised (e : exn)
| Unmodelled
| Starved.

Inductive outcome (A : Type) : Type :=
| Ok (a : A)
| Halt (s : stop).

Arguments Ok {A} a.
Arguments Halt {A} s.

Definition Raise {A : Type} (e : exn) : outcome A := Halt (Raised e).

Definition bind {A B : Type} (c : outcome A) (k : A -> outcome B) : outcome B :=
  match c with
  | Ok a => k a
  | Halt s => Halt s
  end.

(** [bool(v)] *)
Definition truthy (v : json) : bool :=
  match v with
  | JNull => false
  | JBool b => b
  | JInt z => negb (Z.eqb z 0)
  | JStr s => match s with [] => false | _ => true end
  | JArr l => match l with [] => false | _ => true end
  | JObj kv => match kv with [] => false | _ => true end
  | JFloat f => match f with S754_zero _ => false | _ => true end
  end.

Definition is_none (v : json) : bool :=
  match v with JNull => true | _ => false end.

(** [a or b] when [b] is already a value. *)
Definition py_or (a b : json) : json := if truthy a then a else b.

Fixpoint assoc (k : pystr) (kv : list (pystr * json)) : option json :=
  match kv with
  | [] => None
  | (k', v) :: kv' => if str_eqb k k' then Some v else assoc k kv'
  end.

(** [d.get(k)]: only a dict has the method. *)
Definition get (d : json) (k : pystr) : outcome json :=
  match d with
  | JObj kv => Ok (match assoc k kv with Some v => v | None => JNull end)
  | _ => Raise AttributeError
  end.

(** [d[k]] for a string key [k]. *)
Definition getitem (d : json) (k : pystr) : outcome json :=
  match d with
  | JObj kv => match assoc k kv with Some v => Ok v | None => Raise KeyError end
  | _ => Raise TypeError
  end.

(** [v == s] and [v != s] for a string [s]: only an equal string is equal. *)
Definition eq_str (v : json) (s : pystr) : bool :=
  match v with JStr t => str_eqb t s | _ => false end.

(** The integer a value counts as in arithmetic and comparisons
    ([bool] is a subclass of [int]). *)
Definition as_num (v : json) : option Z :=
  match v with
  | JInt z => Some z
  | JBool b => Some (if b then 1 else 0)%Z
  | _ => None
  end.

(** *** Numbers *)

(** A Python number: an [int] (unbounded) or a [float] (binary64). *)
Inductive number : Type :=
| PyInt (z : Z)
| PyFloat (f : spec_float).

Definition to_number (v : json) : option number :=
  match v with
  | JInt z => Some (PyInt z)
  | JBool b => Some (PyInt (if b then 1 else 0)%Z)
  | JFloat f => Some (PyFloat f)
  | _ => None
  end.

(** The binary64 operations. *)
Definition b64_add : spec_float -> spec_float -> spec_float := SFadd 53 1024.
Definition b64_mul : spec_float -> spec_float -> spec_float := SFmul 53 1024.

(** The float nearest to [m * 2^e] (ties to even). *)
Definition b64 (m e : Z) : spec_float := binary_normalize 53 1024 m e false.

(** [float(z)], as arithmetic on mixed operands does it: correctly rounded,
    and an [OverflowError] when the integer is beyond the largest float. *)
Definition float_of_int (z : Z) : outcome spec_float :=
  match b64 z 0 with
  | S754_infinity _ => Raise OverflowError
  | f => Ok f
  end.

Definition as_float (a : number) : outcome spec_float :=
  match a with
  | PyInt z => float_of_int z
  | PyFloat f => Ok f
  end.

(** [a * b] on numbers: exact on two ints, otherwise both operands become
    floats. Float arithmetic itself never raises. *)
Definition num_mul (a b : number) : outcome number :=
  match a, b with
  | PyInt x, PyInt y => Ok (PyInt (x * y))
  | _, _ =>
      bind (as_float a) (fun x =>
      bind (as_float b) (fun y => Ok (PyFloat (b64_mul x y))))
  end.

(** [a + b] on numbers. *)
Definition num_add (a b : number) : outcome number :=
  match a, b with
  | PyInt x, PyInt y => Ok (PyInt (x + y))
  | _, _ =>
      bind (as_float a) (fun x =>
      bind (as_float b) (fun y => Ok (PyFloat (b64_add x y))))
  end.

(** The real line with its two infinities. *)
Inductive extended : Type :=
| NegInf
| Fin (z : Z)
| PosInf.

Definition ext_ltb (a b : extended) : bool :=
  match a, b with
  | NegInf, NegInf => false
  | NegInf, _ => true
  | Fin _, NegInf => false
  | Fin x, Fin y => Z.ltb x y
  | Fin _, PosInf => true
  | PosInf, _ => false
  end.

Definition ext_eqb (a b : extended) : bool :=
  match a, b with
  | NegInf, NegInf => true
  | Fin x, Fin y => Z.eqb x y
  | PosInf, PosInf => true
  | _, _ => false
  end.

(** The exact value of a number, in units of [2^-1074] (the spacing of the
    smallest floats, so that every finite float and every int is a whole
    number of units); NaN has none. *)
Definition rank (a : number) : option extended :=
  match a with
  | PyInt z => Some (Fin (z * 2 ^ 1074))
  | PyFloat (S754_zero _) => Some (Fin 0)
  | PyFloat (S754_infinity s) => Some (if s then NegInf else PosInf)
  | PyFloat S754_nan => None
  | PyFloat (S754_finite s m e) =>
      Some (Fin (cond_Zopp s (Zpos m * 2 ^ (e + 1074))))
  end.

Definition is_nan (a : number) : bool :=
  match rank a with
  | Some _ => false
  | None => true
  end.

(** [a < b] on numbers: Python compares ints and floats by their exact
    values; every comparison with NaN is false. *)
Definition num_ltb (a b : number) : bool :=
  match rank a, rank b with
  | Some x, Some y => ext_ltb x y
  | _, _ => false
  end.

(** [a == b] on numbers. *)
Definition num_eqb (a b : number) : bool :=
  match rank a, rank b with
  | Some x, Some y => ext_eqb x y
  | _, _ => false
  end.

(** [a < b]. Two numbers or two strings compare; lists compare
    element-wise, which is not embedded; anything else is a [TypeError]. *)
Definition py_lt (a b : json) : outcome bool :=
  match as_num a, as_num b with
  | Some x, Some y => Ok (Z.ltb x y)
  | _, _ =>
      match a, b with
      | JStr s, JStr t => Ok (str_ltb s t)
      | JArr _, JArr _ => Halt Unmodelled
      | _, _ =>
          match to_number a, to_number b with
          | Some x, Some y => Ok (num_ltb x y)
          | _, _ => Raise TypeError
          end
      end
  end.

(** [min(a, b)]: the later argument replaces the earlier only if it is
    strictly smaller. *)
Definition py_min (a b : json) : outcome json :=
  bind (py_lt b a) (fun lt => Ok (if lt then b else a)).

(** [max(a, b)]: the later argument replaces the earlier only if it is
    strictly greater. *)
Definition py_max (a b : json) : outcome json :=
  bind (py_lt a b) (fun lt => Ok (if lt then b else a)).

(** [for x in v]: the elements a loop over [v] sees. *)
Definition iter (v : json) : outcome (list json) :=
  match v with
  | JArr l => Ok l
  | JObj kv => Ok (map (fun p => JStr (fst p)) kv)
  | JStr s => Ok (map (fun c => JStr [c]) s)
  | _ => Raise TypeError
  end.

(** *** Hashable values: the keys of [dict] *)

(** [1 == True] and they hash alike, so numbers are keyed by value. *)
Inductive hkey : Type :=
| HNone
| HNum (z : Z)
| HStr (s : pystr).

Definition hkey_eqb (a b : hkey) : bool :=
  match a, b with
  | HNone, HNone => true
  | HNum x, HNum y => Z.eqb x y
  | HStr s, HStr t => str_eqb s t
  | _, _ => false
  end.

(** [hash(v)]: lists and dicts are unhashable. A float key (which would
    share the slot of an equal int) is not embedded. *)
Definition to_hkey (v : json) : outcome hkey :=
  match v with
  | JNull => Ok HNone
  | JBool b => Ok (HNum (if b then 1 else 0)%Z)
  | JInt z => Ok (HNum z)
  | JStr s => Ok (HStr s)
  | JArr _ | JObj _ => Raise TypeError
  | JFloat _ => Halt Unmodelled
  end.

(** A [dict] with hashable keys: its items in insertion order. *)
Definition odict (V : Type) : Type := list (hkey * V).

Fixpoint od_get {V : Type} (k : hkey) (d : odict V) : option V :=
  match d with
  | [] => None
  | (k', v) :: d' => if hkey_eqb k k' then Some v else od_get k d'
  end.

(** [d[k] = v]: an existing key keeps its position, a new key goes last. *)
Fixpoint od_set {V : Type} (k : hkey) (v : V) (d : odict V) : odict V :=
  match d with
  | [] => [(k, v)]
  | (k', v') :: d' =>
      if hkey_eqb k k' then (k', v) :: d' else (k', v') :: od_set k v d'
  end.

Definition od_values {V : Type} (d : odict V) : list V := map snd d.

(** *** Digits *)

(** The code points with Numeric_Type=Decimal come in runs of ten, in the
    order 0..9; these are the zeros of the runs (Unicode 14). *)
Definition decimal_zeros : list N :=
  [48; 1632; 1776; 1984; 2406; 2534; 2662; 2790; 2918; 3046; 3174; 3302;
   3430; 3558; 3664; 3792; 3872; 4160; 4240; 6112; 6160; 6470; 6608; 6784;
   6800; 6992; 7088; 7232; 7248; 42528; 43216; 43264; 43472; 43504; 43600;
   44016; 65296; 66720; 68912; 69734; 69872; 69942; 70096; 70384; 70736;
   70864; 71248; 71360; 71472; 71904; 72016; 72784; 73040; 73120; 92768;
   92864; 93008; 120782; 120792; 120802; 120812; 120822; 123200; 123632;
   125264; 130032]%N.

(** The code points with Numeric_Type=Digit that are not decimal
    (superscripts, subscripts, circled digits, ...), as inclusive ranges. *)
Definition digit_only_ranges : list (N * N) :=
  [(178, 179); (185, 185); (4969, 4977); (6618, 6618); (8304, 8304);
   (8308, 8313); (8320, 8329); (9312, 9320); (9332, 9340); (9352, 9360);
   (9450, 9450); (9461, 9469); (9471, 9471); (10102, 10110);
   (10112, 10120); (10122, 10130); (68160, 68163); (69216, 69224);
   (69714, 69722); (127232, 127242)]%N.

(** The value of a decimal digit, if [c] is one. *)
Definition decimal_value (c : N) : option N :=
  match find (fun z => N.leb z c && N.ltb c (z + 10)) decimal_zeros with
  | Some z => Some (c - z)%N
  | None => None
  end.

Definition isdecimal_char (c : N) : bool :=
  match decimal_value c with Some _ => true | None => false end.

Definition isdigit_char (c : N) : bool :=
  isdecimal_char c
  || existsb (fun r => N.leb (fst r) c && N.leb c (snd r)) digit_only_ranges.

(** [s.isdigit()]: non-empty and every character is a digit. *)
Definition isdigit (s : pystr) : bool :=
  match s with
  | [] => false
  | _ => forallb isdigit_char s
  end.

(** [s.isdecimal()], for comparison with [isdigit]. *)
Definition isdecimal (s : pystr) : bool :=
  match s with
  | [] => false
  | _ => forallb isdecimal_char s
  end.

Fixpoint int_digits (acc : Z) (s : pystr) : outcome Z :=
  match s with
  | [] => Ok acc
  | c :: s' =>
      match decimal_value c with
      | Some d => int_digits (acc * 10 + Z.of_N d) s'
      | None => Raise ValueError
      end
  end.

(** [int(s)] on a string for which [s.isdigit()] holds (no sign, blank or
    underscore can occur in it): the base-10 value when every character is
    a decimal digit, [ValueError] otherwise. *)
Definition py_int (s : pystr) : outcome Z :=
  match s with
  | [] => Raise ValueError
  | _ => int_digits 0 s
  end.

Fixpoint digits_aux (fuel : nat) (n : N) (acc : pystr) : pystr :=
  match fuel with
  | O => acc
  | S f =>
      let acc' := (48 + n mod 10)%N :: acc in
      if N.eqb (n / 10) 0 then acc' else digits_aux f (n / 10)%N acc'
  end.

(** [str(n)] for an integer [n >= 0]. *)
Definition str_of_N (n : N) : pystr := digits_aux (S (N.size_nat n)) n [].

(** [str(z)] for an integer. *)
Definition str_of_Z (z : Z) : pystr :=
  if Z.ltb z 0 then 45%N :: str_of_N (Z.to_N (- z)) else str_of_N (Z.to_N z).

(** [str(v)]. The [repr] of a list, a dict or a float is not embedded. *)
Definition py_str (v : json) : outcome pystr :=
  match v with
  | JNull => Ok (lit "None")
  | JBool true => Ok (lit "True")
  | JBool false => Ok (lit "False")
  | JInt z => Ok (str_of_Z z)
  | JStr s => Ok s
  | JArr _ | JObj _ | JFloat _ => Halt Unmodelled
  end.

End Py.

Import Py.

Declare Scope py_scope.
Delimit Scope py_scope with py.
Notation "x <- c ;; k" := (bind c (fun x => k))
  (at level 61, c at next level, right associativity) : py_scope.
Open Scope py_scope.

(* ================================================================== *)
(** ** Configuration ([# === CONFIG ===]) *)

(** The constants at the head of the script are meant to be edited before a
    run, so the program is embedded over a record of them. *)
Record config : Type := {
  MINT : pystr;
  START_TS : Z;
  END_TS : Z;
  TOP_POOLS : Z;
  SIG_PAGE_LIMIT : Z;
  PARSE_BATCH : Z
}.

(** The values the source file ships with. *)
Definition source_config : config := {|
  MINT := lit "YOUR_SOL_TOKEN_HERE";
  START_TS := 1760806800;
  END_TS := 1760864400;
  TOP_POOLS := 5;
  SIG_PAGE_LIMIT := 1000;
  PARSE_BATCH := 100
|}.

Definition DEXSCREENER_TOKEN_PAIRS (token : pystr) : pystr :=
  lit "https://api.dexscreener.com/tokens/v1/solana/" ++ token.

Definition HELIUS_RPC_URL (api_key : pystr) : pystr :=
  lit "https://mainnet.helius-rpc.com/?api-key=" ++ api_key.

Definition HELIUS_PARSE_URL (api_key : pystr) : pystr :=
  lit "https://api-mainnet.helius-rpc.com/v0/transactions?api-key=" ++ api_key.

(* ================================================================== *)
(** ** Records of the reducer *)

(** One tuple of [extract_buyers_from_parsed_tx]:
    [(buyer_wallet, raw_amount, decimals, signature, timestamp)]. *)
Record obs : Type := {
  o_wallet : json;
  o_amt : json;
  o_dec : json;
  o_sig : json;
  o_ts : json
}.

(** One value of [buyers_agg]. *)
Record entry : Type := {
  wallet : json;
  first_ts : json;
  last_ts : json;
  tx_count : Z;
  raw_total : Z;
  decimals : json;
  example_sig : json
}.

(* ================================================================== *)
(** ** The outside world *)

(** What one HTTP call comes back with: a decoded body, or
    [raise_for_status] / the transport / the JSON decoder raising. *)
Inductive reply : Type :=
| Body (j : json)
| Failed.

Inductive request : Type :=
| Get (url : pystr)
| Post (url : pystr) (payload : json).

(** [Wrote file rows]: the [with open(file, "w")] block was left, and the
    file holds the header line and the lines of [rows]. *)
Inductive event : Type :=
| Sent (r : request)
| Wrote (file : pystr) (rows : list entry).

Record world : Type := {
  HELIUS_KEY : option pystr;   (* the environment variable *)
  replies : list reply;        (* what the network will answer, in order *)
  log : list event             (* what the run did so far, oldest first *)
}.

Definition M (A : Type) : Type := world -> outcome A * world.

Definition ret {A : Type} (a : A) : M A := fun w => (Ok a, w).

Definition lift {A : Type} (c : outcome A) : M A := fun w => (c, w).

Definition mbind {A B : Type} (c : M A) (k : A -> M B) : M B :=
  fun w =>
    match c w with
    | (Ok a, w') => k a w'
    | (Halt s, w') => (Halt s, w')
    end.

Notation "x <~ c ;; k" := (mbind c (fun x => k))
  (at level 61, c at next level, right associativity) : py_scope.

Definition emit (e : event) : M unit :=
  fun w => (Ok tt, {| HELIUS_KEY := HELIUS_KEY w;
                      replies := replies w;
                      log := log w ++ [e] |}).

(** One round trip: the request goes out, the next scripted reply comes in. *)
Definition exchange (r : request) : M json :=
  fun w =>
    let lg := log w ++ [Sent r] in
    match replies w with
    | [] => (Halt Starved,
             {| HELIUS_KEY := HELIUS_KEY w; replies := []; log := lg |})
    | Body j :: rs =>
        (Ok j, {| HELIUS_KEY := HELIUS_KEY w; replies := rs; log := lg |})
    | Failed :: rs =>
        (Raise RequestError,
         {| HELIUS_KEY := HELIUS_KEY w; replies := rs; log := lg |})
    end.

Definition http_get (url : pystr) : M json := exchange (Get url).

Definition http_post (url : pystr) (payload : json) : M json :=
  exchange (Post url payload).

(* ================================================================== *)
(** ** [get_top_pairs_from_dexscreener] *)

(** [v or {}] *)
Definition or_dict (v : json) : json := py_or v (JObj []).

(** [v or []] *)
Definition or_list (v : json) : json := py_or v (JArr []).

(** The comparison of a value with an [int]: its number, or [TypeError].
    A float compares too, which is not embedded. *)
Definition num_of (v : json) : outcome Z :=
  match as_num v with
  | Some z => Ok z
  | None =>
      match v with
      | JFloat _ => Halt Unmodelled
      | _ => Raise TypeError
      end
  end.

(** [(liq * 10) + vol]. On numbers this is Python arithmetic: exact when
    both are ints, binary64 as soon as one is a float. A string or a list can
    be repeated and concatenated; such a key is not a number and is not
    embedded. *)
Definition score_value (liq vol : json) : outcome number :=
  match to_number liq, to_number vol with
  | Some a, Some b =>
      l10 <- num_mul a (PyInt 10) ;;
      num_add l10 b
  | Some _, None => Raise TypeError
  | None, _ =>
      match liq, vol with
      | JStr _, JStr _ => Halt Unmodelled
      | JArr _, JArr _ => Halt Unmodelled
      | _, _ => Raise TypeError
      end
  end.

Definition score (p : json) : outcome number :=
  l <- get p (lit "liquidity") ;;
  usd <- get (or_dict l) (lit "usd") ;;
  v <- get p (lit "volume") ;;
  h24 <- get (or_dict v) (lit "h24") ;;
  score_value (py_or usd (JInt 0)) (py_or h24 (JInt 0)).

(** The key function is applied to every element, in order, before sorting. *)
Fixpoint with_keys (key : json -> outcome number) (l : list json)
  : outcome (list (number * json)) :=
  match l with
  | [] => Ok []
  | p :: l' =>
      k <- key p ;;
      r <- with_keys key l' ;;
      Ok ((k, p) :: r)
  end.

(** [x] goes after every strictly greater key and before the first key that
    is not greater. *)
Fixpoint insert_desc {A : Type} (x : number * A) (l : list (number * A))
  : list (number * A) :=
  match l with
  | [] => [x]
  | y :: l' =>
      if num_ltb (fst x) (fst y) then y :: insert_desc x l'
      else x :: y :: l'
  end.

(** The stable descending arrangement (elements with equal keys keep their
    original order). *)
Definition sort_desc {A : Type} (l : list (number * A)) : list (number * A) :=
  fold_right insert_desc [] l.

(** No key is smaller than the key after it. *)
Fixpoint no_ascent {A : Type} (l : list (number * A)) : bool :=
  match l with
  | x :: l' =>
      match l' with
      | y :: _ => negb (num_ltb (fst x) (fst y)) && no_ascent l'
      | [] => true
      end
  | [] => true
  end.

(** [sorted(..., reverse=True)] on keyed items. [list.sort] is stable, so
    when [<] orders the keys (no NaN among them) the result is the stable
    descending arrangement. With a NaN key [<] is no order and the result
    depends on the comparisons the algorithm happens to make; embedded is the
    case it settles at once: the list is reversed, its first run is found by
    comparing every element with the one before it, and when no element of
    the reversed list is smaller than its predecessor that run is the whole
    list, which is reversed back and returned as it was. *)
Definition sorted_desc {A : Type} (l : list (number * A))
  : outcome (list (number * A)) :=
  if forallb (fun kp => negb (is_nan (fst kp))) l then Ok (sort_desc l)
  else if no_ascent l then Ok l
  else Halt Unmodelled.

(** [sorted(data, key=score, reverse=True)] *)
Definition sorted_by_score_desc (data : json) : outcome (list json) :=
  items <- iter data ;;
  keyed <- with_keys score items ;;
  sorted <- sorted_desc keyed ;;
  Ok (map snd sorted).

Definition includes_mint (mint : pystr) (p : json) : outcome bool :=
  b <- get p (lit "baseToken") ;;
  base <- get (or_dict b) (lit "address") ;;
  q <- get p (lit "quoteToken") ;;
  quote <- get (or_dict q) (lit "address") ;;
  Ok (eq_str base mint || eq_str quote mint).

(** The [for p in pairs] loop with its [break]. *)
Fixpoint pick_pairs (mint : pystr) (top_n : Z) (pairs out : list json)
  : outcome (list json) :=
  match pairs with
  | [] => Ok out
  | p :: rest =>
      keep <- includes_mint mint p ;;
      let out' := if keep then out ++ [p] else out in
      if Z.geb (Z.of_nat (length out')) top_n then Ok out'
      else pick_pairs mint top_n rest out'
  end.

(** Everything after the HTTP call. *)
Definition top_pairs (mint : pystr) (top_n : Z) (data : json)
  : outcome (list json) :=
  pairs <- sorted_by_score_desc data ;;
  pick_pairs mint top_n pairs [].

Definition get_top_pairs_from_dexscreener (mint : pystr) (top_n : Z)
  : M (list json) :=
  data <~ http_get (DEXSCREENER_TOKEN_PAIRS mint) ;;
  lift (top_pairs mint top_n data).

(* ================================================================== *)
(** ** [rpc] and [fetch_signatures_in_window] *)

(** [rpc(api_key, method, params)]. For a body that is not a dict,
    ["error" in res] or the subscript that follows raises [TypeError]. *)
Definition rpc (api_key method : pystr) (params : json) : M json :=
  res <~ http_post (HELIUS_RPC_URL api_key)
           (JObj [(lit "jsonrpc", JStr (lit "2.0"));
                  (lit "id", JInt 1);
                  (lit "method", JStr method);
                  (lit "params", params)]) ;;
  match res with
  | JObj kv =>
      match assoc (lit "error") kv with
      | Some e => lift (Raise (RuntimeError e))
      | None => lift (getitem res (lit "result"))
      end
  | _ => lift (Raise TypeError)
  end.

(** Lines 82-84: [batch[0].get("blockTime")] and
    [batch[-1].get("blockTime")], evaluated for the progress line, on a
    [batch] that is truthy. *)
Definition page_header (batch : json) : outcome unit :=
  match batch with
  | JArr l =>
      _ <- get (hd JNull l) (lit "blockTime") ;;
      _ <- get (last l JNull) (lit "blockTime") ;;
      Ok tt
  | JObj _ => Raise KeyError
  | JStr _ => Raise AttributeError
  | _ => Raise TypeError
  end.

(** How the [for item in batch] loop ends: it falls through, or it hits
    [return sigs]. *)
Inductive scan : Type :=
| Continue (sigs : list json)
| Return (sigs : list json).

(** Lines 86-93. *)
Fixpoint scan_items (start_ts end_ts : Z) (items sigs : list json)
  : outcome scan :=
  match items with
  | [] => Ok (Continue sigs)
  | item :: rest =>
      bt <- get item (lit "blockTime") ;;
      if is_none bt then scan_items start_ts end_ts rest sigs
      else
        t <- num_of bt ;;
        if Z.ltb t start_ts then Ok (Return sigs)
        else if Z.leb start_ts t && Z.leb t end_ts then
          s <- getitem item (lit "signature") ;;
          scan_items start_ts end_ts rest (sigs ++ [s])
        else scan_items start_ts end_ts rest sigs
  end.

(** The [cfg] of one page request. *)
Definition page_cfg (c : config) (before : json) : json :=
  JObj ((lit "limit", JInt (SIG_PAGE_LIMIT c))
        :: (if truthy before then [(lit "before", before)] else [])).

(** The [while True] loop; one unit of fuel per page requested. *)
Fixpoint sig_loop (fuel : nat) (c : config) (api_key : pystr) (address : json)
    (start_ts end_ts : Z) (sigs : list json) (before : json)
  : M (list json) :=
  match fuel with
  | O => lift (Halt Starved)
  | S fuel' =>
      batch <~ rpc api_key (lit "getSignaturesForAddress")
                 (JArr [address; page_cfg c before]) ;;
      if negb (truthy batch) then ret sigs
      else
        _ <~ lift (page_header batch) ;;
        items <~ lift (iter batch) ;;
        r <~ lift (scan_items start_ts end_ts items sigs) ;;
        match r with
        | Return sigs' => ret sigs'
        | Continue sigs' =>
            before' <~ lift (getitem (last items JNull) (lit "signature")) ;;
            sig_loop fuel' c api_key address start_ts end_ts sigs' before'
        end
  end.

(** Every page costs one reply of the script, so one more unit of fuel than
    there are replies is never used up. *)
Definition fetch_signatures_in_window (c : config) (api_key : pystr)
    (address : json) (start_ts end_ts : Z) : M (list json) :=
  fun w =>
    sig_loop (S (length (replies w))) c api_key address start_ts end_ts
      [] JNull w.

(* ================================================================== *)
(** ** [extract_buyers_from_parsed_tx] *)

(** [outputs += (s.get("tokenOutputs") or [])] for every inner swap. *)
Fixpoint add_inner_outputs (inner outputs : list json) : outcome (list json) :=
  match inner with
  | [] => Ok outputs
  | s :: rest =>
      tos <- get s (lit "tokenOutputs") ;;
      more <- iter (or_list tos) ;;
      add_inner_outputs rest (outputs ++ more)
  end.

(** Lines 115-118: the direct outputs of the swap event, then those of
    its inner swaps. *)
Definition swap_outputs (tx : json) : outcome (list json) :=
  ev <- get tx (lit "events") ;;
  sw <- get (or_dict ev) (lit "swap") ;;
  tos <- get (or_dict sw) (lit "tokenOutputs") ;;
  outputs <- iter (or_list tos) ;;
  inn <- get (or_dict sw) (lit "innerSwaps") ;;
  inner <- iter (or_list inn) ;;
  add_inner_outputs inner outputs.

(** Lines 121-128, the body of [for o in outputs]: the tuple appended for
    [o], if any. *)
Definition swap_obs (mint : pystr) (fee_payer sig ts o : json)
  : outcome (option obs) :=
  m <- get o (lit "mint") ;;
  if negb (eq_str m mint) then Ok None
  else
    tua <- get o (lit "toUserAccount") ;;
    ua <- get o (lit "userAccount") ;;
    let buyer := py_or (py_or tua ua) fee_payer in
    r <- get o (lit "rawTokenAmount") ;;
    raw_amt <- get (or_dict r) (lit "tokenAmount") ;;
    dec <- get (or_dict r) (lit "decimals") ;;
    if truthy buyer then
      Ok (Some {| o_wallet := buyer; o_amt := raw_amt; o_dec := dec;
                  o_sig := sig; o_ts := ts |})
    else Ok None.

(** Lines 120-128. *)
Fixpoint swap_tier (mint : pystr) (fee_payer sig ts : json)
    (outputs : list json) (out : list obs) : outcome (list obs) :=
  match outputs with
  | [] => Ok out
  | o :: rest =>
      r <- swap_obs mint fee_payer sig ts o ;;
      swap_tier mint fee_payer sig ts rest
        (match r with Some ob => out ++ [ob] | None => out end)
  end.

(** [str(raw_amt) if raw_amt is not None else None] *)
Definition str_or_none (raw_amt : json) : outcome json :=
  if is_none raw_amt then Ok JNull
  else s <- py_str raw_amt ;; Ok (JStr s).

(** Lines 133-139, the body of [for t in tokenTransfers]: the tuple
    appended for [t], if any. *)
Definition transfer_obs (mint : pystr) (fee_payer sig ts t : json)
  : outcome (option obs) :=
  m <- get t (lit "mint") ;;
  if negb (eq_str m mint) then Ok None
  else
    tua <- get t (lit "toUserAccount") ;;
    let buyer := py_or tua fee_payer in
    raw_amt <- get t (lit "tokenAmount") ;;
    dec <- get t (lit "decimals") ;;
    if truthy buyer then
      amt <- str_or_none raw_amt ;;
      Ok (Some {| o_wallet := buyer; o_amt := amt; o_dec := dec;
                  o_sig := sig; o_ts := ts |})
    else Ok None.

(** Lines 132-139. *)
Fixpoint transfer_tier (mint : pystr) (fee_payer sig ts : json)
    (transfers : list json) (out : list obs) : outcome (list obs) :=
  match transfers with
  | [] => Ok out
  | t :: rest =>
      r <- transfer_obs mint fee_payer sig ts t ;;
      transfer_tier mint fee_payer sig ts rest
        (match r with Some ob => out ++ [ob] | None => out end)
  end.

Definition extract_buyers_from_parsed_tx (tx : json) (mint : pystr)
  : outcome (list obs) :=
  sig <- get tx (lit "signature") ;;
  ts <- get tx (lit "timestamp") ;;
  fee_payer <- get tx (lit "feePayer") ;;
  outputs <- swap_outputs tx ;;
  out <- swap_tier mint fee_payer sig ts outputs [] ;;
  match out with
  | [] =>
      tt <- get tx (lit "tokenTransfers") ;;
      transfers <- iter (or_list tt) ;;
      transfer_tier mint fee_payer sig ts transfers []
  | _ => Ok out
  end.

(* ================================================================== *)
(** ** [main] *)

(** Line 202:
    [int(amt) if isinstance(amt, str) and amt.isdigit() else 0] *)
Definition raw_int (amt : json) : outcome Z :=
  match amt with
  | JStr s => if isdigit s then py_int s else Ok 0%Z
  | _ => Ok 0%Z
  end.

(** Lines 204-220: the value of [buyers_agg[wallet]] after the tuple [o],
    given the value [cur] found before it. An entry that is found is truthy
    (a dict with seven items), so [if not e] is the test for a new key. *)
Definition updated_entry (cur : option entry) (o : obs) (raw : Z)
  : outcome entry :=
  match cur with
  | None =>
      Ok {| wallet := o_wallet o;
            first_ts := o_ts o;
            last_ts := o_ts o;
            tx_count := 1;
            raw_total := raw;
            decimals := o_dec o;
            example_sig := o_sig o |}
  | Some e =>
      f <- py_min (first_ts e) (o_ts o) ;;
      l <- py_max (last_ts e) (o_ts o) ;;
      Ok {| wallet := wallet e;
            first_ts := f;
            last_ts := l;
            tx_count := tx_count e + 1;
            raw_total := raw_total e + raw;
            decimals := if is_none (decimals e) && negb (is_none (o_dec o))
                        then o_dec o else decimals e;
            example_sig := example_sig e |}
  end.

(** Lines 201-220: the body of the loop over the tuples. *)
Definition agg_step (agg : odict entry) (o : obs) : outcome (odict entry) :=
  k <- to_hkey (o_wallet o) ;;
  raw <- raw_int (o_amt o) ;;
  e <- updated_entry (od_get k agg) o raw ;;
  Ok (od_set k e agg).

(** The loop of line 200 over the tuples of one transaction (and, by
    concatenation, of any number of them). *)
Fixpoint fold_obs (l : list obs) (agg : odict entry) : outcome (odict entry) :=
  match l with
  | [] => Ok agg
  | o :: l' =>
      agg' <- agg_step agg o ;;
      fold_obs l' agg'
  end.

(** Line 197: [any(tr.get("mint") == MINT for tr in ...)], which stops at
    the first match. *)
Fixpoint any_mint (mint : pystr) (trs : list json) : outcome bool :=
  match trs with
  | [] => Ok false
  | tr :: rest =>
      m <- get tr (lit "mint") ;;
      if eq_str m mint then Ok true else any_mint mint rest
  end.

(** Line 193: [t is None or not (START_TS <= t <= END_TS)] *)
Definition outside_window (c : config) (t : json) : outcome bool :=
  if is_none t then Ok true
  else
    z <- num_of t ;;
    Ok (negb (Z.leb (START_TS c) z && Z.leb z (END_TS c))).

(** Lines 192-220: the body of [for tx in parsed]. The counter
    [seen_mint_transfers] is only printed; the test that feeds it is kept
    because it can raise. *)
Definition process_tx (c : config) (agg : odict entry) (tx : json)
  : outcome (odict entry) :=
  t <- get tx (lit "timestamp") ;;
  skip <- outside_window c t ;;
  if skip then Ok agg
  else
    tt <- get tx (lit "tokenTransfers") ;;
    trs <- iter (or_list tt) ;;
    _ <- any_mint (MINT c) trs ;;
    l <- extract_buyers_from_parsed_tx tx (MINT c) ;;
    fold_obs l agg.

Fixpoint fold_txs (c : config) (txs : list json) (agg : odict entry)
  : outcome (odict entry) :=
  match txs with
  | [] => Ok agg
  | tx :: rest =>
      agg' <- process_tx c agg tx ;;
      fold_txs c rest agg'
  end.

(** [list(dict.fromkeys(sigs))]: the first occurrence of every key. *)
Fixpoint dedup (seen : list hkey) (sigs : list json) : outcome (list json) :=
  match sigs with
  | [] => Ok []
  | s :: rest =>
      k <- to_hkey s ;;
      if existsb (hkey_eqb k) seen then dedup seen rest
      else
        r <- dedup (k :: seen) rest ;;
        Ok (s :: r)
  end.

Fixpoint chunks_aux {A : Type} (fuel n : nat) (l : list A) : list (list A) :=
  match fuel with
  | O => []
  | S fuel' =>
      match l with
      | [] => []
      | _ => firstn n l :: chunks_aux fuel' n (skipn n l)
      end
  end.

(** [sigs[i : i + step] for i in range(0, len(sigs), step)]: [range]
    rejects a zero step and is empty for a negative one. *)
Definition chunks (step : Z) (sigs : list json) : outcome (list (list json)) :=
  if Z.eqb step 0 then Raise ValueError
  else if Z.ltb step 0 then Ok []
  else Ok (chunks_aux (length sigs) (Z.to_nat step) sigs).

(** Lines 187-223. *)
Fixpoint parse_chunks (c : config) (api_key : pystr) (cs : list (list json))
    (agg : odict entry) : M (odict entry) :=
  match cs with
  | [] => ret agg
  | chunk :: rest =>
      parsed <~ http_post (HELIUS_PARSE_URL api_key)
                  (JObj [(lit "transactions", JArr chunk)]) ;;
      txs <~ lift (iter parsed) ;;
      agg' <~ lift (fold_txs c txs agg) ;;
      parse_chunks c api_key rest agg'
  end.

(** Lines 163-225: the body of [for p in pairs]. *)
Definition scan_pool (c : config) (api_key : pystr) (agg : odict entry)
    (p : json) : M (odict entry) :=
  pair_addr <~ lift (get p (lit "pairAddress")) ;;
  if negb (truthy pair_addr) then ret agg
  else
    keep <~ lift (includes_mint (MINT c) p) ;;
    if negb keep then ret agg
    else
      sigs <~ fetch_signatures_in_window c api_key pair_addr
                (START_TS c) (END_TS c) ;;
      sigs' <~ lift (dedup [] sigs) ;;
      cs <~ lift (chunks (PARSE_BATCH c) sigs') ;;
      parse_chunks c api_key cs agg.

(** Lines 160-225: one [buyers_agg] for all the pools. *)
Fixpoint scan_pools (c : config) (api_key : pystr) (pairs : list json)
    (agg : odict entry) : M (odict entry) :=
  match pairs with
  | [] => ret agg
  | p :: rest =>
      agg' <~ scan_pool c api_key agg p ;;
      scan_pools c api_key rest agg'
  end.

(** [datetime.fromtimestamp(ts, tz=timezone.utc)] exists for the years 1 to
    9999 (some platforms accept less). *)
Definition fromtimestamp_utc (ts : Z) : outcome unit :=
  if Z.leb (-62135596800) ts && Z.leb ts 253402300799 then Ok tt
  else Raise ValueError.

Fixpoint insert_asc {A : Type} (x : Z * A) (l : list (Z * A)) : list (Z * A) :=
  match l with
  | [] => [x]
  | y :: l' =>
      if Z.ltb (fst y) (fst x) then y :: insert_asc x l' else x :: y :: l'
  end.

Fixpoint with_first_ts (l : list entry) : outcome (list (Z * entry)) :=
  match l with
  | [] => Ok []
  | e :: l' =>
      k <- match as_num (first_ts e) with
           | Some z => Ok z
           | None => Halt Unmodelled
           end ;;
      r <- with_first_ts l' ;;
      Ok ((k, e) :: r)
  end.

(** Line 227: [sorted(buyers_agg.values(), key=lambda x: x["first_ts"])],
    for numeric keys; the result is the stable ascending arrangement. *)
Definition report_rows (agg : odict entry) : outcome (list entry) :=
  keyed <- with_first_ts (od_values agg) ;;
  Ok (map snd (fold_right insert_asc [] keyed)).

(** Line 228 *)
Definition out_file (c : config) : pystr :=
  lit "buyers_" ++ firstn 6 (MINT c) ++ lit "_" ++ str_of_Z (START_TS c)
    ++ lit "_" ++ str_of_Z (END_TS c) ++ lit ".csv".

Definition dquote : string := String (ascii_of_nat 34) EmptyString.

Definition no_key_message : string :=
  ("Set it in PowerShell:  $env:HELIUS_KEY=" ++ dquote ++ "YOUR_API_KEY"
   ++ dquote)%string.

Definition no_pairs_message : string :=
  "No Dexscreener pairs found that include this mint. (Wrong mint or not traded yet.)".

(** A string the UTF-8 encoder of the file accepts: no surrogate code
    point (JSON text can escape a lone one). *)
Definition encodable (s : pystr) : bool :=
  forallb (fun c => negb (N.leb 55296 c && N.leb c 57343)) s.

(** A field [csv] can write to the file: a string goes out as it is and has
    to encode; [None] is the empty field and anything else goes through
    [str], whose text always encodes. *)
Definition writable (v : json) : bool :=
  match v with
  | JStr s => encodable s
  | _ => true
  end.

(** The fields of a row that are not always numbers or dates. *)
Definition row_encodes (e : entry) : bool :=
  writable (wallet e) && writable (decimals e) && writable (example_sig e).

(** Lines 234-244, one [w.writerow([...])]: the list is built first, which
    needs the two dates, then the line is encoded and buffered. *)
Definition write_row (e : entry) : outcome unit :=
  f <- num_of (first_ts e) ;;
  _ <- fromtimestamp_utc f ;;
  l <- num_of (last_ts e) ;;
  _ <- fromtimestamp_utc l ;;
  if row_encodes e then Ok tt else Raise UnicodeEncodeError.

(** Lines 233-244: how the loop ends, and the rows written until then. *)
Fixpoint write_rows (rows written : list entry) : outcome unit * list entry :=
  match rows with
  | [] => (Ok tt, written)
  | e :: rest =>
      match write_row e with
      | Ok _ => write_rows rest (written ++ [e])
      | Halt s => (Halt s, written)
      end
  end.

(** Lines 230-244. [open] creates or empties the file; the header and the
    rows are buffered and reach the file when the [with] block is left,
    whether the loop finished or raised. *)
Definition write_csv (file : pystr) (rows : list entry) : M unit :=
  fun w =>
    let r := write_rows rows [] in
    (fst r, snd (emit (Wrote file (snd r)) w)).

(** [main()]. What the file holds is logged as the rows written; how a row
    is rendered as text is not embedded. *)
Definition main (c : config) : M unit :=
  fun w =>
    match HELIUS_KEY w with
    | None | Some [] => (Raise (SystemExit no_key_message), w)
    | Some api_key =>
        (_ <~ lift (fromtimestamp_utc (START_TS c)) ;;
         _ <~ lift (fromtimestamp_utc (END_TS c)) ;;
         pairs <~ get_top_pairs_from_dexscreener (MINT c) (TOP_POOLS c) ;;
         match pairs with
         | [] => lift (Raise (SystemExit no_pairs_message))
         | _ =>
             agg <~ scan_pools c api_key pairs [] ;;
             rows <~ lift (report_rows agg) ;;
             write_csv (out_file c) rows
         end) w
    end.

(* ================================================================== *)
(** ** Definitions used to state the properties *)

(** The dict key an observation is folded under. *)
Definition obs_key (o : obs) : hkey :=
  match to_hkey (o_wallet o) with
  | Ok k => k
  | Halt _ => HNone
  end.

Definition has_key (k : hkey) (o : obs) : bool := hkey_eqb k (obs_key o).

(** The integer an observation adds to [raw_total]. *)
Definition contribution (o : obs) : Z :=
  match raw_int (o_amt o) with
  | Ok z => z
  | Halt _ => 0%Z
  end.

(** The timestamp of an observation, as a number. *)
Definition time_of (o : obs) : Z :=
  match as_num (o_ts o) with
  | Some z => z
  | None => 0%Z
  end.

(** An observation the reducer can fold whatever came before: a hashable
    wallet, an amount whose contribution is defined, a numeric timestamp. *)
Definition foldable (o : obs) : Prop :=
  (exists k, to_hkey (o_wallet o) = Ok k)
  /\ (exists z, raw_int (o_amt o) = Ok z)
  /\ (exists t, as_num (o_ts o) = Some t).

(** The first decimals value that is not [None], or [None]. *)
Definition first_decimals (l : list obs) : json :=
  match find (fun o => negb (is_none (o_dec o))) l with
  | Some o => o_dec o
  | None => JNull
  end.

Definition sum_Z (l : list Z) : Z := fold_right Z.add 0%Z l.

(** The value [d.get(k)] has for a dict with the items [kv]. *)
Definition field (k : pystr) (kv : list (pystr * json)) : json :=
  match assoc k kv with
  | Some v => v
  | None => JNull
  end.

(** The items of a dict after [d[k] = v]. *)
Fixpoint set_item (k : pystr) (v : json) (kv : list (pystr * json))
  : list (pystr * json) :=
  match kv with
  | [] => [(k, v)]
  | (k', v') :: kv' =>
      if str_eqb k k' then (k', v) :: kv' else (k', v') :: set_item k v kv'
  end.

(** The items of the page a reply carries, when it carries one. *)
Definition page_items (r : reply) : list json :=
  match r with
  | Body (JObj kv) =>
      match assoc (lit "result") kv with
      | Some (JArr l) => l
      | _ => []
      end
  | _ => []
  end.

(** [item] carries the signature [s] and a block time that is present and
    inside [[start_ts, end_ts]]. *)
Definition in_window_item (start_ts end_ts : Z) (s item : json) : Prop :=
  getitem item (lit "signature") = Ok s
  /\ exists bt t,
       get item (lit "blockTime") = Ok bt
       /\ is_none bt = false
       /\ as_num bt = Some t
       /\ (start_ts <= t <= end_ts)%Z.

Definition scan_sigs (r : scan) : list json :=
  match r with
  | Continue sigs => sigs
  | Return sigs => sigs
  end.

(** What the mint test of the code answers, [False] when it raises. *)
Definition references_mint (mint : pystr) (p : json) : bool :=
  match includes_mint mint p with
  | Ok b => b
  | Halt _ => false
  end.

(** *** Pool discovery in the words of the spec *)

Definition dict_or_none (v : json) : bool :=
  match v with
  | JNull | JObj _ => true
  | _ => false
  end.

Definition list_or_none (v : json) : bool :=
  match v with
  | JNull | JArr _ => true
  | _ => false
  end.

(** A pair object: a dict whose [liquidity], [volume], [baseToken] and
    [quoteToken] are objects or missing. *)
Definition pair_object (p : json) : bool :=
  match p with
  | JObj kv =>
      dict_or_none (field (lit "liquidity") kv)
      && dict_or_none (field (lit "volume") kv)
      && dict_or_none (field (lit "baseToken") kv)
      && dict_or_none (field (lit "quoteToken") kv)
  | _ => false
  end.

(** The value under [a] then [b] of a pair object, [None] when a step is
    missing. *)
Definition nested (a b : pystr) (p : json) : json :=
  match p with
  | JObj kv =>
      match field a kv with
      | JObj kv' => field b kv'
      | _ => JNull
      end
  | _ => JNull
  end.

(** A figure of a pair as a number: a missing one is 0, and so is a zero of
    either kind. *)
Definition figure (v : json) : option number :=
  match v with
  | JNull => Some (PyInt 0)
  | JFloat (S754_zero _) => Some (PyInt 0)
  | _ => to_number v
  end.

Definition liquidity_usd (p : json) : option number :=
  figure (nested (lit "liquidity") (lit "usd") p).

Definition volume_24h_usd (p : json) : option number :=
  figure (nested (lit "volume") (lit "h24") p).

(** [liquidity_usd * 10 + volume_24h_usd], when both figures are numbers
    and the arithmetic does not overflow. *)
Definition spec_score (p : json) : option number :=
  match liquidity_usd p, volume_24h_usd p with
  | Some liq, Some vol =>
      match num_mul liq (PyInt 10) with
      | Ok l10 =>
          match num_add l10 vol with
          | Ok s => Some s
          | Halt _ => None
          end
      | Halt _ => None
      end
  | _, _ => None
  end.

(** The pair has a score, and it is not NaN. *)
Definition scored (p : json) : bool :=
  match spec_score p with
  | Some k => negb (is_nan k)
  | None => false
  end.

Definition score_of (p : json) : number :=
  match spec_score p with
  | Some k => k
  | None => PyInt 0
  end.

(** The base or the quote token address of the pair equals the mint. *)
Definition names_mint (mint : pystr) (p : json) : bool :=
  eq_str (nested (lit "baseToken") (lit "address") p) mint
  || eq_str (nested (lit "quoteToken") (lit "address") p) mint.

(** [a <= b] on numbers. *)
Definition num_leb (a b : number) : bool :=
  match rank a, rank b with
  | Some x, Some y => negb (ext_ltb y x)
  | _, _ => false
  end.

(** A key that is not NaN. *)
Definition real_key {A : Type} (kp : number * A) : Prop :=
  is_nan (fst kp) = false.

(** Descending order of keys: the key of [b] is at most that of [a]. *)
Definition key_ge {A : Type} (a b : number * A) : Prop :=
  num_leb (fst b) (fst a) = true.

Definition keyed_by_score (items : list json) : list (number * json) :=
  map (fun p => (score_of p, p)) items.

(** Among the pairs that name the mint, in descending order of score with
    ties in their original order, the first [n]. *)
Definition ranked_pairs (mint : pystr) (items : list json)
  : list (number * json) :=
  sort_desc (filter (fun kp => names_mint mint (snd kp))
               (keyed_by_score items)).

Definition spec_top_pairs (mint : pystr) (n : nat) (items : list json)
  : list json :=
  firstn n (map snd (ranked_pairs mint items)).

(** *** Buyer extraction in the words of the spec *)

(** The token outputs of one swap leg. *)
Definition leg_outputs (leg : json) : list json :=
  match leg with
  | JObj kv =>
      match field (lit "tokenOutputs") kv with
      | JArr l => l
      | _ => []
      end
  | _ => []
  end.

(** The swap event of a transaction, if it has one. *)
Definition swap_event (kv : list (pystr * json)) : json :=
  nested (lit "events") (lit "swap") (JObj kv).

Definition inner_swaps (kv : list (pystr * json)) : list json :=
  match swap_event kv with
  | JObj sw =>
      match field (lit "innerSwaps") sw with
      | JArr legs => legs
      | _ => []
      end
  | _ => []
  end.

(** The swap-event token outputs of a transaction: the direct ones, then
    those of every inner swap, in order. *)
Definition swap_event_outputs (kv : list (pystr * json)) : list json :=
  leg_outputs (swap_event kv) ++ flat_map leg_outputs (inner_swaps kv).

Definition leg_shaped (leg : json) : bool :=
  match leg with
  | JObj kv => list_or_none (field (lit "tokenOutputs") kv)
  | _ => false
  end.

(** A parsed transaction as the API documents it: [events] and its [swap]
    are objects or missing; [tokenOutputs] is a list or missing;
    [innerSwaps] is a list of objects of the same shape, or missing. *)
Definition swap_event_shaped (kv : list (pystr * json)) : bool :=
  dict_or_none (field (lit "events") kv)
  && match swap_event kv with
     | JNull => true
     | JObj sw =>
         list_or_none (field (lit "tokenOutputs") sw)
         && match field (lit "innerSwaps") sw with
            | JNull => true
            | JArr legs => forallb leg_shaped legs
            | _ => false
            end
     | _ => false
     end.

(** The buyer of a swap output: [toUserAccount], else [userAccount], else
    the fee payer. *)
Definition buyer_of (fee_payer o : json) : json :=
  match o with
  | JObj okv =>
      py_or (py_or (field (lit "toUserAccount") okv)
               (field (lit "userAccount") okv)) fee_payer
  | _ => fee_payer
  end.

(** An output for the mint. *)
Definition for_mint (mint : pystr) (o : json) : bool :=
  match o with
  | JObj okv => eq_str (field (lit "mint") okv) mint
  | _ => false
  end.

(** A swap output for the mint whose buyer can be resolved (and whose
    [rawTokenAmount] is an object or missing). *)
Definition matching_output (mint : pystr) (fee_payer o : json) : bool :=
  match o with
  | JObj okv =>
      for_mint mint o
      && truthy (buyer_of fee_payer o)
      && dict_or_none (field (lit "rawTokenAmount") okv)
  | _ => false
  end.

(** The tuple of the swap tier for the output [o] of the transaction
    [kv]: the raw amount is passed on as it is. *)
Definition swap_observation (kv : list (pystr * json)) (o : json) : obs :=
  {| o_wallet := buyer_of (field (lit "feePayer") kv) o;
     o_amt := nested (lit "rawTokenAmount") (lit "tokenAmount") o;
     o_dec := nested (lit "rawTokenAmount") (lit "decimals") o;
     o_sig := field (lit "signature") kv;
     o_ts := field (lit "timestamp") kv |}.

(** [m] is the least element of [l]. *)
Definition is_min (m : Z) (l : list Z) : Prop :=
  In m l /\ Forall (fun t => (m <= t)%Z) l.

(** [m] is the greatest element of [l]. *)
Definition is_max (m : Z) (l : list Z) : Prop :=
  In m l /\ Forall (fun t => (t <= m)%Z) l.

(** What the tuples [l] do to the one slot [k] of [buyers_agg]. *)
Fixpoint slot_fold (k : hkey) (l : list obs) (cur : option entry)
  : outcome (option entry) :=
  match l with
  | [] => Ok cur
  | o :: l' =>
      if has_key k o then
        raw <- raw_int (o_amt o) ;;
        e <- updated_entry cur o raw ;;
        slot_fold k l' (Some e)
      else slot_fold k l' cur
  end.

(** An entry whose two timestamps are numbers. *)
Definition timed (e : entry) : Prop :=
  (exists t, as_num (first_ts e) = Some t)
  /\ (exists t, as_num (last_ts e) = Some t).

(** *** The tuples a run folds, pool by pool *)

(** The tuples [process_tx] folds for one transaction. *)
Definition tx_obs (c : config) (tx : json) : outcome (list obs) :=
  t <- get tx (lit "timestamp") ;;
  skip <- outside_window c t ;;
  if skip then Ok []
  else
    tt <- get tx (lit "tokenTransfers") ;;
    trs <- iter (or_list tt) ;;
    _ <- any_mint (MINT c) trs ;;
    extract_buyers_from_parsed_tx tx (MINT c).

Fixpoint txs_obs (c : config) (txs : list json) : outcome (list obs) :=
  match txs with
  | [] => Ok []
  | tx :: rest =>
      l <- tx_obs c tx ;;
      r <- txs_obs c rest ;;
      Ok (l ++ r)
  end.

Fixpoint chunks_obs (c : config) (api_key : pystr) (cs : list (list json))
  : M (list obs) :=
  match cs with
  | [] => ret []
  | chunk :: rest =>
      parsed <~ http_post (HELIUS_PARSE_URL api_key)
                  (JObj [(lit "transactions", JArr chunk)]) ;;
      txs <~ lift (iter parsed) ;;
      l <~ lift (txs_obs c txs) ;;
      r <~ chunks_obs c api_key rest ;;
      ret (l ++ r)
  end.

(** The tuples of one pool: the walk, the parsing and the extraction of
    [scan_pool], with the tuples collected instead of folded. *)
Definition pool_obs (c : config) (api_key : pystr) (p : json) : M (list obs) :=
  pair_addr <~ lift (get p (lit "pairAddress")) ;;
  if negb (truthy pair_addr) then ret []
  else
    keep <~ lift (includes_mint (MINT c) p) ;;
    if negb keep then ret []
    else
      sigs <~ fetch_signatures_in_window c api_key pair_addr
                (START_TS c) (END_TS c) ;;
      sigs' <~ lift (dedup [] sigs) ;;
      cs <~ lift (chunks (PARSE_BATCH c) sigs') ;;
      chunks_obs c api_key cs.

(** One list of tuples per pool, in the order the pools are scanned. *)
Fixpoint pools_obs (c : config) (api_key : pystr) (pairs : list json)
  : M (list (list obs)) :=
  match pairs with
  | [] => ret []
  | p :: rest =>
      l <~ pool_obs c api_key p ;;
      r <~ pools_obs c api_key rest ;;
      ret (l :: r)
  end.

(* ================================================================== *)
(** ** Sample data *)

Module Sample.

Definition mint : pystr := lit "MINT".

Definition swap_output (who amount : json) : json :=
  JObj [(lit "mint", JStr mint);
        (lit "toUserAccount", who);
        (lit "rawTokenAmount",
         JObj [(lit "tokenAmount", amount); (lit "decimals", JInt 6)])].

Definition transfer (who amount : json) : json :=
  JObj [(lit "mint", JStr mint);
        (lit "toUserAccount", who);
        (lit "tokenAmount", amount);
        (lit "decimals", JInt 6)].

(** A parsed transaction with a swap event and a flat transfer list. *)
Definition tx_items (sig : string) (ts : Z) (outputs transfers : list json)
  : list (pystr * json) :=
  [(lit "signature", JStr (lit sig));
   (lit "timestamp", JInt ts);
   (lit "feePayer", JStr (lit "PAYER"));
   (lit "events", JObj [(lit "swap", JObj [(lit "tokenOutputs", JArr outputs)])]);
   (lit "tokenTransfers", JArr transfers)].

Definition tx (sig : string) (ts : Z) (outputs transfers : list json) : json :=
  JObj (tx_items sig ts outputs transfers).

(** A parsed transaction whose swap event has direct outputs and one inner
    swap with outputs of its own. *)
Definition tx_inner_items (sig : string) (ts : Z)
    (direct inner transfers : list json) : list (pystr * json) :=
  [(lit "signature", JStr (lit sig));
   (lit "timestamp", JInt ts);
   (lit "feePayer", JStr (lit "PAYER"));
   (lit "events",
    JObj [(lit "swap",
           JObj [(lit "tokenOutputs", JArr direct);
                 (lit "innerSwaps",
                  JArr [JObj [(lit "tokenOutputs", JArr inner)]])])]);
   (lit "tokenTransfers", JArr transfers)].

(** An output like [swap_output], for some other mint. *)
Definition foreign_output (who amount : json) : json :=
  JObj [(lit "mint", JStr (lit "OTHER"));
        (lit "toUserAccount", who);
        (lit "rawTokenAmount",
         JObj [(lit "tokenAmount", amount); (lit "decimals", JInt 9)])].

Definition observation (who : string) (amount : json) (sig : string) (ts : Z)
  : obs :=
  {| o_wallet := JStr (lit who); o_amt := amount; o_dec := JInt 6;
     o_sig := JStr (lit sig); o_ts := JInt ts |}.

End Sample.

Module SampleRun.

(** The window of the spec's scenarios. *)
Definition cfg : config := {|
  MINT := Sample.mint;
  START_TS := 1000;
  END_TS := 2000;
  TOP_POOLS := 5;
  SIG_PAGE_LIMIT := 1000;
  PARSE_BATCH := 100
|}.

Definition sig_item (sig : string) (block_time : json) : json :=
  JObj [(lit "signature", JStr (lit sig)); (lit "blockTime", block_time)].

(** The body of a successful JSON-RPC answer. *)
Definition rpc_result (result : json) : reply :=
  Body (JObj [(lit "jsonrpc", JStr (lit "2.0")); (lit "id", JInt 1);
              (lit "result", result)]).

(** Newest first: one signature above the window, two inside, one without
    a block time, one below the window, and one inside that is never
    reached. *)
Definition page1 : list json :=
  [sig_item "s0" (JInt 2500);
   sig_item "s1" (JInt 1800);
   sig_item "s2" JNull;
   sig_item "s3" (JInt 1200);
   sig_item "s4" (JInt 900);
   sig_item "s5" (JInt 1500)].

Definition world0 (rs : list reply) : world :=
  {| HELIUS_KEY := Some (lit "KEY"); replies := rs; log := [] |}.

Definition pool_address : json := JStr (lit "POOL").

(** The request for the first page of the pool's signatures. *)
Definition first_page_request : event :=
  Sent (Post (HELIUS_RPC_URL (lit "KEY"))
          (JObj [(lit "jsonrpc", JStr (lit "2.0"));
                 (lit "id", JInt 1);
                 (lit "method", JStr (lit "getSignaturesForAddress"));
                 (lit "params",
                  JArr [pool_address; JObj [(lit "limit", JInt 1000)]])])).

(** The world once the first page has come in. *)
Definition world1 (rs : list reply) : world :=
  {| HELIUS_KEY := Some (lit "KEY"); replies := rs;
     log := [first_page_request] |}.

End SampleRun.

Module TwoPools.

Import SampleRun.

Definition pair (address base quote : string) (liq vol : Z) : json :=
  JObj [(lit "pairAddress", JStr (lit address));
        (lit "dexId", JStr (lit "dex"));
        (lit "baseToken", JObj [(lit "address", JStr (lit base))]);
        (lit "quoteToken", JObj [(lit "address", JStr (lit quote))]);
        (lit "liquidity", JObj [(lit "usd", JInt liq)]);
        (lit "volume", JObj [(lit "h24", JInt vol)])].

Definition pool_a : json := pair "POOLA" "MINT" "SOL" 5 0.
Definition pool_b : json := pair "POOLB" "USDC" "MINT" 1 10.
Definition pool_c : json := pair "POOLC" "SOL" "USDC" 100 0.
Definition pool_d : json := pair "POOLD" "MINT" "USDC" 5 0.

(** Pairs with fractional figures. [pool_e] scores 2.5 * 10 + 0 = 25.0;
    [pool_f], which names the mint as its quote token, 1 * 10 + 14.75 =
    24.75; [pool_g] has no liquidity at all and scores 0 * 10 + 25 = 25, the
    same as [pool_e]; [pool_h] scores highest and does not name the mint. *)
Definition pair_of (address base quote : string) (figures : list (pystr * json))
  : json :=
  JObj ([(lit "pairAddress", JStr (lit address));
         (lit "baseToken", JObj [(lit "address", JStr (lit base))]);
         (lit "quoteToken", JObj [(lit "address", JStr (lit quote))])]
        ++ figures).

Definition pool_e : json :=
  pair_of "POOLE" "MINT" "SOL"
    [(lit "liquidity", JObj [(lit "usd", JFloat (b64 5 (-1)))]);
     (lit "volume", JObj [(lit "h24", JInt 0)])].

Definition pool_f : json :=
  pair_of "POOLF" "USDC" "MINT"
    [(lit "liquidity", JObj [(lit "usd", JInt 1)]);
     (lit "volume", JObj [(lit "h24", JFloat (b64 59 (-2)))])].

Definition pool_g : json :=
  pair_of "POOLG" "MINT" "USDC"
    [(lit "volume", JObj [(lit "h24", JInt 25)])].

Definition pool_h : json :=
  pair_of "POOLH" "SOL" "USDC"
    [(lit "liquidity", JObj [(lit "usd", JFloat (b64 1000 0))]);
     (lit "volume", JObj [(lit "h24", JFloat (b64 1 (-1)))])].

(** Three pairs that name the mint; the score of the middle one is
    [inf * 10 + (-inf)], which is NaN. JSON text gives the two infinities
    as [1e999] and [-1e999]. *)
Definition pool_low : json :=
  pair_of "LOW" "MINT" "SOL" [(lit "volume", JObj [(lit "h24", JInt 1)])].

Definition pool_nan : json :=
  pair_of "NAN" "MINT" "SOL"
    [(lit "liquidity", JObj [(lit "usd", JFloat (S754_infinity false))]);
     (lit "volume", JObj [(lit "h24", JFloat (S754_infinity true))])].

Definition pool_high : json :=
  pair_of "HIGH" "MINT" "SOL" [(lit "volume", JObj [(lit "h24", JInt 2)])].

(** W buys 100 through pool A at 1200 (a swap event) and 50 through pool B
    at 1800 (a flat transfer). *)
Definition network : list reply :=
  [Body (JArr [pool_c; pool_a; pool_b]);
   rpc_result (JArr [sig_item "a1" (JInt 1200); sig_item "a0" (JInt 900)]);
   Body (JArr [Sample.tx "a1" 1200
                 [Sample.swap_output (JStr (lit "W")) (JStr (lit "100"))] []]);
   rpc_result (JArr [sig_item "b1" (JInt 1800)]);
   rpc_result (JArr []);
   Body (JArr [Sample.tx "b1" 1800 []
                 [Sample.transfer (JStr (lit "W")) (JInt 50)]])].

(** The world after pool discovery. *)
Definition scanning : world := world0 (tl network).

Definition entry_w : entry :=
  {| wallet := JStr (lit "W");
     first_ts := JInt 1200;
     last_ts := JInt 1800;
     tx_count := 2;
     raw_total := 150;
     decimals := JInt 6;
     example_sig := JStr (lit "a1") |}.

End TwoPools.

(* ================================================================== *)
(** ** Further definitions used to state properties *)

(** *** The signature walk *)

(** The block time of a page item, when it is a number. *)
Definition block_time (item : json) : option Z :=
  match get item (lit "blockTime") with
  | Ok bt => as_num bt
  | Halt _ => None
  end.

Definition in_window (start_ts end_ts : Z) (item : json) : bool :=
  match block_time item with
  | Some t => Z.leb start_ts t && Z.leb t end_ts
  | None => false
  end.

Definition below_window (start_ts : Z) (item : json) : bool :=
  match block_time item with
  | Some t => Z.ltb t start_ts
  | None => false
  end.

Definition signature_of (item : json) : json :=
  match getitem item (lit "signature") with
  | Ok s => s
  | Halt _ => JNull
  end.

(** A page item the loop reads without raising: a dict with a signature
    whose block time is [None] or a number. *)
Definition item_ok (item : json) : Prop :=
  (exists s, getitem item (lit "signature") = Ok s)
  /\ exists bt,
       get item (lit "blockTime") = Ok bt
       /\ (bt = JNull \/ exists t, as_num bt = Some t).

(** A reply that [rpc] turns into the value [batch]. *)
Definition page_reply (r : reply) (batch : json) : Prop :=
  exists kv,
    r = Body (JObj kv)
    /\ assoc (lit "error") kv = None
    /\ assoc (lit "result") kv = Some batch.

(** The request [rpc] sends. *)
Definition rpc_request (api_key method : pystr) (params : json) : request :=
  Post (HELIUS_RPC_URL api_key)
    (JObj [(lit "jsonrpc", JStr (lit "2.0"));
           (lit "id", JInt 1);
           (lit "method", JStr method);
           (lit "params", params)]).

(** The request for a page of signatures in full: the address, the page
    limit and, when there is a cursor, the cursor as [before]. *)
Definition cursor_request (c : config) (api_key : pystr) (address : json)
    (cursor : option json) : event :=
  Sent (Post (HELIUS_RPC_URL api_key)
          (JObj [(lit "jsonrpc", JStr (lit "2.0"));
                 (lit "id", JInt 1);
                 (lit "method", JStr (lit "getSignaturesForAddress"));
                 (lit "params",
                  JArr [address;
                        JObj ((lit "limit", JInt (SIG_PAGE_LIMIT c))
                              :: match cursor with
                                 | Some s => [(lit "before", s)]
                                 | None => []
                                 end)])])).

(** The request for one page of signatures, given the cursor. *)
Definition page_request (c : config) (api_key : pystr) (address before : json)
  : event :=
  Sent (rpc_request api_key (lit "getSignaturesForAddress")
          (JArr [address; page_cfg c before])).

(** The cursor a page leaves behind: the signature of its last item. *)
Definition cursor_after (page : list json) : json :=
  signature_of (last page JNull).

(** The cursor the next request carries after a page: the signature of
    its last item, unless that is falsy (an empty string, say), in which
    case none is sent. *)
Definition sent_cursor (page : list json) : option json :=
  if truthy (cursor_after page) then Some (cursor_after page) else None.

(** *** Deduplication and batching *)

(** The dict key of a signature. *)
Definition sig_key (s : json) : hkey :=
  match to_hkey s with
  | Ok k => k
  | Halt _ => HNone
  end.

Definition hashable (s : json) : Prop := exists k, to_hkey s = Ok k.

(** *** The reducer *)

(** A tuple as [main] folds it: a truthy wallet and a numeric timestamp
    inside the window. *)
Definition obs_in_window (c : config) (o : obs) : Prop :=
  truthy (o_wallet o) = true
  /\ exists t, as_num (o_ts o) = Some t /\ (START_TS c <= t <= END_TS c)%Z.

(** What holds of every item of [buyers_agg] during a run. *)
Definition entry_ok (c : config) (k : hkey) (e : entry) : Prop :=
  to_hkey (wallet e) = Ok k
  /\ truthy (wallet e) = true
  /\ (exists f l,
        as_num (first_ts e) = Some f
        /\ as_num (last_ts e) = Some l
        /\ (START_TS c <= f <= l)%Z /\ (l <= END_TS c)%Z)
  /\ (1 <= tx_count e)%Z
  /\ (0 <= raw_total e)%Z.

(** The number a row is sorted by. *)
Definition first_seen (e : entry) : Z :=
  match as_num (first_ts e) with
  | Some z => z
  | None => 0%Z
  end.

(** The keys of a sequence in the order they first occur. *)
Definition first_occurrences (ks : list hkey) : list hkey :=
  fold_left (fun acc k => if existsb (hkey_eqb k) acc then acc else acc ++ [k])
    ks [].

(** *** The log *)

Definition is_sent (e : event) : Prop := exists r, e = Sent r.

(** The step from [w] to [w'] only sent requests. *)
Definition only_sent (w w' : world) : Prop :=
  HELIUS_KEY w' = HELIUS_KEY w
  /\ exists evs, log w' = log w ++ evs /\ Forall is_sent evs.

(** A computation that, whatever its outcome, only sends requests. *)
Definition quiet {A : Type} (m : M A) : Prop :=
  forall w, only_sent w (snd (m w)).

(** *** More sample data *)

Module Walk.

Import SampleRun.

(** Two pages and the empty page that ends the walk; nothing below the
    window, one signature exactly on its lower bound. *)
Definition page_a : list json :=
  [sig_item "s0" (JInt 2500); sig_item "s1" (JInt 1800); sig_item "s2" JNull].

Definition page_b : list json :=
  [sig_item "s3" (JInt 1200); sig_item "s6" (JInt 1000)].

Definition script : list reply :=
  [rpc_result (JArr page_a); rpc_result (JArr page_b); rpc_result (JArr [])].

End Walk.

Module Fallback.

(** A swap event whose only output is for another mint, and two flat
    transfers of which one is for the mint. *)
Definition other_output : json :=
  JObj [(lit "mint", JStr (lit "OTHER"));
        (lit "toUserAccount", JStr (lit "W"));
        (lit "rawTokenAmount",
         JObj [(lit "tokenAmount", JStr (lit "9")); (lit "decimals", JInt 9)])].

Definition other_transfer : json :=
  JObj [(lit "mint", JStr (lit "OTHER"));
        (lit "toUserAccount", JStr (lit "W"));
        (lit "tokenAmount", JInt 3)].

Definition items : list (pystr * json) :=
  Sample.tx_items "s7" 1300 [other_output]
    [other_transfer; Sample.transfer JNull (JInt 50)].

End Fallback.

Module Partial.

Import SampleRun.

(** A wallet address that is one lone surrogate: JSON text can escape it,
    UTF-8 cannot encode it. *)
Definition lone : json := JStr [55296%N].

(** The run of [TwoPools], except that the transfer through pool B goes to
    the wallet [lone]. *)
Definition network : list reply :=
  [Body (JArr [TwoPools.pool_c; TwoPools.pool_a; TwoPools.pool_b]);
   rpc_result (JArr [sig_item "a1" (JInt 1200); sig_item "a0" (JInt 900)]);
   Body (JArr [Sample.tx "a1" 1200
                 [Sample.swap_output (JStr (lit "W")) (JStr (lit "100"))] []]);
   rpc_result (JArr [sig_item "b1" (JInt 1800)]);
   rpc_result (JArr []);
   Body (JArr [Sample.tx "b1" 1800 [] [Sample.transfer lone (JInt 50)]])].

Definition entry_w : entry :=
  {| wallet := JStr (lit "W");
     first_ts := JInt 1200;
     last_ts := JInt 1200;
     tx_count := 1;
     raw_total := 100;
     decimals := JInt 6;
     example_sig := JStr (lit "a1") |}.

End Partial.

(** Ascending order of keys. *)
Definition key_le {A : Type} (a b : Z * A) : Prop := (fst a <= fst b)%Z.

(** Rows in ascending order of [first_ts]. *)
Definition by_first_seen (a b : entry) : Prop := (first_seen a <= first_seen b)%Z.

(* ================================================================== *)
(** * Properties *)

(** ** The value model *)

Section PyFacts.

Lemma str_eqb_refl (s : pystr) : str_eqb s s = true.
Proof.
  induction s as [|c s IH]; simpl; [reflexivity|].
  now rewrite N.eqb_refl.
Qed.

Lemma str_eqb_eq (a b : pystr) : str_eqb a b = true <-> a = b.
Proof.
  split.
  - revert b; induction a as [|x a IH]; intros [|y b] H; simpl in H;
      try discriminate; [reflexivity|].
    apply andb_true_iff in H as [Hx Hab].
    apply N.eqb_eq in Hx. apply IH in Hab. now subst.
  - intros ->. apply str_eqb_refl.
Qed.

Lemma hkey_eqb_refl (k : hkey) : hkey_eqb k k = true.
Proof.
  destruct k; simpl; [reflexivity | apply Z.eqb_refl | apply str_eqb_refl].
Qed.

Lemma hkey_eqb_eq (a b : hkey) : hkey_eqb a b = true <-> a = b.
Proof.
  split.
  - destruct a, b; simpl; intros H; try discriminate; [reflexivity| |].
    + apply Z.eqb_eq in H. now subst.
    + apply str_eqb_eq in H. now subst.
  - intros ->. apply hkey_eqb_refl.
Qed.

Lemma hkey_eqb_sym (a b : hkey) : hkey_eqb a b = hkey_eqb b a.
Proof.
  destruct (hkey_eqb a b) eqn:E.
  - apply hkey_eqb_eq in E. subst. symmetry. apply hkey_eqb_refl.
  - destruct (hkey_eqb b a) eqn:E'; [|reflexivity].
    apply hkey_eqb_eq in E'. subst. now rewrite hkey_eqb_refl in E.
Qed.

Lemma hkey_eqb_neq (a b : hkey) : hkey_eqb a b = false <-> a <> b.
Proof.
  split.
  - intros H ->. now rewrite hkey_eqb_refl in H.
  - intros H. destruct (hkey_eqb a b) eqn:E; [|reflexivity].
    now apply hkey_eqb_eq in E.
Qed.

(** The ASCII digits are decimal digits with their usual value. *)
Lemma decimal_value_ascii (d : N) :
  (d < 10)%N -> decimal_value (48 + d) = Some d.
Proof.
  intros H. unfold decimal_value, decimal_zeros. cbn [find].
  replace (N.leb 48 (48 + d) && N.ltb (48 + d) (48 + 10)) with true.
  - f_equal. lia.
  - symmetry. apply andb_true_iff. split.
    + apply N.leb_le. lia.
    + apply N.ltb_lt. lia.
Qed.

Lemma isdigit_char_ascii (d : N) : (d < 10)%N -> isdigit_char (48 + d) = true.
Proof.
  intros H. unfold isdigit_char, isdecimal_char.
  now rewrite decimal_value_ascii.
Qed.

Lemma digits_aux_S (fuel : nat) (n : N) (acc : pystr) :
  digits_aux (S fuel) n acc
  = if N.eqb (n / 10) 0 then (48 + n mod 10)%N :: acc
    else digits_aux fuel (n / 10)%N ((48 + n mod 10)%N :: acc).
Proof. reflexivity. Qed.

(** What [digits_aux] conses onto [acc] reads back as [n]. *)
Lemma int_digits_digits_aux (fuel : nat) :
  forall (n : N) (acc : pystr) (a : Z),
    (n < 2 ^ N.of_nat fuel)%N ->
    exists k : Z,
      int_digits a (digits_aux (S fuel) n acc)
      = int_digits (a * k + Z.of_N n) acc.
Proof.
  induction fuel as [|f IH]; intros n acc a Hn.
  - (* n = 0 *)
    simpl in Hn. assert (n = 0%N) by lia. subst n.
    exists 10%Z. reflexivity.
  - rewrite digits_aux_S.
    destruct (N.eqb (n / 10) 0) eqn:E.
    + apply N.eqb_eq in E.
      assert (Hlt : (n < 10)%N).
      { destruct (N.lt_ge_cases n 10) as [|Hge]; [assumption|].
        assert (1 <= n / 10)%N by (apply N.div_le_lower_bound; lia). lia. }
      exists 10%Z. rewrite N.mod_small by assumption.
      cbn [int_digits]. now rewrite decimal_value_ascii by assumption.
    + assert (Hq : (n / 10 < 2 ^ N.of_nat f)%N).
      { apply N.Div0.div_lt_upper_bound.
        rewrite Nat2N.inj_succ, N.pow_succ_r' in Hn. lia. }
      destruct (IH (n / 10)%N ((48 + n mod 10)%N :: acc) a Hq) as [k Hk].
      exists (k * 10)%Z. rewrite Hk. cbn [int_digits].
      rewrite decimal_value_ascii by (apply N.mod_lt; lia).
      f_equal.
      pose proof (N.div_mod n 10 ltac:(lia)) as Hdm.
      apply (f_equal Z.of_N) in Hdm.
      rewrite N2Z.inj_add, N2Z.inj_mul in Hdm. simpl (Z.of_N 10) in Hdm.
      rewrite Hdm. ring.
Qed.

Lemma size_nat_bound (n : N) : (n < 2 ^ N.of_nat (N.size_nat n))%N.
Proof.
  destruct n as [|p]; [simpl; lia|].
  cbn [N.size_nat].
  induction p as [p IH|p IH|]; cbn [Pos.size_nat].
  - rewrite Nat2N.inj_succ, N.pow_succ_r'. lia.
  - rewrite Nat2N.inj_succ, N.pow_succ_r'. lia.
  - simpl. lia.
Qed.

Lemma digits_aux_nonempty (fuel : nat) (n : N) (acc : pystr) :
  digits_aux (S fuel) n acc <> [].
Proof.
  revert n acc. induction fuel as [|f IH]; intros n acc.
  - rewrite digits_aux_S. destruct (N.eqb (n / 10) 0); discriminate.
  - rewrite digits_aux_S.
    destruct (N.eqb (n / 10) 0); [discriminate | apply IH].
Qed.

Lemma digits_aux_isdigit (fuel : nat) :
  forall (n : N) (acc : pystr),
    forallb isdigit_char acc = true ->
    forallb isdigit_char (digits_aux fuel n acc) = true.
Proof.
  induction fuel as [|f IH]; intros n acc Hacc; [exact Hacc|].
  rewrite digits_aux_S.
  assert (H : forallb isdigit_char ((48 + n mod 10)%N :: acc) = true).
  { cbn [forallb]. rewrite isdigit_char_ascii by (apply N.mod_lt; lia).
    exact Hacc. }
  destruct (N.eqb (n / 10) 0); [exact H | now apply IH].
Qed.

(** [str(n).isdigit()] for [n >= 0]. *)
Lemma isdigit_str_of_N (n : N) : isdigit (str_of_N n) = true.
Proof.
  unfold isdigit, str_of_N.
  pose proof (digits_aux_nonempty (N.size_nat n) n []) as Hne.
  destruct (digits_aux (S (N.size_nat n)) n []) eqn:E; [congruence|].
  rewrite <- E. now apply digits_aux_isdigit.
Qed.

(** [int(str(n)) == n] for [n >= 0]. *)
Lemma py_int_str_of_N (n : N) : py_int (str_of_N n) = Ok (Z.of_N n).
Proof.
  unfold py_int, str_of_N.
  pose proof (digits_aux_nonempty (N.size_nat n) n []) as Hne.
  destruct (digits_aux (S (N.size_nat n)) n []) eqn:E; [congruence|].
  rewrite <- E.
  destruct (@int_digits_digits_aux (N.size_nat n) n [] 0%Z
              (size_nat_bound n)) as [k Hk].
  rewrite Hk. simpl. reflexivity.
Qed.

(** A string of decimal digits never makes [int] raise. *)
Lemma int_digits_decimal (s : pystr) :
  forall a, forallb isdecimal_char s = true -> exists z, int_digits a s = Ok z.
Proof.
  induction s as [|c s IH]; intros a H; [now exists a|].
  cbn [forallb] in H. apply andb_true_iff in H as [Hc Hs].
  cbn [int_digits]. unfold isdecimal_char in Hc.
  destruct (decimal_value c); [|discriminate]. now apply IH.
Qed.

End PyFacts.

(* ================================================================== *)
(** ** Amount parsing (line 202) *)

Section Amounts.

Lemma raw_int_not_str (amt : json) :
  (forall s, amt <> JStr s) -> raw_int amt = Ok 0%Z.
Proof.
  intros H. destruct amt; try reflexivity. now destruct (H s).
Qed.

Lemma raw_int_numeric (amt : json) (n : Z) :
  as_num amt = Some n -> raw_int amt = Ok 0%Z.
Proof. destruct amt; simpl; intros H; try discriminate; reflexivity. Qed.

Lemma raw_int_not_digit (s : pystr) :
  isdigit s = false -> raw_int (JStr s) = Ok 0%Z.
Proof. intros H. simpl. now rewrite H. Qed.

(** Decimal digits only: the guard passes and [int] succeeds. *)
Lemma raw_int_decimal (s : pystr) :
  isdecimal s = true -> exists z, raw_int (JStr s) = Ok z.
Proof.
  intros H. simpl. destruct (isdigit s); [|now exists 0%Z].
  unfold isdecimal in H. unfold py_int.
  destruct s as [|c s]; [discriminate|]. now apply int_digits_decimal.
Qed.

Lemma int_digits_not_decimal (s : pystr) :
  forall a, forallb isdecimal_char s = false -> int_digits a s = Raise ValueError.
Proof.
  induction s as [|c s IH]; intros a H; [discriminate|].
  cbn [forallb] in H. cbn [int_digits]. unfold isdecimal_char in H.
  destruct (decimal_value c); [|reflexivity].
  simpl in H. now apply IH.
Qed.

(** The guard of line 202 lets through exactly one kind of string on which
    [int] raises: digits that are not all decimal. *)
Lemma raw_int_raises (s : pystr) :
  isdigit s = true -> isdecimal s = false ->
  raw_int (JStr s) = Raise ValueError.
Proof.
  intros Hd Hn. simpl. rewrite Hd. unfold py_int, isdecimal in *.
  destruct s as [|c s]; [reflexivity|]. now apply int_digits_not_decimal.
Qed.

(** [str(v)] of a non-negative integer passes the guard and reads back. *)
Lemma raw_int_str_of_Z (v : Z) :
  (0 <= v)%Z -> raw_int (JStr (str_of_Z v)) = Ok v.
Proof.
  intros Hv. unfold str_of_Z.
  destruct (Z.ltb v 0) eqn:E; [apply Z.ltb_lt in E; lia|].
  simpl. rewrite isdigit_str_of_N, py_int_str_of_N.
  now rewrite Z2N.id.
Qed.

(** [str(v)] of a negative integer starts with a minus sign and fails the
    guard. *)
Lemma raw_int_str_of_Z_neg (v : Z) :
  (v < 0)%Z -> raw_int (JStr (str_of_Z v)) = Ok 0%Z.
Proof.
  intros Hv. unfold str_of_Z.
  destruct (Z.ltb v 0) eqn:E; [|apply Z.ltb_ge in E; lia].
  reflexivity.
Qed.

(** C4. The amounts the spec lists behave as it says: ["12345"] adds 12345
    and ["1.5"], ["abc"], [None] and ["-5"] add 0. The claim that no amount
    makes line 202 raise fails: a string of digits that are not decimal
    digits, such as the superscript two (U+00B2), passes [isdigit] and then
    [int] raises [ValueError]. *)
Theorem raw_int_digit_guard :
  raw_int (JStr (lit "12345")) = Ok 12345%Z
  /\ raw_int (JStr (lit "1.5")) = Ok 0%Z
  /\ raw_int (JStr (lit "abc")) = Ok 0%Z
  /\ raw_int JNull = Ok 0%Z
  /\ raw_int (JStr (lit "-5")) = Ok 0%Z
  /\ isdigit [178%N] = true
  /\ isdecimal [178%N] = false
  /\ raw_int (JStr [178%N]) = Raise ValueError.
Proof. repeat split; reflexivity. Qed.

(** The same failure seen from the reducer: one swap output whose amount is
    the superscript two stops the fold. *)
Lemma agg_step_superscript_raises :
  agg_step [] {| o_wallet := JStr (lit "W"); o_amt := JStr [178%N];
                 o_dec := JInt 6; o_sig := JStr (lit "s1");
                 o_ts := JInt 1200 |}
  = Raise ValueError.
Proof. reflexivity. Qed.

(** C10, as it holds. A swap output hands its [tokenAmount] over as it is,
    so a number there adds 0; a token transfer hands over [str] of its
    [tokenAmount], so an integer [v >= 0] there adds [v]. *)
Theorem amount_asymmetry
    (mint : pystr) (fee_payer sig ts o r a t : json) (n v : Z)
    (ob ob' : obs) :
  get o (lit "rawTokenAmount") = Ok r ->
  get (or_dict r) (lit "tokenAmount") = Ok a ->
  as_num a = Some n ->
  swap_obs mint fee_payer sig ts o = Ok (Some ob) ->
  get t (lit "tokenAmount") = Ok (JInt v) ->
  (0 <= v)%Z ->
  transfer_obs mint fee_payer sig ts t = Ok (Some ob') ->
  o_amt ob = a /\ raw_int (o_amt ob) = Ok 0%Z
  /\ o_amt ob' = JStr (str_of_Z v) /\ raw_int (o_amt ob') = Ok v.
Proof.
  intros Hr Ha Hn Hs Ht Hv Htr.
  assert (Hob : o_amt ob = a).
  { unfold swap_obs in Hs. destruct o; try discriminate.
    simpl in Hs, Hr.
    destruct (negb _) in Hs; [discriminate|].
    injection Hr as Hr. rewrite Hr in Hs.
    destruct (or_dict r); try discriminate. simpl in Hs, Ha.
    injection Ha as Ha. rewrite Ha in Hs.
    destruct (truthy _) in Hs; [|discriminate].
    injection Hs as <-. reflexivity. }
  assert (Hob' : o_amt ob' = JStr (str_of_Z v)).
  { unfold transfer_obs in Htr. destruct t; try discriminate.
    simpl in Htr, Ht.
    destruct (negb _) in Htr; [discriminate|].
    injection Ht as Ht. rewrite Ht in Htr.
    destruct (truthy _) in Htr; [|discriminate].
    simpl in Htr. injection Htr as <-. reflexivity. }
  repeat split; try assumption.
  - rewrite Hob. eapply raw_int_numeric; eassumption.
  - rewrite Hob'. now apply raw_int_str_of_Z.
Qed.


Lemma amount_asymmetry_witness :
  o_amt (Sample.observation "W" (JInt 100) "s1" 1200) = JInt 100
  /\ raw_int (o_amt (Sample.observation "W" (JInt 100) "s1" 1200)) = Ok 0%Z
  /\ o_amt (Sample.observation "W" (JStr (lit "100")) "s1" 1200)
     = JStr (str_of_Z 100)
  /\ raw_int (o_amt (Sample.observation "W" (JStr (lit "100")) "s1" 1200))
     = Ok 100%Z.
Proof.
  apply (@amount_asymmetry Sample.mint JNull (JStr (lit "s1")) (JInt 1200)
           (Sample.swap_output (JStr (lit "W")) (JInt 100))
           (JObj [(lit "tokenAmount", JInt 100); (lit "decimals", JInt 6)])
           (JInt 100)
           (Sample.transfer (JStr (lit "W")) (JInt 100))
           100%Z 100%Z);
    try reflexivity; lia.
Defined.

(** C10 as stated fails for a negative integer: the transfer tier turns
    [-5] into ["-5"], which is not all digits, and the amount adds 0. *)
Lemma transfer_negative_amount_adds_zero :
  exists ob,
    get (Sample.transfer (JStr (lit "W")) (JInt (-5))) (lit "tokenAmount")
    = Ok (JInt (-5))
    /\ transfer_obs Sample.mint JNull (JStr (lit "s1")) (JInt 1200)
         (Sample.transfer (JStr (lit "W")) (JInt (-5))) = Ok (Some ob)
    /\ raw_int (o_amt ob) = Ok 0%Z
    /\ raw_int (o_amt ob) <> Ok (-5)%Z.
Proof.
  eexists. split; [reflexivity|]. split; [reflexivity|].
  split; [reflexivity | discriminate].
Qed.

End Amounts.

(* ================================================================== *)
(** ** Buyer extraction *)

Section Extraction.

Lemma assoc_set_item_ne (k k' : pystr) (v : json) (kv : list (pystr * json)) :
  str_eqb k k' = false -> assoc k (set_item k' v kv) = assoc k kv.
Proof.
  intros Hne. induction kv as [|[k1 v1] kv IH]; simpl.
  - now rewrite Hne.
  - destruct (str_eqb k' k1) eqn:E1; simpl.
    + apply str_eqb_eq in E1. subst k1. now rewrite Hne.
    + destruct (str_eqb k k1); [reflexivity | exact IH].
Qed.

Lemma assoc_set_item_eq (k : pystr) (v : json) (kv : list (pystr * json)) :
  assoc k (set_item k v kv) = Some v.
Proof.
  induction kv as [|[k1 v1] kv IH]; simpl.
  - now rewrite str_eqb_refl.
  - destruct (str_eqb k k1) eqn:E1; simpl; rewrite E1; [reflexivity | exact IH].
Qed.

Lemma get_field (k : pystr) (kv : list (pystr * json)) :
  get (JObj kv) k = Ok (field k kv).
Proof. reflexivity. Qed.

Lemma field_set_item_ne (k k' : pystr) (v : json) (kv : list (pystr * json)) :
  str_eqb k k' = false -> field k (set_item k' v kv) = field k kv.
Proof. intros H. unfold field. now rewrite assoc_set_item_ne. Qed.

(** The swap tier only ever appends to what it was given. *)
Lemma swap_tier_grows (mint : pystr) (fee_payer sig ts : json)
    (outputs : list json) :
  forall out res,
    swap_tier mint fee_payer sig ts outputs out = Ok res ->
    exists more,
      res = out ++ more
      /\ (forall ob, In ob more ->
            exists o, In o outputs
                      /\ swap_obs mint fee_payer sig ts o = Ok (Some ob))
      /\ (forall o ob, In o outputs ->
            swap_obs mint fee_payer sig ts o = Ok (Some ob) -> In ob more).
Proof.
  induction outputs as [|o rest IH]; intros out res H; simpl in H.
  - injection H as <-. exists []. rewrite app_nil_r.
    repeat split; intros; contradiction.
  - destruct (swap_obs mint fee_payer sig ts o) as [r|] eqn:Eo; [|discriminate].
    simpl in H. apply IH in H as (more & -> & Hfrom & Hto).
    destruct r as [ob0|].
    + exists (ob0 :: more). rewrite <- app_assoc. split; [reflexivity|]. split.
      * intros ob [<-|Hin].
        -- exists o. split; [now left | assumption].
        -- destruct (Hfrom ob Hin) as (o' & Ho' & Hs). exists o'.
           split; [now right | assumption].
      * intros o' ob [<-|Hin] Hs.
        -- rewrite Eo in Hs. injection Hs as <-. now left.
        -- right. eapply Hto; eassumption.
    + exists more. split; [reflexivity|]. split.
      * intros ob Hin. destruct (Hfrom ob Hin) as (o' & Ho' & Hs). exists o'.
        split; [now right | assumption].
      * intros o' ob [<-|Hin] Hs.
        -- rewrite Eo in Hs. discriminate.
        -- eapply Hto; eassumption.
Qed.

(** [extract_buyers_from_parsed_tx] on a dict, with the three field reads
    done. *)
Lemma extract_dict (kv : list (pystr * json)) (mint : pystr) :
  extract_buyers_from_parsed_tx (JObj kv) mint
  = (outputs <- swap_outputs (JObj kv) ;;
     out <- swap_tier mint (field (lit "feePayer") kv)
              (field (lit "signature") kv) (field (lit "timestamp") kv)
              outputs [] ;;
     match out with
     | [] =>
         transfers <- iter (or_list (field (lit "tokenTransfers") kv)) ;;
         transfer_tier mint (field (lit "feePayer") kv)
           (field (lit "signature") kv) (field (lit "timestamp") kv)
           transfers []
     | _ => Ok out
     end).
Proof. reflexivity. Qed.

Lemma swap_outputs_dict (kv : list (pystr * json)) :
  swap_outputs (JObj kv)
  = (let ev := field (lit "events") kv in
     sw <- get (or_dict ev) (lit "swap") ;;
     tos <- get (or_dict sw) (lit "tokenOutputs") ;;
     outputs <- iter (or_list tos) ;;
     inn <- get (or_dict sw) (lit "innerSwaps") ;;
     inner <- iter (or_list inn) ;;
     add_inner_outputs inner outputs).
Proof. reflexivity. Qed.

(** [(v or {}).get(k)] for a field [v] that is an object or missing. *)
Lemma get_or_dict (a b : pystr) (kv : list (pystr * json)) :
  dict_or_none (field a kv) = true ->
  get (or_dict (field a kv)) b = Ok (nested a b (JObj kv)).
Proof.
  unfold nested. destruct (field a kv) as [| | | | |kv'|]; try discriminate.
  - reflexivity.
  - intros _. now destruct kv'.
Qed.

(** [(v or {}).get(k)], whenever it does not raise. *)
Lemma get_or_dict_inv (a b : pystr) (kv : list (pystr * json)) (v : json) :
  get (or_dict (field a kv)) b = Ok v -> v = nested a b (JObj kv).
Proof.
  unfold nested, or_dict, py_or.
  destruct (field a kv) as [|c|z|s|l|kv'|f]; cbn [truthy].
  - cbn. now intros [= <-].
  - destruct c; cbn; [discriminate | now intros [= <-]].
  - destruct (Z.eqb z 0); cbn; [now intros [= <-] | discriminate].
  - destruct s; cbn; [now intros [= <-] | discriminate].
  - destruct l; cbn; [now intros [= <-] | discriminate].
  - destruct kv'; cbn; now intros [= <-].
  - destruct f; cbn; try discriminate. now intros [= <-].
Qed.

(** [for x in (v or [])] for a field [v] that is a list or missing. *)
Lemma iter_or_list (v : json) :
  list_or_none v = true ->
  iter (or_list v) = Ok (match v with JArr l => l | _ => [] end).
Proof.
  destruct v as [| | | |l| |]; try discriminate; intros _; [reflexivity|].
  now destruct l.
Qed.

Lemma leg_outputs_shaped (leg : json) :
  leg_shaped leg = true ->
  (tos <- get leg (lit "tokenOutputs") ;; iter (or_list tos))
  = Ok (leg_outputs leg).
Proof.
  destruct leg as [| | | | |kv|]; try discriminate. cbn [leg_shaped].
  intros H. rewrite get_field. cbn [bind]. now rewrite (iter_or_list _ H).
Qed.

(** Every inner swap adds its outputs, in order. *)
Lemma add_inner_outputs_shaped (legs : list json) :
  forallb leg_shaped legs = true ->
  forall outputs,
    add_inner_outputs legs outputs
    = Ok (outputs ++ flat_map leg_outputs legs).
Proof.
  induction legs as [|leg legs IH]; intros H outputs.
  - simpl. now rewrite app_nil_r.
  - cbn [forallb] in H. apply andb_prop in H as [Hleg Hlegs].
    cbn [add_inner_outputs flat_map].
    pose proof (leg_outputs_shaped _ Hleg) as Hl.
    destruct (get leg (lit "tokenOutputs")) as [tos|]; [|discriminate].
    cbn [bind] in *. rewrite Hl. cbn [bind].
    rewrite (IH Hlegs). now rewrite <- app_assoc.
Qed.

(** Lines 115-118 collect the direct outputs of the swap event and then the
    outputs of its inner swaps. *)
Lemma swap_outputs_shaped (kv : list (pystr * json)) :
  swap_event_shaped kv = true ->
  swap_outputs (JObj kv) = Ok (swap_event_outputs kv).
Proof.
  unfold swap_event_shaped. intros H. apply andb_prop in H as [Hev Hsw].
  rewrite swap_outputs_dict. cbv zeta.
  rewrite (get_or_dict _ _ _ Hev). cbn [bind].
  unfold swap_event_outputs, inner_swaps. fold (swap_event kv).
  destruct (swap_event kv) as [| | | | |sw|]; try discriminate.
  - reflexivity.
  - apply andb_prop in Hsw as [Hto Hin].
    replace (or_dict (JObj sw)) with (JObj sw) by now destruct sw.
    rewrite !get_field. cbn [bind].
    rewrite (iter_or_list _ Hto). cbn [bind leg_outputs].
    destruct (field (lit "innerSwaps") sw) as [| | | |legs| |];
      try discriminate.
    + cbn [or_list py_or truthy iter bind add_inner_outputs flat_map].
      now rewrite app_nil_r.
    + replace (or_list (JArr legs)) with (JArr legs) by now destruct legs.
      cbn [iter bind]. now rewrite (add_inner_outputs_shaped _ Hin).
Qed.

(** A matching output with a buyer yields its tuple. *)
Lemma swap_obs_matching (mint : pystr) (kv : list (pystr * json)) (o : json) :
  matching_output mint (field (lit "feePayer") kv) o = true ->
  swap_obs mint (field (lit "feePayer") kv) (field (lit "signature") kv)
    (field (lit "timestamp") kv) o
  = Ok (Some (swap_observation kv o)).
Proof.
  destruct o as [| | | | |okv|]; try discriminate. cbn [matching_output].
  intros H. apply andb_prop in H as [H Hraw]. apply andb_prop in H as [Hm Hb].
  cbn [for_mint] in Hm. unfold swap_obs. rewrite !get_field. cbn [bind]. rewrite Hm. cbn [negb].
  rewrite !(get_or_dict _ _ _ Hraw). cbn [bind].
  cbn [buyer_of] in Hb. rewrite Hb. reflexivity.
Qed.

(** A tuple of the swap tier is the tuple of an output that names the mint
    and has a buyer. *)
Lemma swap_obs_is_observation (mint : pystr) (kv : list (pystr * json)) (o : json)
    (ob : obs) :
  swap_obs mint (field (lit "feePayer") kv) (field (lit "signature") kv)
    (field (lit "timestamp") kv) o
  = Ok (Some ob) ->
  ob = swap_observation kv o
  /\ for_mint mint o = true
  /\ truthy (buyer_of (field (lit "feePayer") kv) o) = true.
Proof.
  destruct o as [| | | | |okv|]; try discriminate.
  unfold swap_obs. rewrite !get_field. cbn [bind for_mint].
  destruct (eq_str (field (lit "mint") okv) mint) eqn:Em; [|discriminate].
  cbn [negb].
  destruct (get (or_dict (field (lit "rawTokenAmount") okv))
              (lit "tokenAmount")) as [amt|] eqn:Ea; [|discriminate].
  cbn [bind].
  destruct (get (or_dict (field (lit "rawTokenAmount") okv))
              (lit "decimals")) as [dec|] eqn:Ed; [|discriminate].
  cbn [bind].
  apply get_or_dict_inv in Ea, Ed. subst amt dec.
  cbn [buyer_of].
  destruct (truthy _) eqn:Eb; [|discriminate].
  intros [= <-]. repeat split.
Qed.

(** Once the outputs collected from the swap event hold one that yields a
    tuple, the swap tier decides: the extractor returns what it returns, and
    the same whatever [tokenTransfers] holds. *)
Lemma swap_tier_decides
    (mint : pystr) (kv : list (pystr * json)) (outputs : list json)
    (o : json) (ob : obs) :
  swap_outputs (JObj kv) = Ok outputs ->
  In o outputs ->
  swap_obs mint (field (lit "feePayer") kv) (field (lit "signature") kv)
    (field (lit "timestamp") kv) o = Ok (Some ob) ->
  extract_buyers_from_parsed_tx (JObj kv) mint
  = swap_tier mint (field (lit "feePayer") kv) (field (lit "signature") kv)
      (field (lit "timestamp") kv) outputs []
  /\ (forall res,
        extract_buyers_from_parsed_tx (JObj kv) mint = Ok res ->
        In ob res
        /\ forall ob', In ob' res ->
             exists o', In o' outputs
                        /\ swap_obs mint (field (lit "feePayer") kv)
                             (field (lit "signature") kv)
                             (field (lit "timestamp") kv) o' = Ok (Some ob'))
  /\ (forall v,
        extract_buyers_from_parsed_tx
          (JObj (set_item (lit "tokenTransfers") v kv)) mint
        = extract_buyers_from_parsed_tx (JObj kv) mint).
Proof.
  intros Houts Hin Hob.
  assert (Hmain : extract_buyers_from_parsed_tx (JObj kv) mint
                  = swap_tier mint (field (lit "feePayer") kv)
                      (field (lit "signature") kv)
                      (field (lit "timestamp") kv) outputs []).
  { rewrite extract_dict, Houts. cbn [bind].
    destruct (swap_tier _ _ _ _ outputs []) as [res|s] eqn:Et; [|reflexivity].
    cbn [bind].
    destruct (swap_tier_grows _ _ _ _ _ _ Et) as (more & -> & _ & Hto).
    pose proof (Hto _ _ Hin Hob) as Hmem. simpl in *.
    destruct more; [contradiction | reflexivity]. }
  split; [exact Hmain|]. split.
  - intros res Hres. rewrite Hmain in Hres.
    destruct (swap_tier_grows _ _ _ _ _ _ Hres) as (more & -> & Hfrom & Hto).
    simpl. split; [eapply Hto; eassumption | exact Hfrom].
  - intros v. rewrite Hmain, extract_dict.
    assert (Hso : swap_outputs (JObj (set_item (lit "tokenTransfers") v kv))
                  = Ok outputs).
    { rewrite <- Houts, !swap_outputs_dict.
      now rewrite field_set_item_ne by reflexivity. }
    rewrite Hso. cbn [bind].
    rewrite !field_set_item_ne by reflexivity.
    destruct (swap_tier _ _ _ _ outputs []) as [res|s] eqn:Et; [|reflexivity].
    cbn [bind].
    destruct (swap_tier_grows _ _ _ _ _ _ Et) as (more & -> & _ & Hto).
    pose proof (Hto _ _ Hin Hob) as Hmem. simpl in *.
    destruct more; [contradiction | reflexivity].
Qed.

(** C3. Take a parsed transaction whose swap event has, among its direct
    token outputs or among the token outputs of one of its inner swaps, an
    output for the mint with a resolvable buyer. Then the extractor returns
    what the swap tier returns on the outputs of the swap event; the tuple
    of that output is in the result, and every tuple of the result is the
    tuple of a swap-event output for the mint that has a buyer; and the
    result is the same whatever [tokenTransfers] holds: the flat list is not
    consulted. *)
Theorem swap_tier_wins
    (mint : pystr) (kv : list (pystr * json)) (o : json) :
  swap_event_shaped kv = true ->
  In o (leg_outputs (swap_event kv))
  \/ (exists leg, In leg (inner_swaps kv) /\ In o (leg_outputs leg)) ->
  matching_output mint (field (lit "feePayer") kv) o = true ->
  extract_buyers_from_parsed_tx (JObj kv) mint
  = swap_tier mint (field (lit "feePayer") kv) (field (lit "signature") kv)
      (field (lit "timestamp") kv) (swap_event_outputs kv) []
  /\ (forall res,
        extract_buyers_from_parsed_tx (JObj kv) mint = Ok res ->
        In (swap_observation kv o) res
        /\ forall ob, In ob res ->
             exists o',
               In o' (swap_event_outputs kv)
               /\ ob = swap_observation kv o'
               /\ for_mint mint o' = true
               /\ truthy (buyer_of (field (lit "feePayer") kv) o') = true)
  /\ (forall v,
        extract_buyers_from_parsed_tx
          (JObj (set_item (lit "tokenTransfers") v kv)) mint
        = extract_buyers_from_parsed_tx (JObj kv) mint).
Proof.
  intros Hshape Hin Hmatch.
  pose proof (swap_outputs_shaped _ Hshape) as Houts.
  pose proof (swap_obs_matching _ _ _ Hmatch) as Hob.
  assert (Hin' : In o (swap_event_outputs kv)).
  { unfold swap_event_outputs. apply in_or_app.
    destruct Hin as [Hd|(leg & Hleg & Ho)]; [now left|].
    right. apply in_flat_map. now exists leg. }
  destruct (@swap_tier_decides mint kv (swap_event_outputs kv) o
              (swap_observation kv o) Houts Hin' Hob)
    as (Hmain & Hres & Hflat).
  split; [exact Hmain|]. split; [|exact Hflat].
  intros res Hr. destruct (Hres res Hr) as [Hmem Hfrom].
  split; [exact Hmem|].
  intros ob Hobr. destruct (Hfrom ob Hobr) as (o' & Ho' & Hs).
  exists o'. split; [exact Ho'|]. now apply swap_obs_is_observation.
Qed.

End Extraction.

(** A transaction whose swap event has a direct output for another mint and
    an inner swap with an output for the mint, bought by [W]; its flat list
    has a matching transfer to [V]. Only the tuple of the inner output comes
    out. *)
Lemma swap_tier_wins_witness :
  extract_buyers_from_parsed_tx
    (JObj (Sample.tx_inner_items "s1" 1200
             [Sample.foreign_output (JStr (lit "W")) (JStr (lit "9"))]
             [Sample.swap_output (JStr (lit "W")) (JStr (lit "100"))]
             [Sample.transfer (JStr (lit "V")) (JInt 7)])) Sample.mint
  = Ok [Sample.observation "W" (JStr (lit "100")) "s1" 1200].
Proof.
  pose proof (@swap_tier_wins Sample.mint
                (Sample.tx_inner_items "s1" 1200
                   [Sample.foreign_output (JStr (lit "W")) (JStr (lit "9"))]
                   [Sample.swap_output (JStr (lit "W")) (JStr (lit "100"))]
                   [Sample.transfer (JStr (lit "V")) (JInt 7)])
                (Sample.swap_output (JStr (lit "W")) (JStr (lit "100")))
                eq_refl
                (or_intror
                   (ex_intro _
                      (JObj [(lit "tokenOutputs",
                              JArr [Sample.swap_output (JStr (lit "W"))
                                      (JStr (lit "100"))])])
                      (conj (or_introl eq_refl) (or_introl eq_refl))))
                eq_refl) as [H _].
  exact H.
Defined.

(** The same transaction without its inner swap falls through to the flat
    list: the inner outputs are what kept the swap tier from being empty. *)
Lemma without_inner_swap_transfer_counts :
  extract_buyers_from_parsed_tx
    (Sample.tx "s1" 1200
       [Sample.foreign_output (JStr (lit "W")) (JStr (lit "9"))]
       [Sample.transfer (JStr (lit "V")) (JInt 7)]) Sample.mint
  = Ok [Sample.observation "V" (JStr (lit "7")) "s1" 1200].
Proof. reflexivity. Qed.
(* ================================================================== *)
(** ** Pool discovery *)

Section Ranks.

Ltac by_cases :=
  simpl in *; try congruence;
  rewrite ?Z.ltb_lt, ?Z.ltb_ge, ?Z.eqb_eq in *; try lia.

Lemma ext_ltb_irrefl (a : extended) : ext_ltb a a = false.
Proof. destruct a; by_cases. Qed.

Lemma ext_ltb_asym (a b : extended) :
  ext_ltb a b = true -> ext_ltb b a = false.
Proof. destruct a, b; by_cases. Qed.

(** [a >= b] and [b >= c] give [a >= c]. *)
Lemma ext_nlt_trans (a b c : extended) :
  ext_ltb a b = false -> ext_ltb b c = false -> ext_ltb a c = false.
Proof. destruct a, b, c; by_cases. Qed.

Lemma ext_eqb_nlt (a b c : extended) :
  ext_eqb a c = true -> ext_eqb b c = true -> ext_ltb a b = false.
Proof. destruct a, b, c; by_cases. Qed.

Lemma num_ltb_nan (a b : number) : is_nan a = true -> num_ltb a b = false.
Proof. unfold is_nan, num_ltb. now destruct (rank a). Qed.

Lemma num_ltb_leb (a b : number) : num_ltb a b = true -> num_leb a b = true.
Proof.
  unfold num_ltb, num_leb.
  destruct (rank a), (rank b); try discriminate.
  intros H. now rewrite (ext_ltb_asym _ _ H).
Qed.

Lemma num_nlt_leb (a b : number) :
  is_nan a = false -> is_nan b = false ->
  num_ltb a b = false -> num_leb b a = true.
Proof.
  unfold is_nan, num_ltb, num_leb.
  destruct (rank a), (rank b); try discriminate. now intros _ _ ->.
Qed.

Lemma num_leb_nlt (a b : number) : num_leb a b = true -> num_ltb b a = false.
Proof.
  unfold num_ltb, num_leb.
  destruct (rank a), (rank b); try discriminate.
  now destruct (ext_ltb e0 e).
Qed.

Lemma num_leb_trans (a b c : number) :
  num_leb a b = true -> num_leb b c = true -> num_leb a c = true.
Proof.
  unfold num_leb.
  destruct (rank a), (rank b), (rank c); try discriminate.
  intros H1 H2.
  destruct (ext_ltb e0 e) eqn:E1; [discriminate|].
  destruct (ext_ltb e1 e0) eqn:E2; [discriminate|].
  now rewrite (ext_nlt_trans _ _ _ E2 E1).
Qed.

(** The exact value of an int is its own order. *)
Lemma num_ltb_int (x y : Z) : num_ltb (PyInt x) (PyInt y) = Z.ltb x y.
Proof.
  unfold num_ltb, rank, ext_ltb.
  assert (H : (0 < 2 ^ 1074)%Z) by (apply Z.pow_pos_nonneg; lia).
  destruct (Z.ltb x y) eqn:E.
  - apply Z.ltb_lt in E. apply Z.ltb_lt. nia.
  - apply Z.ltb_ge in E. apply Z.ltb_ge. nia.
Qed.

End Ranks.

Section Sorting.

Context {A : Type}.

Lemma in_firstn (B : Type) (n : nat) (l : list B) (x : B) :
  In x (firstn n l) -> In x l.
Proof.
  intros H. rewrite <- (firstn_skipn n l). apply in_or_app. now left.
Qed.

Lemma insert_desc_perm (x : number * A) (l : list (number * A)) :
  Permutation (insert_desc x l) (x :: l).
Proof.
  induction l as [|y l IH]; simpl; [reflexivity|].
  destruct (num_ltb (fst x) (fst y)); [|reflexivity].
  rewrite IH. apply perm_swap.
Qed.

Lemma sort_desc_perm (l : list (number * A)) : Permutation (sort_desc l) l.
Proof.
  induction l as [|x l IH]; simpl; [reflexivity|].
  rewrite insert_desc_perm. now constructor.
Qed.

(** Whichever way [sorted] went, it rearranged its input. *)
Lemma sorted_desc_perm (l res : list (number * A)) :
  sorted_desc l = Ok res -> Permutation res l.
Proof.
  unfold sorted_desc.
  destruct (forallb _ l).
  - intros H. injection H as <-. apply sort_desc_perm.
  - destruct (no_ascent l); [|discriminate].
    intros H. injection H as <-. reflexivity.
Qed.

Lemma sorted_desc_real (l : list (number * A)) :
  Forall real_key l -> sorted_desc l = Ok (sort_desc l).
Proof.
  intros H. unfold sorted_desc.
  replace (forallb (fun kp => negb (is_nan (fst kp))) l) with true;
    [reflexivity|].
  symmetry. apply forallb_forall. rewrite Forall_forall in H.
  intros kp Hkp. unfold real_key in H. now rewrite (H kp Hkp).
Qed.

Lemma insert_desc_sorted (x : number * A) (l : list (number * A)) :
  real_key x -> Forall real_key l ->
  StronglySorted key_ge l -> StronglySorted key_ge (insert_desc x l).
Proof.
  intros Hx. induction l as [|y l IH]; intros Hr Hs; simpl.
  - constructor; constructor.
  - inversion Hs as [|? ? Hl Hy]; subst.
    inversion Hr as [|? ? Hry Hrl]; subst.
    destruct (num_ltb (fst x) (fst y)) eqn:E.
    + constructor; [now apply IH|].
      eapply Permutation_Forall;
        [symmetry; apply insert_desc_perm|].
      constructor; [|assumption].
      unfold key_ge. now apply num_ltb_leb.
    + assert (Hyx : key_ge x y).
      { unfold key_ge. now apply num_nlt_leb. }
      constructor; [assumption|].
      constructor; [exact Hyx|].
      eapply Forall_impl; [|exact Hy].
      unfold key_ge. intros z Hz. eapply num_leb_trans; eassumption.
Qed.

Lemma sort_desc_sorted (l : list (number * A)) :
  Forall real_key l -> StronglySorted key_ge (sort_desc l).
Proof.
  induction 1 as [|x l Hx Hl IH]; simpl; [constructor|].
  apply insert_desc_sorted; [assumption| |assumption].
  eapply Permutation_Forall; [symmetry; apply sort_desc_perm | assumption].
Qed.

(** Stability: the elements of any one key come out in the order they
    went in. *)
Lemma insert_desc_stable (k : number) (x : number * A)
    (l : list (number * A)) :
  filter (fun kp => num_eqb (fst kp) k) (insert_desc x l)
  = filter (fun kp => num_eqb (fst kp) k) (x :: l).
Proof.
  induction l as [|y l IH]; [reflexivity|].
  cbn [insert_desc]. destruct (num_ltb (fst x) (fst y)) eqn:E; [|reflexivity].
  cbn [filter] in *. rewrite IH.
  destruct (num_eqb (fst x) k) eqn:Ex, (num_eqb (fst y) k) eqn:Ey;
    try reflexivity.
  exfalso. unfold num_ltb, num_eqb in *.
  destruct (rank (fst x)), (rank (fst y)), (rank k); try discriminate.
  rewrite (ext_eqb_nlt _ _ _ Ex Ey) in E. discriminate.
Qed.

Lemma sort_desc_stable (k : number) (l : list (number * A)) :
  filter (fun kp => num_eqb (fst kp) k) (sort_desc l)
  = filter (fun kp => num_eqb (fst kp) k) l.
Proof.
  induction l as [|x l IH]; [reflexivity|].
  cbn [sort_desc fold_right]. rewrite insert_desc_stable.
  cbn [filter]. fold (sort_desc l). now rewrite IH.
Qed.

Lemma insert_desc_front (x : number * A) (l : list (number * A)) :
  Forall (fun y => num_ltb (fst x) (fst y) = false) l ->
  insert_desc x l = x :: l.
Proof.
  intros H. destruct l as [|y l]; [reflexivity|]. simpl.
  inversion H as [|? ? Hy _]; subst. now rewrite Hy.
Qed.

Lemma Forall_filter (P : number * A -> Prop) (f : number * A -> bool)
    (l : list (number * A)) :
  Forall P l -> Forall P (filter f l).
Proof.
  induction 1 as [|y l Hy Hl IH]; simpl; [constructor|].
  destruct (f y); [now constructor | assumption].
Qed.

(** Filtering a sorted list and inserting commute. *)
Lemma filter_insert_desc (f : number * A -> bool) (x : number * A)
    (l : list (number * A)) :
  StronglySorted key_ge l ->
  filter f (insert_desc x l)
  = if f x then insert_desc x (filter f l) else filter f l.
Proof.
  induction l as [|y l IH]; intros Hs.
  - simpl. now destruct (f x).
  - inversion Hs as [|? ? Hl Hy]; subst. cbn [insert_desc].
    destruct (num_ltb (fst x) (fst y)) eqn:E.
    + cbn [filter]. rewrite (IH Hl).
      destruct (f y), (f x); try reflexivity.
      cbn [insert_desc]. now rewrite E.
    + change (filter f (x :: y :: l))
        with (if f x then x :: filter f (y :: l) else filter f (y :: l)).
      destruct (f x); [|reflexivity].
      symmetry. apply insert_desc_front. apply Forall_filter.
      constructor; [exact E|].
      eapply Forall_impl; [|exact Hy]. unfold key_ge. intros z Hz.
      destruct (is_nan (fst x)) eqn:Ex; [now apply num_ltb_nan|].
      unfold num_ltb, num_leb, is_nan in *.
      destruct (rank (fst x)), (rank (fst y)), (rank (fst z));
        try discriminate.
      destruct (ext_ltb e0 e1) eqn:E1; [discriminate|].
      now apply (ext_nlt_trans _ _ _ E E1).
Qed.

(** Sorting then filtering is filtering then sorting. *)
Lemma filter_sort_desc (f : number * A -> bool) (l : list (number * A)) :
  Forall real_key l ->
  filter f (sort_desc l) = sort_desc (filter f l).
Proof.
  induction 1 as [|x l Hx Hl IH]; [reflexivity|].
  cbn [sort_desc fold_right]. fold (sort_desc l).
  rewrite filter_insert_desc by now apply sort_desc_sorted.
  cbn [filter]. destruct (f x); [|exact IH].
  cbn [sort_desc fold_right]. fold (sort_desc (filter f l)). now rewrite IH.
Qed.

End Sorting.

Section Discovery.

Variable mint : pystr.

(** [v or 0] for a figure. *)
Lemma figure_or_zero (v : json) (a : number) :
  figure v = Some a -> to_number (py_or v (JInt 0)) = Some a.
Proof.
  destruct v as [|b|z| | | |f]; try discriminate; cbn.
  - now intros H.
  - destruct b; now intros H.
  - intros H. injection H as <-. unfold py_or. cbn.
    destruct (Z.eqb z 0) eqn:E; [|reflexivity].
    apply Z.eqb_eq in E. now subst z.
  - destruct f; intros H; exact H.
Qed.

(** On a pair object the score of the code is
    [liquidity_usd * 10 + volume_24h_usd]. *)
Lemma score_spec (p : json) (k : number) :
  pair_object p = true -> spec_score p = Some k -> score p = Ok k.
Proof.
  destruct p as [| | | | |kv|]; try discriminate. cbn [pair_object].
  intros Hp Hs.
  apply andb_prop in Hp as [Hp _]. apply andb_prop in Hp as [Hp _].
  apply andb_prop in Hp as [Hl Hv].
  unfold score. rewrite !get_field. cbn [bind].
  rewrite (get_or_dict _ _ _ Hl). cbn [bind].
  rewrite (get_or_dict _ _ _ Hv). cbn [bind].
  unfold spec_score, liquidity_usd, volume_24h_usd in Hs.
  destruct (figure (nested (lit "liquidity") (lit "usd") (JObj kv)))
    as [liq|] eqn:El; [|discriminate].
  destruct (figure (nested (lit "volume") (lit "h24") (JObj kv)))
    as [vol|] eqn:Ev; [|discriminate].
  unfold score_value.
  rewrite (figure_or_zero _ El), (figure_or_zero _ Ev).
  destruct (num_mul liq (PyInt 10)) as [l10|]; [|discriminate]. cbn [bind].
  destruct (num_add l10 vol); [|discriminate]. now injection Hs as <-.
Qed.

(** On a pair object the mint test of the code is the test of the base and
    the quote address. *)
Lemma includes_mint_spec (p : json) :
  pair_object p = true -> includes_mint mint p = Ok (names_mint mint p).
Proof.
  destruct p as [| | | | |kv|]; try discriminate. cbn [pair_object].
  intros Hp.
  apply andb_prop in Hp as [Hp Hq]. apply andb_prop in Hp as [_ Hb].
  unfold includes_mint. rewrite !get_field. cbn [bind].
  rewrite (get_or_dict _ _ _ Hb). cbn [bind].
  rewrite (get_or_dict _ _ _ Hq). reflexivity.
Qed.

Lemma with_keys_score (items : list json) :
  Forall (fun p => pair_object p = true /\ scored p = true) items ->
  with_keys score items = Ok (keyed_by_score items)
  /\ Forall real_key (keyed_by_score items).
Proof.
  induction 1 as [|p l [Hp Hs] _ [IH1 IH2]]; [split; [reflexivity|constructor]|].
  unfold scored in Hs. destruct (spec_score p) as [k|] eqn:Ek; [|discriminate].
  split.
  - simpl. rewrite (score_spec _ Hp Ek). cbn [bind]. rewrite IH1.
    unfold score_of. now rewrite Ek.
  - simpl. constructor; [|exact IH2].
    unfold real_key, score_of. cbn [fst]. rewrite Ek.
    now destruct (is_nan k).
Qed.

Lemma map_snd_keyed (items : list json) :
  map snd (keyed_by_score items) = items.
Proof.
  unfold keyed_by_score. rewrite map_map. simpl. apply map_id.
Qed.

Lemma map_snd_filter (f : json -> bool) (l : list (number * json)) :
  map snd (filter (fun kp => f (snd kp)) l) = filter f (map snd l).
Proof.
  induction l as [|x l IH]; [reflexivity|]. simpl.
  destruct (f (snd x)); simpl; now rewrite IH.
Qed.

(** The [break] of the loop cuts the filtered list at [top_n] elements. *)
Lemma pick_pairs_firstn (top_n : Z) (pairs : list json) :
  (1 <= top_n)%Z ->
  Forall (fun p => pair_object p = true) pairs ->
  forall out,
    (Z.of_nat (length out) < top_n)%Z ->
    pick_pairs mint top_n pairs out
    = Ok (firstn (Z.to_nat top_n) (out ++ filter (names_mint mint) pairs)).
Proof.
  intros Hn Hok. induction Hok as [|p l Hp _ IH]; intros out Hlen.
  - simpl. rewrite app_nil_r, firstn_all2; [reflexivity | lia].
  - cbn [pick_pairs filter]. rewrite (includes_mint_spec _ Hp). cbn [bind].
    set (b := names_mint mint p).
    assert (Hout : out ++ (if b then p :: filter (names_mint mint) l
                           else filter (names_mint mint) l)
                   = (if b then out ++ [p] else out)
                       ++ filter (names_mint mint) l).
    { destruct b; [|reflexivity]. now rewrite <- app_assoc. }
    rewrite Hout.
    assert (Hlen' : (Z.of_nat (length (if b then out ++ [p] else out))
                     <= top_n)%Z).
    { destruct b; [|lia]. rewrite length_app. simpl. lia. }
    destruct (Z.geb (Z.of_nat (length (if b then out ++ [p] else out))) top_n)
      eqn:E.
    + rewrite Z.geb_leb in E. apply Z.leb_le in E.
      rewrite firstn_app.
      replace (Z.to_nat top_n - length (if b then out ++ [p] else out))%nat
        with 0%nat by lia.
      rewrite firstn_all2 by lia. simpl. now rewrite app_nil_r.
    + rewrite Z.geb_leb in E. apply Z.leb_gt in E. apply IH. lia.
Qed.

(** Whatever the data and whatever [top_n], a pair is only ever appended
    after the mint test said yes. *)
Lemma pick_pairs_only_matching (top_n : Z) (pairs : list json) :
  forall out res,
    pick_pairs mint top_n pairs out = Ok res ->
    Forall (fun p => references_mint mint p = true) out ->
    Forall (fun p => references_mint mint p = true) res.
Proof.
  induction pairs as [|p l IH]; intros out res H Hout; cbn [pick_pairs] in H.
  - now injection H as <-.
  - destruct (includes_mint mint p) as [b|] eqn:Eb; [|discriminate].
    cbn [bind] in H.
    assert (Hout' : Forall (fun q => references_mint mint q = true)
                      (if b then out ++ [p] else out)).
    { destruct b; [|assumption]. apply Forall_app. split; [assumption|].
      constructor; [|constructor]. unfold references_mint. now rewrite Eb. }
    destruct (Z.geb _ top_n); [now injection H as <- | now apply (IH _ _ H)].
Qed.

Lemma top_pairs_only_matching (top_n : Z) (data : json) (res : list json) :
  top_pairs mint top_n data = Ok res ->
  Forall (fun p => references_mint mint p = true) res.
Proof.
  unfold top_pairs. intros H.
  destruct (sorted_by_score_desc data) as [pairs|]; [|discriminate].
  cbn [bind] in H. eapply pick_pairs_only_matching; [exact H | constructor].
Qed.

(** C7, amended. For a list of pair objects whose scores
    [liquidity_usd * 10 + volume_24h_usd] (a missing figure counting as 0,
    int or binary64 arithmetic as Python does it) are numbers other than NaN,
    and for [top_n >= 1], pool discovery returns the first [top_n] of the
    pairs whose base or quote token address equals the mint, taken in
    descending order of the score with pairs of equal score in their original
    order; every pair returned names the mint. *)
Theorem top_pairs_ranked (top_n : Z) (items : list json) :
  (1 <= top_n)%Z ->
  Forall (fun p => pair_object p = true /\ scored p = true) items ->
  top_pairs mint top_n (JArr items)
  = Ok (spec_top_pairs mint (Z.to_nat top_n) items)
  /\ (forall w rs,
        replies w = Body (JArr items) :: rs ->
        fst (get_top_pairs_from_dexscreener mint top_n w)
        = Ok (spec_top_pairs mint (Z.to_nat top_n) items))
  /\ Forall (fun p => names_mint mint p = true)
       (spec_top_pairs mint (Z.to_nat top_n) items)
  /\ Permutation (map snd (ranked_pairs mint items))
       (filter (names_mint mint) items)
  /\ StronglySorted key_ge (ranked_pairs mint items)
  /\ (forall k,
        filter (fun kp => num_eqb (fst kp) k) (ranked_pairs mint items)
        = filter (fun kp => num_eqb (fst kp) k)
            (filter (fun kp => names_mint mint (snd kp))
               (keyed_by_score items))).
Proof.
  intros Hn Hok.
  destruct (with_keys_score Hok) as [Hkeys Hreal].
  assert (Htop : top_pairs mint top_n (JArr items)
                 = Ok (spec_top_pairs mint (Z.to_nat top_n) items)).
  { unfold top_pairs, sorted_by_score_desc. cbn [iter bind].
    rewrite Hkeys. cbn [bind]. rewrite (sorted_desc_real Hreal). cbn [bind].
    rewrite pick_pairs_firstn; [|assumption| |simpl; lia].
    - simpl. unfold spec_top_pairs, ranked_pairs.
      now rewrite <- map_snd_filter, filter_sort_desc.
    - eapply Permutation_Forall;
        [|eapply Forall_impl; [|exact Hok]; now intros p [Hp _]].
      rewrite <- (map_snd_keyed items) at 1.
      apply Permutation_map. symmetry. apply sort_desc_perm. }
  split; [exact Htop|]. split; [|split; [|split; [|split]]].
  - intros w rs Hw.
    unfold get_top_pairs_from_dexscreener, mbind, http_get, exchange, lift.
    rewrite Hw. simpl. exact Htop.
  - unfold spec_top_pairs.
    apply Forall_forall. intros p Hp. apply in_firstn in Hp.
    unfold ranked_pairs in Hp.
    apply (Permutation_in _ (Permutation_map snd (sort_desc_perm _))) in Hp.
    rewrite map_snd_filter in Hp. apply filter_In in Hp. tauto.
  - unfold ranked_pairs. rewrite (Permutation_map snd (sort_desc_perm _)).
    now rewrite map_snd_filter, map_snd_keyed.
  - apply sort_desc_sorted. now apply Forall_filter.
  - intros k. apply sort_desc_stable.
Qed.

End Discovery.

(** Four pairs with fractional figures. The highest score belongs to a pair
    that does not name the mint; of the others two tie at 25 and keep their
    order, and the third, which names the mint as its quote token, follows
    with 24.75. *)
Lemma top_pairs_ranked_witness :
  top_pairs Sample.mint 3
    (JArr [TwoPools.pool_f; TwoPools.pool_g; TwoPools.pool_h;
           TwoPools.pool_e])
  = Ok [TwoPools.pool_g; TwoPools.pool_e; TwoPools.pool_f].
Proof.
  refine (proj1 (@top_pairs_ranked Sample.mint 3
                   [TwoPools.pool_f; TwoPools.pool_g; TwoPools.pool_h;
                    TwoPools.pool_e] _ _)).
  - lia.
  - repeat (constructor; [split; vm_compute; reflexivity|]). constructor.
Defined.

(** The scores of the four pairs: 24.75, 25, 10000.5 and 25.0. *)
Lemma sample_scores :
  map spec_score
    [TwoPools.pool_f; TwoPools.pool_g; TwoPools.pool_h; TwoPools.pool_e]
  = [Some (PyFloat (b64 99 (-2))); Some (PyInt 25);
     Some (PyFloat (b64 20001 (-1))); Some (PyFloat (b64 25 0))].
Proof. vm_compute. reflexivity. Qed.

(** Why NaN is excluded. Three pairs name the mint and score 1, NaN and 2.
    No key is smaller than the one after it ([1 < nan] and [nan < 2] are
    both false), so [sorted] leaves the list as it is, and with [top_n = 1]
    discovery returns the pair that scores 1, not the one that scores 2. *)
Lemma nan_score_defeats_ranking :
  Forall (fun p => pair_object p = true /\ names_mint Sample.mint p = true)
    [TwoPools.pool_low; TwoPools.pool_nan; TwoPools.pool_high]
  /\ map score
       [TwoPools.pool_low; TwoPools.pool_nan; TwoPools.pool_high]
     = [Ok (PyInt 1); Ok (PyFloat S754_nan); Ok (PyInt 2)]
  /\ map spec_score
       [TwoPools.pool_low; TwoPools.pool_nan; TwoPools.pool_high]
     = [Some (PyInt 1); Some (PyFloat S754_nan); Some (PyInt 2)]
  /\ top_pairs Sample.mint 1
       (JArr [TwoPools.pool_low; TwoPools.pool_nan; TwoPools.pool_high])
     = Ok [TwoPools.pool_low]
  /\ top_pairs Sample.mint 3
       (JArr [TwoPools.pool_low; TwoPools.pool_nan; TwoPools.pool_high])
     = Ok [TwoPools.pool_low; TwoPools.pool_nan; TwoPools.pool_high]
  /\ num_ltb (PyInt 1) (PyInt 2) = true.
Proof.
  split; [|vm_compute; repeat split; reflexivity].
  repeat (constructor; [split; reflexivity|]). constructor.
Qed.

(** A pair object with no liquidity and no volume scores 0. *)
Lemma score_missing_fields : score (JObj []) = Ok (PyInt 0).
Proof. reflexivity. Qed.

(** Integer figures give an integer score, compared as integers. *)
Lemma score_of_ints (liq vol : Z) :
  score_value (JInt liq) (JInt vol) = Ok (PyInt (liq * 10 + vol)).
Proof. reflexivity. Qed.

(** An int beyond the largest float cannot be added to a float: the score
    raises, and so does discovery. *)
Lemma score_overflow :
  score_value (JFloat (b64 1 (-1))) (JInt (10 ^ 400)) = Raise OverflowError.
Proof. vm_compute. reflexivity. Qed.

(** Why [top_n >= 1] is asked for: the length test comes after the append,
    so with [top_n = 0] a first pair that references the mint is still
    returned. *)
Lemma top_pairs_zero_keeps_first :
  top_pairs Sample.mint 0 (JArr [TwoPools.pool_a; TwoPools.pool_d])
  = Ok [TwoPools.pool_a].
Proof. reflexivity. Qed.

(* ================================================================== *)
(** ** The signature walk *)

Section Fetch.

Variable c : config.
Variable api_key : pystr.
Variable address : json.
Variables start_ts end_ts : Z.

(** What a successful [rpc] call did to the world: it took one reply, a
    dict without ["error"], and returned its ["result"]. *)
Lemma rpc_ok (method : pystr) (params batch : json) (w w1 : world) :
  rpc api_key method params w = (Ok batch, w1) ->
  exists kv rs,
    replies w = Body (JObj kv) :: rs
    /\ assoc (lit "error") kv = None
    /\ assoc (lit "result") kv = Some batch
    /\ replies w1 = rs
    /\ HELIUS_KEY w1 = HELIUS_KEY w
    /\ exists rq, log w1 = log w ++ [Sent rq].
Proof.
  unfold rpc, mbind, http_post, exchange. intros H.
  destruct (replies w) as [|[j|] rs] eqn:Er; try discriminate.
  destruct j; try discriminate.
  destruct (assoc (lit "error") kv) eqn:Ee; [discriminate|].
  unfold lift, getitem in H.
  destruct (assoc (lit "result") kv) eqn:Eres; [|discriminate].
  injection H as <- <-. exists kv, rs. simpl.
  repeat split; try assumption; try reflexivity. eexists. reflexivity.
Qed.

Lemma scan_items_sound (items : list json) :
  forall sigs r,
    scan_items start_ts end_ts items sigs = Ok r ->
    forall s, In s (scan_sigs r) ->
      In s sigs
      \/ exists item, In item items /\ in_window_item start_ts end_ts s item.
Proof.
  induction items as [|item rest IH]; intros sigs r H s Hs; simpl in H.
  - injection H as <-. now left.
  - destruct (get item (lit "blockTime")) as [bt|] eqn:Ebt; [|discriminate].
    cbn [bind] in H.
    assert (Hrest : forall sigs',
               scan_items start_ts end_ts rest sigs' = Ok r ->
               (forall x, In x sigs' -> In x sigs
                  \/ in_window_item start_ts end_ts x item) ->
               In s sigs
               \/ exists it, In it (item :: rest)
                             /\ in_window_item start_ts end_ts s it).
    { intros sigs' H' Hsub.
      destruct (IH _ _ H' s Hs) as [Hin|(it & Hit & Hw)].
      - destruct (Hsub _ Hin) as [?|?]; [now left|].
        right. exists item. split; [now left | assumption].
      - right. exists it. split; [now right | assumption]. }
    destruct (is_none bt) eqn:En.
    + apply (Hrest sigs H). intros x Hx. now left.
    + unfold num_of in H. destruct (as_num bt) as [t|] eqn:Et; [|now destruct bt].
      cbn [bind] in H.
      destruct (Z.ltb t start_ts) eqn:Elt.
      * injection H as <-. now left.
      * destruct (Z.leb start_ts t && Z.leb t end_ts) eqn:Ew.
        -- destruct (getitem item (lit "signature")) as [sg|] eqn:Esg;
             [|discriminate].
           cbn [bind] in H. apply (Hrest _ H). intros x Hx.
           apply in_app_or in Hx as [Hx|[<-|[]]]; [now left|].
           right. split; [assumption|]. exists bt, t.
           apply andb_true_iff in Ew as [H1 H2].
           apply Z.leb_le in H1, H2. repeat split; assumption.
        -- apply (Hrest sigs H). intros x Hx. now left.
Qed.

Lemma sig_loop_sound (fuel : nat) :
  forall sigs before w res w',
    sig_loop fuel c api_key address start_ts end_ts sigs before w
    = (Ok res, w') ->
    forall s, In s res ->
      In s sigs
      \/ exists r item,
           In r (replies w) /\ In item (page_items r)
           /\ in_window_item start_ts end_ts s item.
Proof.
  induction fuel as [|fuel IH]; intros sigs before w res w' H s Hs;
    [discriminate|].
  cbn [sig_loop] in H. unfold mbind at 1 in H.
  destruct (rpc api_key _ _ w) as [[batch|st] w1] eqn:Erpc; [|discriminate].
  destruct (rpc_ok _ _ _ Erpc) as (kv & rs & Hw & _ & Hres & Hw1 & _).
  destruct (truthy batch); cbn [negb] in H.
  2:{ injection H as <- <-. now left. }
  unfold mbind, lift in H.
  destruct batch as [|b|z|s0|items|kv0|f0]; try discriminate.
  destruct (page_header (JArr items)) as [[]|]; [|discriminate].
  cbn [iter] in H.
  destruct (scan_items start_ts end_ts items sigs) as [r|] eqn:Escan;
    [|discriminate].
  assert (Hpage : forall x, In x (scan_sigs r) ->
            In x sigs
            \/ exists r0 item,
                 In r0 (replies w) /\ In item (page_items r0)
                 /\ in_window_item start_ts end_ts x item).
  { intros x Hx.
    destruct (scan_items_sound _ _ Escan x Hx) as [?|(item & Hit & Hwin)];
      [now left|].
    right. exists (Body (JObj kv)), item. rewrite Hw.
    split; [now left|]. split; [|assumption].
    simpl. now rewrite Hres. }
  destruct r as [sigs'|sigs'].
  - destruct (getitem (last items JNull) (lit "signature")) as [b'|];
      [|discriminate].
    destruct (IH _ _ _ _ _ H s Hs) as [Hin|(r0 & item & Hr0 & Hit & Hwin)].
    + apply (Hpage s Hin).
    + right. exists r0, item. rewrite Hw, <- Hw1.
      split; [now right|]. split; assumption.
  - unfold ret in H. injection H as <- <-. apply (Hpage s Hs).
Qed.

(** C2. Every signature [fetch_signatures_in_window] returns was read from
    an item of a page the RPC answered with, and that item has a block time
    that is present and lies within [[start_ts, end_ts]]. *)
Theorem fetched_signatures_in_window (w w' : world) (sigs : list json) :
  fetch_signatures_in_window c api_key address start_ts end_ts w
  = (Ok sigs, w') ->
  forall s, In s sigs ->
    exists r item,
      In r (replies w) /\ In item (page_items r)
      /\ in_window_item start_ts end_ts s item.
Proof.
  unfold fetch_signatures_in_window. intros H s Hs.
  destruct (sig_loop_sound _ _ _ _ H s Hs) as [[]|Hex]. exact Hex.
Qed.

(** The loop over a page that falls through a prefix goes on with the rest. *)
Lemma scan_items_app (pre rest : list json) :
  forall sigs sigs1,
    scan_items start_ts end_ts pre sigs = Ok (Continue sigs1) ->
    scan_items start_ts end_ts (pre ++ rest) sigs
    = scan_items start_ts end_ts rest sigs1.
Proof.
  induction pre as [|item pre IH]; intros sigs sigs1 H; simpl in H.
  - now injection H as <-.
  - simpl. destruct (get item (lit "blockTime")) as [bt|]; [|discriminate].
    cbn [bind] in *.
    destruct (is_none bt); [now apply IH|].
    destruct (num_of bt) as [t|]; [|discriminate]. cbn [bind] in *.
    destruct (Z.ltb t start_ts); [discriminate|].
    destruct (Z.leb start_ts t && Z.leb t end_ts); [|now apply IH].
    destruct (getitem item (lit "signature")); [|discriminate].
    cbn [bind] in *. now apply IH.
Qed.

Lemma scan_items_cut (cut bt : json) (t : Z) (post sigs : list json) :
  get cut (lit "blockTime") = Ok bt ->
  as_num bt = Some t ->
  (t < start_ts)%Z ->
  scan_items start_ts end_ts (cut :: post) sigs = Ok (Return sigs).
Proof.
  intros Hbt Ht Hlt. simpl. rewrite Hbt. cbn [bind].
  assert (Hn : is_none bt = false) by (destruct bt; try discriminate; reflexivity).
  rewrite Hn. unfold num_of. rewrite Ht. cbn [bind].
  apply Z.ltb_lt in Hlt. now rewrite Hlt.
Qed.

(** C8. In any round of the walk, if the page that came back holds an item
    [cut] with a block time below [start_ts], and the items before it let
    the loop run on, then the fetcher returns what was collected up to
    [cut]: the outcome does not depend on the items after [cut], and the
    world is the one the page request left, so no further page is asked
    for. *)
Theorem early_exit_below_window
    (fuel : nat) (sigs : list json) (before : json) (w w1 : world)
    (pre post : list json) (cut bt : json) (t : Z) (sigs1 : list json) :
  rpc api_key (lit "getSignaturesForAddress")
    (JArr [address; page_cfg c before]) w
  = (Ok (JArr (pre ++ cut :: post)), w1) ->
  page_header (JArr (pre ++ cut :: post)) = Ok tt ->
  scan_items start_ts end_ts pre sigs = Ok (Continue sigs1) ->
  get cut (lit "blockTime") = Ok bt ->
  as_num bt = Some t ->
  (t < start_ts)%Z ->
  sig_loop (S fuel) c api_key address start_ts end_ts sigs before w
  = (Ok sigs1, w1)
  /\ replies w1 = tl (replies w)
  /\ (exists rq, log w1 = log w ++ [Sent rq])
  /\ (forall post',
        scan_items start_ts end_ts (pre ++ cut :: post') sigs
        = Ok (Return sigs1)).
Proof.
  intros Hrpc Hhead Hpre Hbt Ht Hlt.
  assert (Hscan : forall post',
             scan_items start_ts end_ts (pre ++ cut :: post') sigs
             = Ok (Return sigs1)).
  { intros post'. rewrite (@scan_items_app pre _ sigs sigs1 Hpre).
    eapply scan_items_cut; eassumption. }
  destruct (rpc_ok _ _ _ Hrpc) as (kv & rs & Hw & _ & _ & Hw1 & _ & Hlog).
  repeat split; try assumption.
  - cbn [sig_loop]. unfold mbind at 1. rewrite Hrpc.
    replace (truthy (JArr (pre ++ cut :: post))) with true
      by (destruct pre; reflexivity).
    cbn [negb]. unfold mbind, lift. rewrite Hhead. cbn [iter].
    now rewrite Hscan.
  - now rewrite Hw.
Qed.

End Fetch.

(** The first page of a walk: the two signatures inside the window that
    come before the item at 900 are returned, the item after it is not
    looked at, and the second reply of the script is left unread. *)
Lemma early_exit_below_window_witness :
  fetch_signatures_in_window SampleRun.cfg (lit "KEY") SampleRun.pool_address
    1000 2000
    (SampleRun.world0 [SampleRun.rpc_result (JArr SampleRun.page1);
                       SampleRun.rpc_result (JArr SampleRun.page1)])
  = (Ok [JStr (lit "s1"); JStr (lit "s3")],
     SampleRun.world1 [SampleRun.rpc_result (JArr SampleRun.page1)]).
Proof.
  refine (proj1 (@early_exit_below_window SampleRun.cfg (lit "KEY")
                   SampleRun.pool_address 1000 2000 2 [] JNull
                   (SampleRun.world0
                      [SampleRun.rpc_result (JArr SampleRun.page1);
                       SampleRun.rpc_result (JArr SampleRun.page1)])
                   (SampleRun.world1
                      [SampleRun.rpc_result (JArr SampleRun.page1)])
                   (firstn 4 SampleRun.page1) (skipn 5 SampleRun.page1)
                   (SampleRun.sig_item "s4" (JInt 900)) (JInt 900) 900
                   [JStr (lit "s1"); JStr (lit "s3")]
                   eq_refl eq_refl eq_refl eq_refl eq_refl _)).
  reflexivity.
Defined.

Lemma fetched_signatures_in_window_witness :
  exists r item,
    In r [SampleRun.rpc_result (JArr SampleRun.page1)]
    /\ In item (page_items r)
    /\ in_window_item 1000 2000 (JStr (lit "s3")) item.
Proof.
  apply (@fetched_signatures_in_window SampleRun.cfg (lit "KEY")
           SampleRun.pool_address 1000 2000
           (SampleRun.world0 [SampleRun.rpc_result (JArr SampleRun.page1)])
           (SampleRun.world1 [])
           [JStr (lit "s1"); JStr (lit "s3")]).
  - reflexivity.
  - simpl. right. left. reflexivity.
Defined.

(* ================================================================== *)
(** ** The window check of [main] and the empty shortlist *)

Section MainChecks.

Variable c : config.

(** C6. A transaction of a parse batch whose timestamp is absent ([None])
    or a number outside [[START_TS, END_TS]] leaves [buyers_agg] as it was
    and raises nothing, whatever else it holds; a batch with it folds like
    the batch without it. *)
Theorem out_of_window_tx_discarded
    (kv : list (pystr * json)) (agg : odict entry) :
  field (lit "timestamp") kv = JNull
  \/ (exists z, as_num (field (lit "timestamp") kv) = Some z
                /\ (z < START_TS c \/ END_TS c < z)%Z) ->
  process_tx c agg (JObj kv) = Ok agg
  /\ forall pre post agg0,
       fold_txs c (pre ++ JObj kv :: post) agg0 = fold_txs c (pre ++ post) agg0.
Proof.
  intros Hts.
  assert (Hskip : forall a, process_tx c a (JObj kv) = Ok a).
  { intros a. unfold process_tx. rewrite get_field. cbn [bind].
    unfold outside_window.
    destruct Hts as [-> | (z & Hz & Hout)]; [reflexivity|].
    destruct (is_none _); [reflexivity|].
    unfold num_of. rewrite Hz. cbn [bind].
    replace (Z.leb (START_TS c) z && Z.leb z (END_TS c)) with false;
      [reflexivity|].
    symmetry. apply andb_false_iff.
    destruct Hout; [left; apply Z.leb_gt | right; apply Z.leb_gt]; lia. }
  split; [apply Hskip|].
  intros pre post. induction pre as [|tx pre IH]; intros agg0; simpl.
  - now rewrite Hskip.
  - destruct (process_tx c agg0 tx); [apply IH | reflexivity].
Qed.

(** C9. With the key set and the window printable, if what Dexscreener
    answered yields an empty shortlist, [main] stops with the
    "No Dexscreener pairs found" exit: the one request made is the pool
    query, so no signature page was asked for, nothing was parsed or
    aggregated, and no file was written. *)
Theorem no_pools_is_fatal
    (w : world) (api_key : pystr) (data : json) (rs : list reply) :
  HELIUS_KEY w = Some api_key ->
  api_key <> [] ->
  fromtimestamp_utc (START_TS c) = Ok tt ->
  fromtimestamp_utc (END_TS c) = Ok tt ->
  replies w = Body data :: rs ->
  top_pairs (MINT c) (TOP_POOLS c) data = Ok [] ->
  main c w
  = (Raise (SystemExit no_pairs_message),
     {| HELIUS_KEY := HELIUS_KEY w;
        replies := rs;
        log := log w ++ [Sent (Get (DEXSCREENER_TOKEN_PAIRS (MINT c)))] |}).
Proof.
  intros Hkey Hne Hs He Hw Htop.
  unfold main. rewrite Hkey.
  destruct api_key as [|k0 key]; [congruence|].
  unfold mbind, lift. rewrite Hs, He.
  unfold get_top_pairs_from_dexscreener, mbind, http_get, exchange, lift.
  rewrite Hw. cbn iota. rewrite Htop. cbn iota. now rewrite Hkey.
Qed.

End MainChecks.

(** The spec's scenario: a transaction stamped 500 in a batch for the
    window [[1000, 2000]]. *)
Lemma out_of_window_tx_discarded_witness :
  process_tx SampleRun.cfg []
    (Sample.tx "s9" 500
       [Sample.swap_output (JStr (lit "W")) (JStr (lit "100"))] [])
  = Ok [].
Proof.
  refine (proj1 (@out_of_window_tx_discarded SampleRun.cfg
                   (Sample.tx_items "s9" 500
                      [Sample.swap_output (JStr (lit "W")) (JStr (lit "100"))]
                      [])
                   [] _)).
  right. exists 500%Z. split; [reflexivity|]. left. simpl. lia.
Defined.

(** Dexscreener knows one pair and it does not reference the mint. *)
Lemma no_pools_is_fatal_witness :
  main SampleRun.cfg (SampleRun.world0 [Body (JArr [TwoPools.pool_c])])
  = (Raise (SystemExit no_pairs_message),
     {| HELIUS_KEY := Some (lit "KEY");
        replies := [];
        log := [Sent (Get (DEXSCREENER_TOKEN_PAIRS Sample.mint))] |}).
Proof.
  apply (@no_pools_is_fatal SampleRun.cfg
           (SampleRun.world0 [Body (JArr [TwoPools.pool_c])])
           (lit "KEY") (JArr [TwoPools.pool_c]) []);
    try reflexivity.
  discriminate.
Defined.

(* ================================================================== *)
(** ** The reducer *)

Section OrderedDict.

Context {V : Type}.

Lemma od_get_set_eq (k : hkey) (v : V) (d : odict V) :
  od_get k (od_set k v d) = Some v.
Proof.
  induction d as [|[k1 v1] d IH]; simpl.
  - now rewrite hkey_eqb_refl.
  - destruct (hkey_eqb k k1) eqn:E; simpl; now rewrite E.
Qed.

Lemma od_get_set_ne (k k' : hkey) (v : V) (d : odict V) :
  hkey_eqb k' k = false -> od_get k' (od_set k v d) = od_get k' d.
Proof.
  intros Hne. induction d as [|[k1 v1] d IH]; simpl.
  - now rewrite Hne.
  - destruct (hkey_eqb k k1) eqn:E; simpl.
    + apply hkey_eqb_eq in E. subst k1. now rewrite Hne.
    + destruct (hkey_eqb k' k1); [reflexivity | exact IH].
Qed.

Lemma od_get_none (k : hkey) (d : odict V) :
  od_get k d = None <-> ~ In k (map fst d).
Proof.
  induction d as [|[k1 v1] d IH]; simpl.
  - split; [intros _ [] | reflexivity].
  - destruct (hkey_eqb k k1) eqn:E.
    + apply hkey_eqb_eq in E. subst. split; [discriminate|].
      intros H. exfalso. apply H. now left.
    + apply hkey_eqb_neq in E. rewrite IH. split.
      * intros H [Heq|Hin]; [congruence | contradiction].
      * intros H Hin. apply H. now right.
Qed.

Lemma od_keys_set (k : hkey) (v : V) (d : odict V) :
  map fst (od_set k v d)
  = match od_get k d with
    | Some _ => map fst d
    | None => map fst d ++ [k]
    end.
Proof.
  induction d as [|[k1 v1] d IH]; simpl; [reflexivity|].
  destruct (hkey_eqb k k1) eqn:E; simpl; [reflexivity|].
  rewrite IH. now destruct (od_get k d).
Qed.

(** Assigning to a key never makes a second item for it. *)
Lemma od_set_nodup (k : hkey) (v : V) (d : odict V) :
  NoDup (map fst d) -> NoDup (map fst (od_set k v d)).
Proof.
  intros Hnd. rewrite od_keys_set.
  destruct (od_get k d) eqn:E; [assumption|].
  apply od_get_none in E.
  apply NoDup_app; [assumption | repeat constructor; intros [] |].
  intros x Hx [<-|[]]. contradiction.
Qed.

Lemma od_get_in (k : hkey) (v : V) (d : odict V) :
  od_get k d = Some v -> exists k', In (k', v) d.
Proof.
  induction d as [|[k1 v1] d IH]; simpl; [discriminate|].
  destruct (hkey_eqb k k1).
  - intros [= <-]. exists k1. now left.
  - intros H. destruct (IH H) as [k' Hk']. exists k'. now right.
Qed.

Lemma od_set_forall (P : V -> Prop) (k : hkey) (v : V) (d : odict V) :
  P v -> Forall (fun kv => P (snd kv)) d ->
  Forall (fun kv => P (snd kv)) (od_set k v d).
Proof.
  intros Hv. induction 1 as [|[k1 v1] d H1 Hd IH]; simpl.
  - repeat constructor. exact Hv.
  - destruct (hkey_eqb k k1); constructor; assumption.
Qed.

End OrderedDict.

Section Reducer.

Lemma fold_obs_app (l1 l2 : list obs) :
  forall agg,
    fold_obs (l1 ++ l2) agg = (agg1 <- fold_obs l1 agg ;; fold_obs l2 agg1).
Proof.
  induction l1 as [|o l1 IH]; intros agg; simpl; [reflexivity|].
  destruct (agg_step agg o); simpl; [apply IH | reflexivity].
Qed.

(** One step of the reducer, taken apart. *)
Lemma agg_step_ok (agg agg' : odict entry) (o : obs) :
  agg_step agg o = Ok agg' ->
  exists k raw e,
    to_hkey (o_wallet o) = Ok k
    /\ raw_int (o_amt o) = Ok raw
    /\ updated_entry (od_get k agg) o raw = Ok e
    /\ agg' = od_set k e agg.
Proof.
  unfold agg_step. intros H.
  destruct (to_hkey (o_wallet o)) as [k|] eqn:Ek; [|discriminate].
  destruct (raw_int (o_amt o)) as [raw|] eqn:Er; [|discriminate].
  cbn [bind] in H.
  destruct (updated_entry (od_get k agg) o raw) as [e|] eqn:Ee; [|discriminate].
  injection H as <-. exists k, raw, e. repeat split; assumption || reflexivity.
Qed.

(** The reducer keeps one item per key. *)
Lemma fold_obs_nodup (l : list obs) :
  forall agg agg',
    fold_obs l agg = Ok agg' -> NoDup (map fst agg) -> NoDup (map fst agg').
Proof.
  induction l as [|o l IH]; intros agg agg' H Hnd; simpl in H.
  - now injection H as <-.
  - destruct (agg_step agg o) as [agg1|] eqn:E; [|discriminate].
    destruct (agg_step_ok _ _ E) as (k & raw & e & _ & _ & _ & ->).
    eapply IH; [exact H|]. now apply od_set_nodup.
Qed.

(** A fold touches the slot of a key only through the tuples of that key. *)
Lemma fold_obs_slot (l : list obs) :
  forall agg agg',
    fold_obs l agg = Ok agg' ->
    forall k, slot_fold k l (od_get k agg) = Ok (od_get k agg').
Proof.
  induction l as [|o l IH]; intros agg agg' H k; simpl in H.
  - now injection H as <-.
  - destruct (agg_step agg o) as [agg1|] eqn:E; [|discriminate].
    destruct (agg_step_ok _ _ E) as (ko & raw & e & Hk & Hraw & He & ->).
    cbn [bind] in H. cbn [slot_fold].
    unfold has_key, obs_key. rewrite Hk.
    destruct (hkey_eqb k ko) eqn:Ek.
    + apply hkey_eqb_eq in Ek. subst ko. rewrite Hraw. cbn [bind]. rewrite He. cbn [bind].
      rewrite <- (@od_get_set_eq _ k e agg). now apply IH.
    + rewrite <- (@od_get_set_ne _ ko k e agg Ek). now apply IH.
Qed.

Lemma sum_Z_cons (x : Z) (l : list Z) : sum_Z (x :: l) = (x + sum_Z l)%Z.
Proof. reflexivity. Qed.

Lemma first_decimals_cons (o : obs) (l : list obs) :
  first_decimals (o :: l)
  = if is_none (o_dec o) then first_decimals l else o_dec o.
Proof. unfold first_decimals. simpl. now destruct (is_none (o_dec o)). Qed.

(** The slot of a key that already holds an entry: what does not depend on
    the timestamps. *)
Lemma slot_fold_some_counts (k : hkey) (l : list obs) :
  forall e0 res,
    slot_fold k l (Some e0) = Ok res ->
    exists e,
      res = Some e
      /\ tx_count e
         = (tx_count e0 + Z.of_nat (length (filter (has_key k) l)))%Z
      /\ raw_total e
         = (raw_total e0
            + sum_Z (map contribution (filter (has_key k) l)))%Z
      /\ decimals e
         = (if is_none (decimals e0)
            then first_decimals (filter (has_key k) l) else decimals e0)
      /\ example_sig e = example_sig e0
      /\ wallet e = wallet e0.
Proof.
  induction l as [|o l IH]; intros e0 res H; cbn [slot_fold] in H.
  - injection H as <-. exists e0. cbn [filter length map sum_Z fold_right].
    repeat split; try lia. unfold first_decimals. cbn [find].
    destruct (decimals e0); reflexivity.
  - cbn [filter]. destruct (has_key k o); [|now apply IH].
    destruct (raw_int (o_amt o)) as [raw|] eqn:Eraw; [|discriminate].
    cbn [bind] in H.
    destruct (updated_entry (Some e0) o raw) as [e1|] eqn:E1; [|discriminate].
    cbn [bind] in H.
    destruct (IH _ _ H) as (e & -> & Hc & Hr & Hd & Hs & Hw).
    exists e. split; [reflexivity|].
    unfold updated_entry in E1.
    destruct (py_min _ _) as [f|]; [|discriminate].
    destruct (py_max _ _) as [m|]; [|discriminate].
    cbn [bind] in E1. injection E1 as <-.
    cbn [tx_count raw_total decimals example_sig wallet] in *.
    repeat split.
    + rewrite Hc. cbn [length]. rewrite Nat2Z.inj_succ. ring.
    + rewrite Hr. cbn [map]. rewrite sum_Z_cons. unfold contribution at 2.
      rewrite Eraw. lia.
    + rewrite Hd, first_decimals_cons.
      destruct (is_none (decimals e0)) eqn:En0; cbn [andb].
      * destruct (is_none (o_dec o)) eqn:Eno; cbn [negb]; [now rewrite En0|].
        now rewrite Eno.
      * now rewrite En0.
    + exact Hs.
    + exact Hw.
Qed.

(** The slot of a key that is new. *)
Lemma slot_fold_none_counts (k : hkey) (l : list obs) :
  forall res,
    slot_fold k l None = Ok res ->
    match filter (has_key k) l with
    | [] => res = None
    | o1 :: rest =>
        exists e,
          res = Some e
          /\ tx_count e = Z.of_nat (length (o1 :: rest))
          /\ raw_total e = sum_Z (map contribution (o1 :: rest))
          /\ decimals e = first_decimals (o1 :: rest)
          /\ example_sig e = o_sig o1
          /\ wallet e = o_wallet o1
    end.
Proof.
  induction l as [|o l IH]; intros res H; cbn [slot_fold] in H.
  - now injection H as <-.
  - cbn [filter]. destruct (has_key k o); [|now apply IH].
    destruct (raw_int (o_amt o)) as [raw|] eqn:Eraw; [|discriminate].
    cbn [bind updated_entry] in H.
    destruct (slot_fold_some_counts _ _ _ H) as (e & -> & Hc & Hr & Hd & Hs & Hw).
    exists e. cbn [tx_count raw_total decimals example_sig wallet] in *.
    split; [reflexivity|]. repeat split.
    + rewrite Hc. cbn [length]. rewrite Nat2Z.inj_succ. ring.
    + rewrite Hr. cbn [map]. rewrite sum_Z_cons. unfold contribution at 2.
      rewrite Eraw. reflexivity.
    + rewrite Hd, first_decimals_cons. reflexivity.
    + exact Hs.
    + exact Hw.
Qed.

Lemma py_min_num (a b : json) (x y : Z) :
  as_num a = Some x -> as_num b = Some y ->
  exists m, py_min a b = Ok m /\ as_num m = Some (Z.min x y).
Proof.
  intros Ha Hb. unfold py_min, py_lt. rewrite Ha, Hb. cbn [bind].
  destruct (Z.ltb y x) eqn:E; eexists; (split; [reflexivity|]).
  - apply Z.ltb_lt in E. rewrite Hb. f_equal. lia.
  - apply Z.ltb_ge in E. rewrite Ha. f_equal. lia.
Qed.

Lemma py_max_num (a b : json) (x y : Z) :
  as_num a = Some x -> as_num b = Some y ->
  exists m, py_max a b = Ok m /\ as_num m = Some (Z.max x y).
Proof.
  intros Ha Hb. unfold py_max, py_lt. rewrite Ha, Hb. cbn [bind].
  destruct (Z.ltb x y) eqn:E; eexists; (split; [reflexivity|]).
  - apply Z.ltb_lt in E. rewrite Hb. f_equal. lia.
  - apply Z.ltb_ge in E. rewrite Ha. f_equal. lia.
Qed.

Lemma fold_left_min_spec (l : list Z) :
  forall x, is_min (fold_left Z.min l x) (x :: l).
Proof.
  induction l as [|y l IH]; intros x.
  - split; [now left | constructor; [simpl; lia | constructor]].
  - cbn [fold_left]. destruct (IH (Z.min x y)) as [Hin Hle].
    inversion Hle as [|? ? Hh Ht]; subst. split.
    + destruct Hin as [Heq|Hin].
      * rewrite <- Heq.
        destruct (Z.min_spec x y) as [[_ ->]|[_ ->]];
          [now left | right; now left].
      * right. now right.
    + constructor; [lia|]. constructor; [lia | assumption].
Qed.

Lemma fold_left_max_spec (l : list Z) :
  forall x, is_max (fold_left Z.max l x) (x :: l).
Proof.
  induction l as [|y l IH]; intros x.
  - split; [now left | constructor; [simpl; lia | constructor]].
  - cbn [fold_left]. destruct (IH (Z.max x y)) as [Hin Hle].
    inversion Hle as [|? ? Hh Ht]; subst. split.
    + destruct Hin as [Heq|Hin].
      * rewrite <- Heq.
        destruct (Z.max_spec x y) as [[_ ->]|[_ ->]];
          [right; now left | now left].
      * right. now right.
    + constructor; [lia|]. constructor; [lia | assumption].
Qed.

(** The two timestamps of a slot that already holds an entry. *)
Lemma slot_fold_some_times (k : hkey) (l : list obs) :
  forall e0 e f0 l0,
    slot_fold k l (Some e0) = Ok (Some e) ->
    as_num (first_ts e0) = Some f0 ->
    as_num (last_ts e0) = Some l0 ->
    Forall (fun o => exists t, as_num (o_ts o) = Some t)
      (filter (has_key k) l) ->
    as_num (first_ts e)
    = Some (fold_left Z.min (map time_of (filter (has_key k) l)) f0)
    /\ as_num (last_ts e)
       = Some (fold_left Z.max (map time_of (filter (has_key k) l)) l0).
Proof.
  induction l as [|o l IH]; intros e0 e f0 l0 H Hf Hl Hnum;
    cbn [slot_fold] in H.
  - injection H as <-. now split.
  - cbn [filter] in *. destruct (has_key k o); [|now apply (IH e0)].
    inversion Hnum as [|? ? [t Ht] Hrest]; subst.
    destruct (raw_int (o_amt o)) as [raw|]; [|discriminate].
    cbn [bind updated_entry] in H.
    destruct (py_min_num _ _ Hf Ht) as (mn & Emn & Hmn).
    destruct (py_max_num _ _ Hl Ht) as (mx & Emx & Hmx).
    rewrite Emn, Emx in H. cbn [bind] in H.
    assert (Hto : time_of o = t) by (unfold time_of; now rewrite Ht).
    cbn [map fold_left]. rewrite Hto.
    apply (IH _ _ _ _ H); assumption.
Qed.

(** The two timestamps of a slot that was new. *)
Lemma slot_fold_none_times (k : hkey) (l : list obs) :
  forall e,
    slot_fold k l None = Ok (Some e) ->
    Forall (fun o => exists t, as_num (o_ts o) = Some t)
      (filter (has_key k) l) ->
    (exists m, as_num (first_ts e) = Some m
               /\ is_min m (map time_of (filter (has_key k) l)))
    /\ (exists m, as_num (last_ts e) = Some m
                  /\ is_max m (map time_of (filter (has_key k) l))).
Proof.
  induction l as [|o l IH]; intros e H Hnum; cbn [slot_fold] in H;
    [discriminate|].
  cbn [filter] in *. destruct (has_key k o); [|now apply IH].
  inversion Hnum as [|? ? [t Ht] Hrest]; subst.
  destruct (raw_int (o_amt o)) as [raw|]; [|discriminate].
  cbn [bind updated_entry] in H.
  destruct (@slot_fold_some_times k l _ _ _ _ H Ht Ht Hrest) as [Hmin Hmax].
  assert (Hto : time_of o = t) by (unfold time_of; now rewrite Ht).
  cbn [map]. rewrite Hto. split.
  - eexists. split; [exact Hmin | apply fold_left_min_spec].
  - eexists. split; [exact Hmax | apply fold_left_max_spec].
Qed.

(** A foldable tuple is folded, and the timestamps stay numbers. *)
Lemma agg_step_total (agg : odict entry) (o : obs) :
  foldable o ->
  Forall (fun kv => timed (snd kv)) agg ->
  exists agg',
    agg_step agg o = Ok agg' /\ Forall (fun kv => timed (snd kv)) agg'.
Proof.
  intros ([k Hk] & [raw Hraw] & [t Ht]) Hagg.
  unfold agg_step. rewrite Hk, Hraw. cbn [bind].
  destruct (od_get k agg) as [e0|] eqn:Eget; cbn [updated_entry].
  - destruct (od_get_in _ _ Eget) as [k' Hin].
    rewrite Forall_forall in Hagg.
    destruct (Hagg _ Hin) as [[f0 Hf0] [l0 Hl0]]. cbn [snd] in *.
    destruct (py_min_num _ _ Hf0 Ht) as (mn & Emn & Hmn).
    destruct (py_max_num _ _ Hl0 Ht) as (mx & Emx & Hmx).
    rewrite Emn, Emx. cbn [bind]. eexists. split; [reflexivity|].
    apply od_set_forall; [|now apply Forall_forall].
    split; eexists; cbn [first_ts last_ts]; eassumption.
  - eexists. split; [reflexivity|].
    apply od_set_forall; [|assumption].
    split; exists t; exact Ht.
Qed.

Lemma fold_obs_total (l : list obs) :
  Forall foldable l ->
  forall agg,
    Forall (fun kv => timed (snd kv)) agg ->
    exists agg', fold_obs l agg = Ok agg'.
Proof.
  induction 1 as [|o l Ho _ IH]; intros agg Hagg; cbn [fold_obs].
  - now exists agg.
  - destruct (agg_step_total Ho Hagg) as (agg1 & -> & Hagg1).
    cbn [bind]. now apply IH.
Qed.

(** C1. Folding any sequence of foldable tuples into an empty [buyers_agg]
    succeeds, and for every wallet key with at least one tuple the entry
    under the key has: [first_ts] the least and [last_ts] the greatest of
    the wallet's timestamps, [tx_count] the number of its tuples,
    [raw_total] the sum of their integer contributions, [decimals] the first
    decimals value that is not [None] (or [None] if there is none), and
    [example_sig] the signature of the wallet's first tuple. *)
Theorem wallet_aggregate_summary (l : list obs) (k : hkey) :
  Forall foldable l ->
  filter (has_key k) l <> [] ->
  exists agg e,
    fold_obs l [] = Ok agg
    /\ od_get k agg = Some e
    /\ (exists m, as_num (first_ts e) = Some m
                  /\ is_min m (map time_of (filter (has_key k) l)))
    /\ (exists m, as_num (last_ts e) = Some m
                  /\ is_max m (map time_of (filter (has_key k) l)))
    /\ tx_count e = Z.of_nat (length (filter (has_key k) l))
    /\ raw_total e = sum_Z (map contribution (filter (has_key k) l))
    /\ decimals e = first_decimals (filter (has_key k) l)
    /\ option_map o_sig (hd_error (filter (has_key k) l))
       = Some (example_sig e).
Proof.
  intros Hfold Hne.
  destruct (fold_obs_total Hfold (agg := [])) as [agg Hagg]; [constructor|].
  pose proof (fold_obs_slot _ _ Hagg k) as Hslot. cbn [od_get] in Hslot.
  pose proof (slot_fold_none_counts _ _ Hslot) as Hcounts.
  assert (Hnum : Forall (fun o => exists t, as_num (o_ts o) = Some t)
                   (filter (has_key k) l)).
  { apply Forall_forall. intros o Ho. apply filter_In in Ho as [Ho _].
    rewrite Forall_forall in Hfold. now destruct (Hfold o Ho) as (_ & _ & ?). }
  destruct (filter (has_key k) l) as [|o1 rest] eqn:Elk; [congruence|].
  destruct Hcounts as (e & He & Hc & Hr & Hd & Hs & _).
  rewrite He in Hslot. rewrite <- Elk in Hnum.
  destruct (slot_fold_none_times _ _ Hslot Hnum) as [Hmin Hmax].
  rewrite Elk in Hmin, Hmax.
  exists agg, e. repeat split; try assumption.
  cbn [hd_error option_map]. now rewrite Hs.
Qed.

End Reducer.

(** The spec's end-to-end scenario: wallet W buys 100 at 1200 and 50 at
    1800, with another wallet in between. *)
Lemma wallet_aggregate_summary_witness :
  exists agg e,
    fold_obs [Sample.observation "W" (JStr (lit "100")) "s1" 1200;
              Sample.observation "V" (JStr (lit "7")) "s2" 1500;
              Sample.observation "W" (JStr (lit "50")) "s3" 1800] []
    = Ok agg
    /\ od_get (HStr (lit "W")) agg = Some e
    /\ (exists m, as_num (first_ts e) = Some m /\ is_min m [1200; 1800]%Z)
    /\ (exists m, as_num (last_ts e) = Some m /\ is_max m [1200; 1800]%Z)
    /\ tx_count e = 2%Z
    /\ raw_total e = 150%Z
    /\ decimals e = JInt 6
    /\ Some (JStr (lit "s1")) = Some (example_sig e).
Proof.
  apply (@wallet_aggregate_summary
           [Sample.observation "W" (JStr (lit "100")) "s1" 1200;
            Sample.observation "V" (JStr (lit "7")) "s2" 1500;
            Sample.observation "W" (JStr (lit "50")) "s3" 1800]
           (HStr (lit "W"))).
  - repeat constructor; eexists; reflexivity.
  - discriminate.
Defined.

(* ================================================================== *)
(** ** One dictionary for the whole run *)

Section Run.

Variable c : config.
Variable api_key : pystr.

Lemma process_tx_obs (agg : odict entry) (tx : json) :
  process_tx c agg tx = (l <- tx_obs c tx ;; fold_obs l agg).
Proof.
  unfold process_tx, tx_obs.
  destruct (get tx (lit "timestamp")) as [t|]; [|reflexivity]. cbn [bind].
  destruct (outside_window c t) as [[|]|]; try reflexivity. cbn [bind].
  destruct (get tx (lit "tokenTransfers")) as [tt|]; [|reflexivity].
  cbn [bind].
  destruct (iter (or_list tt)) as [trs|]; [|reflexivity]. cbn [bind].
  destruct (any_mint (MINT c) trs); reflexivity.
Qed.

Lemma fold_txs_obs (txs : list json) :
  forall agg agg',
    fold_txs c txs agg = Ok agg' ->
    exists l, txs_obs c txs = Ok l /\ fold_obs l agg = Ok agg'.
Proof.
  induction txs as [|tx txs IH]; intros agg agg' H; cbn [fold_txs] in H.
  - injection H as <-. now exists [].
  - rewrite process_tx_obs in H. cbn [txs_obs].
    destruct (tx_obs c tx) as [l1|]; [|discriminate]. cbn [bind] in *.
    destruct (fold_obs l1 agg) as [agg1|] eqn:E1; [|discriminate].
    cbn [bind] in H. destruct (IH _ _ H) as (r & -> & Hr).
    exists (l1 ++ r). split; [reflexivity|].
    rewrite fold_obs_app, E1. exact Hr.
Qed.

Lemma parse_chunks_obs (cs : list (list json)) :
  forall agg agg' w w',
    parse_chunks c api_key cs agg w = (Ok agg', w') ->
    exists l,
      chunks_obs c api_key cs w = (Ok l, w') /\ fold_obs l agg = Ok agg'.
Proof.
  induction cs as [|chunk cs IH]; intros agg agg' w w' H;
    cbn [parse_chunks chunks_obs] in *.
  - unfold ret in *. injection H as <- <-. now exists [].
  - unfold mbind at 1 in H. unfold mbind at 1.
    destruct (http_post _ _ w) as [[parsed|] w1]; [|discriminate].
    unfold mbind at 1 in H. unfold mbind at 1. unfold lift at 1 in H.
    unfold lift at 1.
    destruct (iter parsed) as [txs|]; [|discriminate].
    unfold mbind at 1 in H. unfold mbind at 1. unfold lift in *.
    destruct (fold_txs c txs agg) as [agg1|] eqn:E1; [|discriminate].
    destruct (fold_txs_obs _ _ E1) as (l1 & -> & Hl1).
    destruct (IH _ _ _ _ H) as (r & Hr & Hfold).
    exists (l1 ++ r). unfold mbind. rewrite Hr. split; [reflexivity|].
    rewrite fold_obs_app, Hl1. exact Hfold.
Qed.

Lemma scan_pool_obs (p : json) (agg agg' : odict entry) (w w' : world) :
  scan_pool c api_key agg p w = (Ok agg', w') ->
  exists l, pool_obs c api_key p w = (Ok l, w') /\ fold_obs l agg = Ok agg'.
Proof.
  unfold scan_pool, pool_obs, mbind, lift, ret. intros H.
  destruct (get p (lit "pairAddress")) as [addr|]; [|discriminate].
  destruct (negb (truthy addr)).
  { injection H as <- <-. now exists []. }
  destruct (includes_mint (MINT c) p) as [keep|]; [|discriminate].
  destruct (negb keep).
  { injection H as <- <-. now exists []. }
  destruct (fetch_signatures_in_window _ _ _ _ _ w) as [[sigs|] w1];
    [|discriminate].
  destruct (dedup [] sigs) as [sigs'|]; [|discriminate].
  destruct (chunks (PARSE_BATCH c) sigs') as [cs|]; [|discriminate].
  now apply parse_chunks_obs.
Qed.

Lemma scan_pools_obs (pairs : list json) :
  forall agg agg' w w',
    scan_pools c api_key pairs agg w = (Ok agg', w') ->
    exists per_pool,
      pools_obs c api_key pairs w = (Ok per_pool, w')
      /\ length per_pool = length pairs
      /\ fold_obs (concat per_pool) agg = Ok agg'.
Proof.
  induction pairs as [|p pairs IH]; intros agg agg' w w' H;
    cbn [scan_pools pools_obs] in *.
  - unfold ret in *. injection H as <- <-. now exists [].
  - unfold mbind at 1 in H. unfold mbind at 1.
    destruct (scan_pool c api_key agg p w) as [[agg1|] w1] eqn:E1;
      [|discriminate].
    destruct (scan_pool_obs _ _ _ E1) as (l1 & -> & Hl1).
    destruct (IH _ _ _ _ H) as (r & Hr & Hlen & Hfold).
    exists (l1 :: r). unfold mbind, ret. rewrite Hr.
    split; [reflexivity|]. split; [simpl; now rewrite Hlen|].
    cbn [concat]. rewrite fold_obs_app, Hl1. exact Hfold.
Qed.

Lemma od_get_some_in (V : Type) (k : hkey) (v : V) (d : odict V) :
  od_get k d = Some v -> In k (map fst d).
Proof.
  induction d as [|[k1 v1] d IH]; simpl; [discriminate|].
  destruct (hkey_eqb k k1) eqn:E.
  - apply hkey_eqb_eq in E. now left.
  - intros H. right. now apply IH.
Qed.

Lemma length_filter_concat (A : Type) (f : A -> bool) (ls : list (list A)) :
  length (filter f (concat ls))
  = list_sum (map (fun l => length (filter f l)) ls).
Proof.
  induction ls as [|l ls IH]; [reflexivity|].
  cbn [concat map list_sum fold_right]. fold (list_sum).
  now rewrite filter_app, length_app, IH.
Qed.

(** C5. When the scan of all pools returns, [buyers_agg] is the fold of the
    tuples of every pool, in order, into the one dictionary the run started
    with. Its keys are distinct; a wallet key with no tuple has no entry;
    a wallet key with tuples has one entry, whose [tx_count] is the sum over
    the pools of the number of its tuples there and whose [raw_total] is the
    sum of their contributions. *)
Theorem one_aggregate_per_wallet
    (pairs : list json) (w w' : world) (agg : odict entry) :
  scan_pools c api_key pairs [] w = (Ok agg, w') ->
  exists per_pool,
    pools_obs c api_key pairs w = (Ok per_pool, w')
    /\ length per_pool = length pairs
    /\ fold_obs (concat per_pool) [] = Ok agg
    /\ NoDup (map fst agg)
    /\ forall k,
         match filter (has_key k) (concat per_pool) with
         | [] => od_get k agg = None /\ ~ In k (map fst agg)
         | o1 :: rest =>
             exists e,
               od_get k agg = Some e
               /\ In k (map fst agg)
               /\ tx_count e
                  = Z.of_nat
                      (list_sum
                         (map (fun l => length (filter (has_key k) l))
                            per_pool))
               /\ raw_total e = sum_Z (map contribution (o1 :: rest))
               /\ wallet e = o_wallet o1
         end.
Proof.
  intros H.
  destruct (scan_pools_obs _ _ _ H) as (per_pool & Hobs & Hlen & Hfold).
  exists per_pool. repeat split; try assumption.
  - eapply fold_obs_nodup; [exact Hfold | constructor].
  - intros k.
    pose proof (fold_obs_slot _ _ Hfold k) as Hslot. cbn [od_get] in Hslot.
    pose proof (slot_fold_none_counts _ _ Hslot) as Hcounts.
    pose proof (length_filter_concat (has_key k) per_pool) as Hsum.
    destruct (filter (has_key k) (concat per_pool)) as [|o1 rest].
    + split; [exact Hcounts | now apply od_get_none].
    + destruct Hcounts as (e & He & Hc & Hr & _ & _ & Hw).
      exists e. repeat split; try assumption.
      * eapply od_get_some_in; eassumption.
      * now rewrite Hc, Hsum.
Qed.

End Run.

(** W buys through pool A and through pool B: one entry, two transactions. *)
Lemma one_aggregate_per_wallet_witness :
  exists per_pool,
    pools_obs SampleRun.cfg (lit "KEY") [TwoPools.pool_a; TwoPools.pool_b]
      TwoPools.scanning
    = (Ok per_pool,
       snd (scan_pools SampleRun.cfg (lit "KEY")
              [TwoPools.pool_a; TwoPools.pool_b] [] TwoPools.scanning))
    /\ length per_pool = 2%nat
    /\ fold_obs (concat per_pool) []
       = Ok [(HStr (lit "W"), TwoPools.entry_w)]
    /\ NoDup [HStr (lit "W")]
    /\ forall k,
         match filter (has_key k) (concat per_pool) with
         | [] => od_get k [(HStr (lit "W"), TwoPools.entry_w)] = None
                 /\ ~ In k [HStr (lit "W")]
         | o1 :: rest =>
             exists e,
               od_get k [(HStr (lit "W"), TwoPools.entry_w)] = Some e
               /\ In k [HStr (lit "W")]
               /\ tx_count e
                  = Z.of_nat
                      (list_sum
                         (map (fun l => length (filter (has_key k) l))
                            per_pool))
               /\ raw_total e = sum_Z (map contribution (o1 :: rest))
               /\ wallet e = o_wallet o1
         end.
Proof.
  apply (@one_aggregate_per_wallet SampleRun.cfg (lit "KEY")
           [TwoPools.pool_a; TwoPools.pool_b] TwoPools.scanning
           (snd (scan_pools SampleRun.cfg (lit "KEY")
                   [TwoPools.pool_a; TwoPools.pool_b] [] TwoPools.scanning))
           [(HStr (lit "W"), TwoPools.entry_w)]).
  vm_compute. reflexivity.
Defined.

(** The whole script on the same network: discovery ranks the pools, both
    are scanned, and one row is handed to the CSV writer. *)
Lemma main_two_pools :
  fst (main SampleRun.cfg (SampleRun.world0 TwoPools.network)) = Ok tt
  /\ last (log (snd (main SampleRun.cfg (SampleRun.world0 TwoPools.network))))
       (Wrote [] [])
     = Wrote (lit "buyers_MINT_1000_2000.csv") [TwoPools.entry_w].
Proof. split; vm_compute; reflexivity. Qed.

(* ================================================================== *)
(** ** The signature walk, page by page *)

Section Walk.

Variable c : config.
Variable api_key : pystr.
Variable address : json.
Variables start_ts end_ts : Z.

Lemma rpc_page (method : pystr) (params batch : json) (w : world)
    (r : reply) (rs : list reply) :
  replies w = r :: rs ->
  page_reply r batch ->
  rpc api_key method params w
  = (Ok batch,
     {| HELIUS_KEY := HELIUS_KEY w;
        replies := rs;
        log := log w ++ [Sent (rpc_request api_key method params)] |}).
Proof.
  intros Hw (kv & -> & Herr & Hres).
  unfold rpc, mbind, http_post, exchange. rewrite Hw. cbn iota.
  rewrite Herr. unfold lift, getitem. rewrite Hres. reflexivity.
Qed.

Lemma item_ok_dict (item : json) : item_ok item -> exists kv, item = JObj kv.
Proof.
  intros [[s Hs] _]. destruct item; try discriminate. now eexists.
Qed.

Lemma Forall_last (A : Type) (P : A -> Prop) (l : list A) (d : A) :
  l <> [] -> Forall P l -> P (last l d).
Proof.
  induction l as [|x l IH]; intros Hne Hall; [congruence|].
  inversion Hall as [|? ? Hx Hl]; subst.
  destruct l as [|y l]; [exact Hx|].
  change (P (last (y :: l) d)). apply IH; [discriminate | assumption].
Qed.

Lemma page_header_ok (items : list json) :
  items <> [] -> Forall item_ok items -> page_header (JArr items) = Ok tt.
Proof.
  intros Hne Hall.
  destruct (item_ok_dict (Forall_last JNull Hne Hall)) as [kv2 H2].
  destruct items as [|x items]; [congruence|].
  inversion Hall as [|? ? Hx _]; subst.
  destruct (item_ok_dict Hx) as [kv1 ->].
  unfold page_header. rewrite H2. reflexivity.
Qed.

Lemma cursor_after_ok (items : list json) :
  items <> [] -> Forall item_ok items ->
  getitem (last items JNull) (lit "signature") = Ok (cursor_after items).
Proof.
  intros Hne Hall.
  destruct (Forall_last JNull Hne Hall) as [[s Hs] _].
  unfold cursor_after, signature_of. now rewrite Hs.
Qed.

(** On items that are well formed and not below the window, the loop over
    a page is a filter. *)
Lemma scan_items_exact (items : list json) :
  Forall item_ok items ->
  Forall (fun i => below_window start_ts i = false) items ->
  forall sigs,
    scan_items start_ts end_ts items sigs
    = Ok (Continue
            (sigs ++ map signature_of
                       (filter (in_window start_ts end_ts) items))).
Proof.
  induction 1 as [|item items [[s Hs] (bt & Hbt & Hkind)] _ IH];
    intros Hbelow sigs.
  - simpl. now rewrite app_nil_r.
  - inversion Hbelow as [|? ? Hb Hrest]; subst.
    cbn [scan_items filter]. rewrite Hbt. cbn [bind].
    unfold in_window, below_window, block_time in *. rewrite Hbt in *.
    destruct Hkind as [-> | [t Ht]].
    + cbn [is_none as_num]. now apply IH.
    + assert (Hn : is_none bt = false)
        by (destruct bt; try discriminate; reflexivity).
      rewrite Hn. unfold num_of. rewrite Ht in *. cbn [bind].
      rewrite Hb.
      destruct (Z.leb start_ts t && Z.leb t end_ts).
      * rewrite Hs. cbn [bind map]. rewrite (IH Hrest).
        unfold signature_of at 2. rewrite Hs.
        now rewrite <- app_assoc.
      * now apply IH.
Qed.

(** The whole loop on a script of well-formed pages, none reaching below
    the window, followed by a reply whose result is falsy. *)
Lemma sig_loop_pages (pages : list (list json)) :
  forall fuel sigs before w rs r_end rest batch_end,
    (length pages < fuel)%nat ->
    replies w = rs ++ r_end :: rest ->
    Forall2 page_reply rs (map JArr pages) ->
    page_reply r_end batch_end ->
    truthy batch_end = false ->
    Forall (fun p => p <> [] /\ Forall item_ok p
                     /\ Forall (fun i => below_window start_ts i = false) p)
      pages ->
    sig_loop fuel c api_key address start_ts end_ts sigs before w
    = (Ok (sigs ++ map signature_of
                     (filter (in_window start_ts end_ts) (concat pages))),
       {| HELIUS_KEY := HELIUS_KEY w;
          replies := rest;
          log := log w ++ map (page_request c api_key address)
                            (before :: map cursor_after pages) |}).
Proof.
  induction pages as [|p ps IH];
    intros fuel sigs before w rs r_end rest batch_end Hfuel Hw Hrs Hend Hfalsy
      Hpages;
    (destruct fuel as [|fuel]; [inversion Hfuel|]).
  - inversion Hrs; subst. cbn [app] in Hw.
    cbn [sig_loop]. unfold mbind at 1.
    rewrite (@rpc_page _ _ _ _ _ _ Hw Hend). rewrite Hfalsy. cbn [negb].
    unfold ret. cbn [concat filter map]. now rewrite app_nil_r.
  - inversion Hrs as [|r ? rs' ? Hr Hrs']; subst.
    inversion Hpages as [|? ? (Hne & Hok & Hbelow) Hps]; subst.
    cbn [app] in Hw.
    cbn [sig_loop]. unfold mbind at 1.
    rewrite (@rpc_page _ _ _ _ _ _ Hw Hr).
    replace (truthy (JArr p)) with true by (destruct p; [congruence|reflexivity]).
    cbn [negb]. unfold mbind at 1. unfold lift at 1.
    rewrite (page_header_ok Hne Hok).
    unfold mbind at 1. unfold lift at 1. cbn [iter].
    unfold mbind at 1. unfold lift at 1.
    rewrite (scan_items_exact Hok Hbelow).
    unfold mbind at 1. unfold lift at 1.
    rewrite (cursor_after_ok Hne Hok).
    erewrite IH; [| simpl in Hfuel; lia | reflexivity | eassumption
                  | eassumption | assumption | assumption].
    cbn [HELIUS_KEY log concat map].
    rewrite filter_app, map_app, <- !app_assoc. reflexivity.
Qed.

Lemma Forall2_length_eq (A B : Type) (R : A -> B -> Prop)
    (l1 : list A) (l2 : list B) :
  Forall2 R l1 l2 -> length l1 = length l2.
Proof. induction 1; simpl; congruence. Qed.

(** X1. When the RPC answers with well-formed pages whose items never go
    below the window and then with an empty result, the fetcher returns
    exactly the signatures of the items whose block time lies in
    [[start_ts, end_ts]] (both ends included), in the order of the pages,
    and has read exactly those replies. *)
Theorem walk_collects_window
    (pages : list (list json)) (w : world) (rs : list reply)
    (r_end : reply) (rest : list reply) (batch_end : json) :
  replies w = rs ++ r_end :: rest ->
  Forall2 page_reply rs (map JArr pages) ->
  page_reply r_end batch_end ->
  truthy batch_end = false ->
  Forall (fun p => p <> [] /\ Forall item_ok p
                   /\ Forall (fun i => below_window start_ts i = false) p)
    pages ->
  fst (fetch_signatures_in_window c api_key address start_ts end_ts w)
  = Ok (map signature_of
          (filter (in_window start_ts end_ts) (concat pages)))
  /\ replies (snd (fetch_signatures_in_window c api_key address
                     start_ts end_ts w))
     = rest.
Proof.
  intros Hw Hrs Hend Hfalsy Hpages.
  unfold fetch_signatures_in_window.
  erewrite sig_loop_pages; try eassumption.
  - split; reflexivity.
  - rewrite Hw, length_app. apply Forall2_length_eq in Hrs.
    rewrite length_map in Hrs. simpl. lia.
Qed.

Lemma page_request_cursor (before : json) :
  page_request c api_key address before
  = cursor_request c api_key address
      (if truthy before then Some before else None).
Proof.
  unfold page_request, cursor_request, rpc_request, page_cfg.
  now destruct (truthy before).
Qed.

(** X2. On the same scripts the requests are, in order: one page request
    with the page limit and no cursor, then one request per page read with
    the page limit and, as [before], the signature of the last item of that
    page when it is truthy; after a page whose last signature is falsy no
    cursor is sent. *)
Theorem walk_cursor_chain
    (pages : list (list json)) (w : world) (rs : list reply)
    (r_end : reply) (rest : list reply) (batch_end : json) :
  replies w = rs ++ r_end :: rest ->
  Forall2 page_reply rs (map JArr pages) ->
  page_reply r_end batch_end ->
  truthy batch_end = false ->
  Forall (fun p => p <> [] /\ Forall item_ok p
                   /\ Forall (fun i => below_window start_ts i = false) p)
    pages ->
  log (snd (fetch_signatures_in_window c api_key address start_ts end_ts w))
  = log w ++ map (cursor_request c api_key address)
               (None :: map sent_cursor pages).
Proof.
  intros Hw Hrs Hend Hfalsy Hpages.
  unfold fetch_signatures_in_window.
  erewrite sig_loop_pages; try eassumption.
  - cbn [snd log]. f_equal. cbn [map]. rewrite page_request_cursor.
    cbn [truthy]. f_equal. rewrite !map_map. apply map_ext.
    intros p. apply page_request_cursor.
  - rewrite Hw, length_app. apply Forall2_length_eq in Hrs.
    rewrite length_map in Hrs. simpl. lia.
Qed.

End Walk.

Ltac solve_page_reply :=
  eexists; split; [reflexivity | split; reflexivity].

Ltac solve_item_ok :=
  split;
  [ eexists; reflexivity
  | eexists; split;
    [ reflexivity
    | first [ left; reflexivity | right; eexists; reflexivity ] ] ].

Ltac solve_pages :=
  repeat (constructor;
          [ split; [discriminate|];
            split; [ repeat (constructor; [solve_item_ok|]); constructor
                   | repeat (constructor; [reflexivity|]); constructor ] |]);
  constructor.

Lemma walk_collects_window_witness :
  fst (fetch_signatures_in_window SampleRun.cfg (lit "KEY")
         SampleRun.pool_address 1000 2000 (SampleRun.world0 Walk.script))
  = Ok [JStr (lit "s1"); JStr (lit "s3"); JStr (lit "s6")]
  /\ replies (snd (fetch_signatures_in_window SampleRun.cfg (lit "KEY")
                     SampleRun.pool_address 1000 2000
                     (SampleRun.world0 Walk.script)))
     = [].
Proof.
  apply (@walk_collects_window SampleRun.cfg (lit "KEY")
           SampleRun.pool_address 1000 2000 [Walk.page_a; Walk.page_b]
           (SampleRun.world0 Walk.script)
           [SampleRun.rpc_result (JArr Walk.page_a);
            SampleRun.rpc_result (JArr Walk.page_b)]
           (SampleRun.rpc_result (JArr [])) [] (JArr [])).
  - reflexivity.
  - repeat (constructor; [solve_page_reply|]). constructor.
  - solve_page_reply.
  - reflexivity.
  - solve_pages.
Defined.

Lemma walk_cursor_chain_witness :
  log (snd (fetch_signatures_in_window SampleRun.cfg (lit "KEY")
              SampleRun.pool_address 1000 2000
              (SampleRun.world0 Walk.script)))
  = map (cursor_request SampleRun.cfg (lit "KEY") SampleRun.pool_address)
      [None; Some (JStr (lit "s2")); Some (JStr (lit "s6"))].
Proof.
  apply (@walk_cursor_chain SampleRun.cfg (lit "KEY")
           SampleRun.pool_address 1000 2000 [Walk.page_a; Walk.page_b]
           (SampleRun.world0 Walk.script)
           [SampleRun.rpc_result (JArr Walk.page_a);
            SampleRun.rpc_result (JArr Walk.page_b)]
           (SampleRun.rpc_result (JArr [])) [] (JArr [])).
  - reflexivity.
  - repeat (constructor; [solve_page_reply|]). constructor.
  - solve_page_reply.
  - reflexivity.
  - solve_pages.
Defined.

(** A page whose last signature is the empty string: the next request
    carries no cursor, so it asks for the newest page again. *)
Lemma empty_cursor_restarts :
  sent_cursor [SampleRun.sig_item "" (JInt 1500)] = None
  /\ page_cfg SampleRun.cfg (JStr []) = page_cfg SampleRun.cfg JNull.
Proof. split; reflexivity. Qed.

(* ================================================================== *)
(** ** Deduplication and batching of the signatures *)

Section Batching.

Lemma existsb_hkey (k : hkey) (l : list hkey) :
  existsb (hkey_eqb k) l = true <-> In k l.
Proof.
  rewrite existsb_exists. split.
  - intros (x & Hx & He). apply hkey_eqb_eq in He. now subst.
  - intros H. exists k. split; [assumption | apply hkey_eqb_refl].
Qed.

Lemma existsb_hkey_false (k : hkey) (l : list hkey) :
  existsb (hkey_eqb k) l = false <-> ~ In k l.
Proof.
  rewrite <- existsb_hkey. destruct (existsb (hkey_eqb k) l); split;
    congruence.
Qed.

Lemma sig_key_ok (s : json) (k : hkey) : to_hkey s = Ok k -> sig_key s = k.
Proof. intros H. unfold sig_key. now rewrite H. Qed.

Lemma dedup_spec (sigs : list json) :
  forall seen r,
    dedup seen sigs = Ok r ->
    NoDup (map sig_key r)
    /\ (forall x, In x r -> In x sigs /\ ~ In (sig_key x) seen)
    /\ (forall s, In s sigs ->
          In (sig_key s) seen \/ In (sig_key s) (map sig_key r)).
Proof.
  induction sigs as [|s rest IH]; intros seen r H; cbn [dedup] in H.
  - injection H as <-. split; [constructor|].
    split; [intros x [] | intros s []].
  - destruct (to_hkey s) as [k|] eqn:Ek; [|discriminate].
    cbn [bind] in H. pose proof (sig_key_ok _ Ek) as Hk.
    destruct (existsb (hkey_eqb k) seen) eqn:Es.
    + apply existsb_hkey in Es.
      destruct (IH _ _ H) as (Hnd & Hin & Hcov).
      repeat split; [assumption | | |].
      * right. now apply Hin.
      * now apply Hin.
      * intros s' [<-|Hs']; [left; now rewrite Hk | now apply Hcov].
    + apply existsb_hkey_false in Es.
      destruct (dedup (k :: seen) rest) as [r'|] eqn:Er; [|discriminate].
      cbn [bind] in H. injection H as <-.
      destruct (IH _ _ Er) as (Hnd & Hin & Hcov).
      repeat split.
      * cbn [map]. constructor; [|assumption]. rewrite Hk.
        intros Hmem. apply in_map_iff in Hmem as (x & Hx & Hxr).
        destruct (Hin _ Hxr) as [_ Hnot]. apply Hnot. left. now symmetry.
      * destruct H as [<-|Hx]; [now left | right; now apply Hin].
      * destruct H as [<-|Hx]; [now rewrite Hk|].
        intros Hseen. destruct (Hin _ Hx) as [_ Hnot]. apply Hnot. now right.
      * intros s' [<-|Hs'].
        -- right. left. reflexivity.
        -- destruct (Hcov _ Hs') as [[Heq|Hseen]|Hr].
           ++ right. left. now rewrite Hk.
           ++ now left.
           ++ right. now right.
Qed.

Lemma dedup_total (sigs : list json) :
  Forall hashable sigs -> forall seen, exists r, dedup seen sigs = Ok r.
Proof.
  induction 1 as [|s rest [k Hk] _ IH]; intros seen; cbn [dedup].
  - now exists [].
  - rewrite Hk. cbn [bind].
    destruct (existsb (hkey_eqb k) seen); [apply IH|].
    destruct (IH (k :: seen)) as [r ->]. cbn [bind]. now eexists.
Qed.

(** A list whose keys are distinct and new comes back as it is. *)
Lemma dedup_distinct (sigs : list json) :
  Forall hashable sigs ->
  NoDup (map sig_key sigs) ->
  forall seen,
    (forall s, In s sigs -> ~ In (sig_key s) seen) ->
    dedup seen sigs = Ok sigs.
Proof.
  induction 1 as [|s rest [k Hk] _ IH]; intros Hnd seen Hnew; cbn [dedup];
    [reflexivity|].
  rewrite Hk. cbn [bind]. pose proof (sig_key_ok _ Hk) as Hsk.
  cbn [map] in Hnd. apply NoDup_cons_iff in Hnd as [Hnotin Hnd'].
  replace (existsb (hkey_eqb k) seen) with false.
  - rewrite IH; [reflexivity | assumption |].
    intros s' Hs' [Heq|Hseen].
    + apply Hnotin. rewrite Hsk, Heq. now apply in_map.
    + apply (Hnew s'); [now right | assumption].
  - symmetry. apply existsb_hkey_false. rewrite <- Hsk. apply Hnew. now left.
Qed.

(** The keys that survive are the keys in the order they first occur. *)
Lemma dedup_order (sigs : list json) :
  forall seen r acc,
    dedup seen sigs = Ok r ->
    (forall k, In k acc <-> In k seen) ->
    fold_left (fun a k => if existsb (hkey_eqb k) a then a else a ++ [k])
      (map sig_key sigs) acc
    = acc ++ map sig_key r.
Proof.
  induction sigs as [|s rest IH]; intros seen r acc H Hacc; cbn [dedup] in H.
  - injection H as <-. simpl. now rewrite app_nil_r.
  - destruct (to_hkey s) as [k|] eqn:Ek; [|discriminate].
    cbn [bind] in H.
    cbn [map fold_left]. rewrite (sig_key_ok _ Ek).
    destruct (existsb (hkey_eqb k) seen) eqn:Es.
    + replace (existsb (hkey_eqb k) acc) with true.
      * now apply (IH seen).
      * symmetry. apply existsb_hkey, Hacc. now apply existsb_hkey.
    + replace (existsb (hkey_eqb k) acc) with false.
      * destruct (dedup (k :: seen) rest) as [r'|] eqn:Er; [|discriminate].
        cbn [bind] in H. injection H as <-.
        rewrite (IH (k :: seen) r' (acc ++ [k]) Er).
        -- cbn [map]. rewrite (sig_key_ok _ Ek), <- app_assoc. reflexivity.
        -- intros k'. rewrite in_app_iff. cbn [In]. rewrite Hacc. tauto.
      * symmetry. apply existsb_hkey_false. rewrite Hacc.
        now apply existsb_hkey_false.
Qed.

(** X3. [list(dict.fromkeys(sigs))] on hashable signatures: the result has
    pairwise distinct keys, holds only signatures of the input, covers the
    key of every input signature, lists the keys in the order of their
    first occurrence, is left alone by a second pass, and is the input
    itself when the input had no duplicate. *)
Theorem dedup_first_occurrences (sigs : list json) :
  Forall hashable sigs ->
  exists r,
    dedup [] sigs = Ok r
    /\ NoDup (map sig_key r)
    /\ incl r sigs
    /\ (forall s, In s sigs -> In (sig_key s) (map sig_key r))
    /\ map sig_key r = first_occurrences (map sig_key sigs)
    /\ dedup [] r = Ok r
    /\ (NoDup (map sig_key sigs) -> r = sigs).
Proof.
  intros Hh. destruct (dedup_total Hh []) as [r Hr].
  destruct (dedup_spec _ _ Hr) as (Hnd & Hin & Hcov).
  assert (Hhr : Forall hashable r).
  { apply Forall_forall. intros x Hx. rewrite Forall_forall in Hh.
    apply Hh. now apply Hin. }
  exists r. repeat split; try assumption.
  - intros x Hx. now apply Hin.
  - intros s Hs. destruct (Hcov _ Hs) as [[]|]; assumption.
  - unfold first_occurrences.
    rewrite (@dedup_order sigs [] r [] Hr); [reflexivity | tauto].
  - apply dedup_distinct; [assumption | assumption | intros ? _ []].
  - intros Hnds.
    rewrite (@dedup_distinct sigs Hh Hnds []) in Hr;
      [now injection Hr | intros ? _ []].
Qed.

Lemma chunks_aux_nil (A : Type) (fuel n : nat) :
  chunks_aux fuel n (@nil A) = [].
Proof. now destruct fuel. Qed.

Lemma chunks_aux_spec (A : Type) (n : nat) :
  (1 <= n)%nat ->
  forall fuel (l : list A),
    (length l <= fuel)%nat ->
    concat (chunks_aux fuel n l) = l
    /\ Forall (fun ch => ch <> [] /\ (length ch <= n)%nat) (chunks_aux fuel n l)
    /\ Forall (fun ch => length ch = n) (removelast (chunks_aux fuel n l)).
Proof.
  intros Hn. induction fuel as [|fuel IH]; intros l Hl.
  - destruct l; [|simpl in Hl; lia]. simpl. repeat split; constructor.
  - destruct l as [|x l]; [simpl; repeat split; constructor|].
    cbn [chunks_aux].
    assert (Hskip : (length (skipn n (x :: l)) <= fuel)%nat).
    { rewrite length_skipn. cbn [length] in *. lia. }
    destruct (IH _ Hskip) as (Hcat & Hall & Hfull).
    repeat split.
    + cbn [concat]. rewrite Hcat. apply firstn_skipn.
    + constructor; [|assumption]. split.
      * destruct n; [lia | discriminate].
      * rewrite length_firstn. lia.
    + destruct (chunks_aux fuel n (skipn n (x :: l))) as [|ch cs] eqn:E.
      * constructor.
      * change (removelast (firstn n (x :: l) :: ch :: cs))
          with (firstn n (x :: l) :: removelast (ch :: cs)).
        constructor; [|assumption].
        rewrite length_firstn.
        destruct (skipn n (x :: l)) as [|y rest] eqn:Es.
        -- rewrite chunks_aux_nil in E. discriminate.
        -- assert (Hlen : length (skipn n (x :: l)) = S (length rest))
             by now rewrite Es.
           rewrite length_skipn in Hlen. lia.
Qed.

(** X4. With a positive batch size the batches are a partition of the
    signature list in order: concatenated they give the list back, none is
    empty, none is longer than the batch size, and all but the last are
    full. *)
Theorem chunks_partition (step : Z) (sigs : list json) :
  (0 < step)%Z ->
  exists cs,
    chunks step sigs = Ok cs
    /\ concat cs = sigs
    /\ Forall (fun ch => ch <> [] /\ (Z.of_nat (length ch) <= step)%Z) cs
    /\ Forall (fun ch => Z.of_nat (length ch) = step) (removelast cs).
Proof.
  intros Hs. unfold chunks.
  replace (Z.eqb step 0) with false by (symmetry; apply Z.eqb_neq; lia).
  replace (Z.ltb step 0) with false by (symmetry; apply Z.ltb_ge; lia).
  destruct (@chunks_aux_spec json (Z.to_nat step) ltac:(lia)
              (length sigs) sigs (le_n _)) as (Hcat & Hall & Hfull).
  eexists. split; [reflexivity|]. repeat split.
  - exact Hcat.
  - eapply Forall_impl; [|exact Hall]. intros ch [Hne Hle]. split; [assumption|lia].
  - eapply Forall_impl; [|exact Hfull]. intros ch Hlen. simpl in Hlen. lia.
Qed.

End Batching.

Lemma dedup_first_occurrences_witness :
  exists r,
    dedup [] [JStr (lit "s1"); JStr (lit "s2"); JStr (lit "s1")] = Ok r
    /\ NoDup (map sig_key r)
    /\ incl r [JStr (lit "s1"); JStr (lit "s2"); JStr (lit "s1")]
    /\ (forall s, In s [JStr (lit "s1"); JStr (lit "s2"); JStr (lit "s1")] ->
          In (sig_key s) (map sig_key r))
    /\ map sig_key r = [HStr (lit "s1"); HStr (lit "s2")]
    /\ dedup [] r = Ok r
    /\ (NoDup [HStr (lit "s1"); HStr (lit "s2"); HStr (lit "s1")] ->
        r = [JStr (lit "s1"); JStr (lit "s2"); JStr (lit "s1")]).
Proof.
  apply (@dedup_first_occurrences
           [JStr (lit "s1"); JStr (lit "s2"); JStr (lit "s1")]).
  repeat (constructor; [eexists; reflexivity|]). constructor.
Defined.

Lemma chunks_partition_witness :
  exists cs,
    chunks 2 [JInt 1; JInt 2; JInt 3; JInt 4; JInt 5] = Ok cs
    /\ concat cs = [JInt 1; JInt 2; JInt 3; JInt 4; JInt 5]
    /\ Forall (fun ch => ch <> [] /\ (Z.of_nat (length ch) <= 2)%Z) cs
    /\ Forall (fun ch => Z.of_nat (length ch) = 2%Z) (removelast cs).
Proof.
  apply (@chunks_partition 2 [JInt 1; JInt 2; JInt 3; JInt 4; JInt 5]). lia.
Defined.

(* ================================================================== *)
(** ** More on buyer extraction *)

Section ExtractionMore.

Variable mint : pystr.
Variables fee_payer sig ts : json.

Lemma swap_obs_some (o : json) (ob : obs) :
  swap_obs mint fee_payer sig ts o = Ok (Some ob) ->
  o_sig ob = sig /\ o_ts ob = ts /\ truthy (o_wallet ob) = true.
Proof.
  unfold swap_obs. intros H.
  destruct (get o (lit "mint")) as [m|]; [|discriminate]. cbn [bind] in H.
  destruct (negb (eq_str m mint)); [discriminate|].
  destruct (get o (lit "toUserAccount")) as [tua|]; [|discriminate].
  destruct (get o (lit "userAccount")) as [ua|]; [|discriminate].
  destruct (get o (lit "rawTokenAmount")) as [r|]; [|discriminate].
  cbn [bind] in H.
  destruct (get (or_dict r) (lit "tokenAmount")) as [a|]; [|discriminate].
  destruct (get (or_dict r) (lit "decimals")) as [d|]; [|discriminate].
  cbn [bind] in H.
  destruct (truthy (py_or (py_or tua ua) fee_payer)) eqn:Et; [|discriminate].
  injection H as <-. cbn [o_sig o_ts o_wallet]. repeat split. exact Et.
Qed.

Lemma transfer_obs_some (t : json) (ob : obs) :
  transfer_obs mint fee_payer sig ts t = Ok (Some ob) ->
  o_sig ob = sig /\ o_ts ob = ts /\ truthy (o_wallet ob) = true.
Proof.
  unfold transfer_obs. intros H.
  destruct (get t (lit "mint")) as [m|]; [|discriminate]. cbn [bind] in H.
  destruct (negb (eq_str m mint)); [discriminate|].
  destruct (get t (lit "toUserAccount")) as [tua|]; [|discriminate].
  destruct (get t (lit "tokenAmount")) as [a|]; [|discriminate].
  destruct (get t (lit "decimals")) as [d|]; [|discriminate].
  cbn [bind] in H.
  destruct (truthy (py_or tua fee_payer)) eqn:Et; [|discriminate].
  destruct (str_or_none a) as [amt|]; [|discriminate].
  cbn [bind] in H. injection H as <-. cbn [o_sig o_ts o_wallet].
  repeat split. exact Et.
Qed.

(** The transfer tier appends, in order, one tuple for every transfer that
    yields one. *)
Lemma transfer_tier_grows (transfers : list json) :
  forall out res,
    transfer_tier mint fee_payer sig ts transfers out = Ok res ->
    exists more,
      res = out ++ more
      /\ (forall ob, In ob more <->
            exists t, In t transfers
                      /\ transfer_obs mint fee_payer sig ts t = Ok (Some ob)).
Proof.
  induction transfers as [|t rest IH]; intros out res H;
    cbn [transfer_tier] in H.
  - injection H as <-. exists []. rewrite app_nil_r. split; [reflexivity|].
    intros ob. split; [intros [] | intros (t & [] & _)].
  - destruct (transfer_obs mint fee_payer sig ts t) as [r|] eqn:Et;
      [|discriminate].
    cbn [bind] in H. apply IH in H as (more & -> & Hiff).
    destruct r as [ob0|].
    + exists (ob0 :: more). rewrite <- app_assoc. split; [reflexivity|].
      intros ob. split.
      * intros [<-|Hin]; [exists t; split; [now left | assumption]|].
        apply Hiff in Hin as (t' & Ht' & Hs). exists t'.
        split; [now right | assumption].
      * intros (t' & [<-|Ht'] & Hs).
        -- rewrite Et in Hs. injection Hs as <-. now left.
        -- right. apply Hiff. now exists t'.
    + exists more. split; [reflexivity|]. intros ob. rewrite Hiff. split.
      * intros (t' & Ht' & Hs). exists t'. split; [now right | assumption].
      * intros (t' & [<-|Ht'] & Hs); [rewrite Et in Hs; discriminate|].
        now exists t'.
Qed.

Lemma swap_tier_all_none (outputs : list json) :
  (forall o, In o outputs -> swap_obs mint fee_payer sig ts o = Ok None) ->
  forall out, swap_tier mint fee_payer sig ts outputs out = Ok out.
Proof.
  induction outputs as [|o rest IH]; intros Hnone out; cbn [swap_tier];
    [reflexivity|].
  rewrite (Hnone o (or_introl eq_refl)). cbn [bind].
  apply IH. intros o' Ho'. apply Hnone. now right.
Qed.

End ExtractionMore.

Section ExtractionTheorems.

Variable mint : pystr.

Lemma extract_fields (tx : json) (res : list obs) :
  extract_buyers_from_parsed_tx tx mint = Ok res ->
  exists sig ts,
    get tx (lit "signature") = Ok sig
    /\ get tx (lit "timestamp") = Ok ts
    /\ Forall (fun ob => o_sig ob = sig /\ o_ts ob = ts
                         /\ truthy (o_wallet ob) = true) res.
Proof.
  intros H. destruct tx as [| | | | |kv|]; try discriminate.
  rewrite extract_dict in H.
  exists (field (lit "signature") kv), (field (lit "timestamp") kv).
  split; [reflexivity|]. split; [reflexivity|].
  destruct (swap_outputs (JObj kv)) as [outs|]; [|discriminate].
  cbn [bind] in H.
  destruct (swap_tier mint _ _ _ outs []) as [out|] eqn:Es; [|discriminate].
  cbn [bind] in H.
  destruct (swap_tier_grows _ _ _ _ _ _ Es) as (more & -> & Hfrom & _).
  cbn [app] in *. destruct more as [|ob0 more].
  - destruct (iter (or_list (field (lit "tokenTransfers") kv))) as [trs|];
      [|discriminate].
    cbn [bind] in H.
    destruct (transfer_tier_grows _ _ _ _ _ _ H) as (more' & -> & Hiff).
    cbn [app]. apply Forall_forall. intros ob Hob.
    apply Hiff in Hob as (t & _ & Ht). eapply transfer_obs_some; eassumption.
  - injection H as <-. apply Forall_forall. intros ob Hob.
    destruct (Hfrom _ Hob) as (o & _ & Ho). eapply swap_obs_some; eassumption.
Qed.

(** X5. Whatever the transaction, every tuple the extractor returns carries
    the transaction's own signature and timestamp and a truthy buyer: no
    tuple is emitted for an entry whose buyer cannot be resolved. *)
Theorem extracted_tuples_wellformed (tx : json) (res : list obs) :
  extract_buyers_from_parsed_tx tx mint = Ok res ->
  exists sig ts,
    get tx (lit "signature") = Ok sig
    /\ get tx (lit "timestamp") = Ok ts
    /\ Forall (fun ob => o_sig ob = sig /\ o_ts ob = ts
                         /\ truthy (o_wallet ob) = true) res.
Proof. exact (@extract_fields tx res). Qed.

(** X6. When no output of the swap event (direct or inner) yields a tuple,
    the extractor returns exactly what the flat transfer list yields: one
    tuple for every transfer of the mint with a resolvable buyer, and
    nothing else. *)
Theorem transfer_tier_fallback
    (kv : list (pystr * json)) (outputs transfers : list json) :
  swap_outputs (JObj kv) = Ok outputs ->
  (forall o, In o outputs ->
     swap_obs mint (field (lit "feePayer") kv) (field (lit "signature") kv)
       (field (lit "timestamp") kv) o = Ok None) ->
  iter (or_list (field (lit "tokenTransfers") kv)) = Ok transfers ->
  extract_buyers_from_parsed_tx (JObj kv) mint
  = transfer_tier mint (field (lit "feePayer") kv)
      (field (lit "signature") kv) (field (lit "timestamp") kv) transfers []
  /\ forall res,
       extract_buyers_from_parsed_tx (JObj kv) mint = Ok res ->
       forall ob,
         In ob res <->
         exists t, In t transfers
                   /\ transfer_obs mint (field (lit "feePayer") kv)
                        (field (lit "signature") kv)
                        (field (lit "timestamp") kv) t = Ok (Some ob).
Proof.
  intros Houts Hnone Htrs.
  assert (Hmain : extract_buyers_from_parsed_tx (JObj kv) mint
                  = transfer_tier mint (field (lit "feePayer") kv)
                      (field (lit "signature") kv)
                      (field (lit "timestamp") kv) transfers []).
  { rewrite extract_dict, Houts. cbn [bind].
    rewrite (swap_tier_all_none _ _ _ _ _ Hnone). cbn [bind].
    rewrite Htrs. reflexivity. }
  split; [exact Hmain|].
  intros res Hres. rewrite Hmain in Hres.
  destruct (transfer_tier_grows _ _ _ _ _ _ Hres) as (more & -> & Hiff).
  exact Hiff.
Qed.

End ExtractionTheorems.

Lemma extracted_tuples_wellformed_witness :
  exists sig ts,
    get (Sample.tx "s1" 1200
           [Sample.swap_output (JStr (lit "W")) (JStr (lit "100"))] [])
      (lit "signature") = Ok sig
    /\ get (Sample.tx "s1" 1200
              [Sample.swap_output (JStr (lit "W")) (JStr (lit "100"))] [])
         (lit "timestamp") = Ok ts
    /\ Forall (fun ob => o_sig ob = sig /\ o_ts ob = ts
                         /\ truthy (o_wallet ob) = true)
         [Sample.observation "W" (JStr (lit "100")) "s1" 1200].
Proof.
  apply (@extracted_tuples_wellformed Sample.mint
           (Sample.tx "s1" 1200
              [Sample.swap_output (JStr (lit "W")) (JStr (lit "100"))] [])
           [Sample.observation "W" (JStr (lit "100")) "s1" 1200]).
  reflexivity.
Defined.

(** The swap event is for another mint; of the two transfers the one for
    the mint has no recipient, so the fee payer is the buyer. *)
Lemma transfer_tier_fallback_witness :
  extract_buyers_from_parsed_tx (JObj Fallback.items) Sample.mint
  = Ok [{| o_wallet := JStr (lit "PAYER"); o_amt := JStr (lit "50");
           o_dec := JInt 6; o_sig := JStr (lit "s7"); o_ts := JInt 1300 |}].
Proof.
  refine (proj1 (@transfer_tier_fallback Sample.mint Fallback.items
                   [Fallback.other_output]
                   [Fallback.other_transfer; Sample.transfer JNull (JInt 50)]
                   eq_refl _ eq_refl)).
  intros o [<-|[]]. reflexivity.
Defined.

(* ================================================================== *)
(** ** More on pool discovery *)

Section DiscoveryMore.

Variable mint : pystr.

Lemma with_keys_snd (key : json -> outcome number) (l : list json) :
  forall keyed, with_keys key l = Ok keyed -> map snd keyed = l.
Proof.
  induction l as [|p l IH]; intros keyed H; cbn [with_keys] in H.
  - now injection H as <-.
  - destruct (key p) as [k|]; [|discriminate]. cbn [bind] in H.
    destruct (with_keys key l) as [r|]; [|discriminate]. cbn [bind] in H.
    injection H as <-. cbn [map snd]. f_equal. now apply IH.
Qed.

(** The loop with its [break]: at most [max 1 top_n] pairs, all of them
    taken from the list it walks. *)
Lemma pick_pairs_bounds (top_n : Z) (pairs : list json) :
  forall out res,
    pick_pairs mint top_n pairs out = Ok res ->
    (Z.of_nat (length out) < Z.max 1 top_n)%Z ->
    (Z.of_nat (length res) <= Z.max 1 top_n)%Z
    /\ forall p, In p res -> In p out \/ In p pairs.
Proof.
  induction pairs as [|p l IH]; intros out res H Hlen; cbn [pick_pairs] in H.
  - injection H as <-. split; [lia | now left].
  - destruct (includes_mint mint p) as [b|]; [|discriminate].
    cbn [bind] in H.
    assert (Hlen' : (Z.of_nat (length (if b then out ++ [p] else out))
                     <= Z.max 1 top_n)%Z).
    { destruct b; [|lia]. rewrite length_app. cbn [length]. lia. }
    assert (Hin' : forall q, In q (if b then out ++ [p] else out) ->
                     In q out \/ In q (p :: l)).
    { intros q Hq. destruct b; [|now left].
      apply in_app_or in Hq as [Hq|[<-|[]]]; [now left | right; now left]. }
    destruct (Z.geb _ top_n) eqn:E.
    + injection H as <-. split; assumption.
    + rewrite Z.geb_leb in E. apply Z.leb_gt in E.
      destruct (IH _ _ H ltac:(lia)) as [Hb Hi]. split; [assumption|].
      intros q Hq. destruct (Hi q Hq) as [Hq'|Hq'].
      * now apply Hin'.
      * right. now right.
Qed.

(** X7. Whatever Dexscreener answered and whatever [top_n] is, every pair of
    the shortlist passes the mint test, so the second test of the same
    condition in [main] never skips a pool: a shortlisted pair with an
    address is always scanned. *)
Theorem shortlist_passes_recheck
    (top_n : Z) (w w' : world) (pairs : list json) :
  get_top_pairs_from_dexscreener mint top_n w = (Ok pairs, w') ->
  Forall (fun p => includes_mint mint p = Ok true) pairs
  /\ forall c api_key agg p addr wp,
       MINT c = mint ->
       In p pairs ->
       get p (lit "pairAddress") = Ok addr ->
       truthy addr = true ->
       scan_pool c api_key agg p wp
       = (sigs <~ fetch_signatures_in_window c api_key addr
                    (START_TS c) (END_TS c) ;;
          sigs' <~ lift (dedup [] sigs) ;;
          cs <~ lift (chunks (PARSE_BATCH c) sigs') ;;
          parse_chunks c api_key cs agg) wp.
Proof.
  intros H.
  assert (Hall : Forall (fun p => includes_mint mint p = Ok true) pairs).
  { unfold get_top_pairs_from_dexscreener, mbind, lift in H.
    destruct (http_get _ w) as [[data|] w1]; [|discriminate].
    injection H as H _.
    eapply Forall_impl; [|exact (top_pairs_only_matching _ _ _ H)].
    intros p Hp. unfold references_mint in Hp.
    destruct (includes_mint mint p) as [[|]|]; congruence. }
  split; [exact Hall|].
  intros c api_key agg p addr wp Hc Hin Haddr Htruthy.
  rewrite Forall_forall in Hall. specialize (Hall p Hin).
  unfold scan_pool, mbind at 1, lift at 1. rewrite Haddr, Htruthy.
  cbn [negb]. unfold mbind at 1, lift at 1. rewrite Hc, Hall. reflexivity.
Qed.

(** X8. Whatever the data and [top_n], the shortlist has at most
    [max(1, top_n)] pairs and every one of them is an element of the data:
    discovery neither invents a pair nor returns more than asked for,
    except that [top_n <= 0] can still give one. *)
Theorem shortlist_bounds
    (top_n : Z) (data : json) (items res : list json) :
  iter data = Ok items ->
  top_pairs mint top_n data = Ok res ->
  (Z.of_nat (length res) <= Z.max 1 top_n)%Z
  /\ incl res items.
Proof.
  intros Hit H. unfold top_pairs, sorted_by_score_desc in H.
  rewrite Hit in H. cbn [bind] in H.
  destruct (with_keys score items) as [keyed|] eqn:Ek; [|discriminate].
  cbn [bind] in H.
  destruct (sorted_desc keyed) as [sorted|] eqn:Es; [|discriminate].
  cbn [bind] in H.
  destruct (pick_pairs_bounds _ _ _ H ltac:(simpl; lia)) as [Hlen Hin].
  split; [exact Hlen|].
  intros p Hp. destruct (Hin p Hp) as [[]|Hq].
  rewrite <- (with_keys_snd _ _ Ek).
  eapply Permutation_in; [|exact Hq].
  apply Permutation_map, (sorted_desc_perm _ Es).
Qed.

End DiscoveryMore.

Lemma shortlist_passes_recheck_witness :
  Forall (fun p => includes_mint Sample.mint p = Ok true)
    [TwoPools.pool_a; TwoPools.pool_b].
Proof.
  refine (proj1 (@shortlist_passes_recheck Sample.mint 5
                   (SampleRun.world0 TwoPools.network)
                   (snd (get_top_pairs_from_dexscreener Sample.mint 5
                           (SampleRun.world0 TwoPools.network)))
                   [TwoPools.pool_a; TwoPools.pool_b] _)).
  vm_compute. reflexivity.
Defined.

(** With [top_n = 0] the shortlist still holds one pair. *)
Lemma shortlist_bounds_witness :
  (Z.of_nat (length [TwoPools.pool_a]) <= Z.max 1 0)%Z
  /\ incl [TwoPools.pool_a] [TwoPools.pool_a; TwoPools.pool_d].
Proof.
  apply (@shortlist_bounds Sample.mint 0
           (JArr [TwoPools.pool_a; TwoPools.pool_d])
           [TwoPools.pool_a; TwoPools.pool_d] [TwoPools.pool_a]);
    reflexivity.
Defined.

(* ================================================================== *)
(** ** What every entry of a run satisfies *)

Section EntryInvariant.

Variable c : config.

Lemma int_digits_nonneg (s : pystr) :
  forall a z, (0 <= a)%Z -> int_digits a s = Ok z -> (0 <= z)%Z.
Proof.
  induction s as [|ch s IH]; intros a z Ha H; cbn [int_digits] in H.
  - injection H as <-. exact Ha.
  - destruct (decimal_value ch) as [d|]; [|discriminate].
    eapply IH; [|exact H]. lia.
Qed.

(** Line 202 never yields a negative number. *)
Lemma raw_int_nonneg (amt : json) (z : Z) : raw_int amt = Ok z -> (0 <= z)%Z.
Proof.
  unfold raw_int. intros H.
  destruct amt as [| | |s| | |]; try (injection H as <-; lia).
  destruct (isdigit s); [|injection H as <-; lia].
  unfold py_int in H. destruct s; [discriminate|].
  eapply int_digits_nonneg; [|exact H]. lia.
Qed.

Lemma od_get_in_key (V : Type) (k : hkey) (v : V) (d : odict V) :
  od_get k d = Some v -> In (k, v) d.
Proof.
  induction d as [|[k1 v1] d IH]; simpl; [discriminate|].
  destruct (hkey_eqb k k1) eqn:E.
  - apply hkey_eqb_eq in E. subst. intros [= <-]. now left.
  - intros H. right. now apply IH.
Qed.

Lemma od_set_forall_items (V : Type) (P : hkey -> V -> Prop)
    (k : hkey) (v : V) (d : odict V) :
  P k v ->
  Forall (fun kv => P (fst kv) (snd kv)) d ->
  Forall (fun kv => P (fst kv) (snd kv)) (od_set k v d).
Proof.
  intros Hv. induction 1 as [|[k1 v1] d H1 Hd IH]; simpl.
  - repeat constructor. exact Hv.
  - destruct (hkey_eqb k k1) eqn:E.
    + apply hkey_eqb_eq in E. subst. constructor; assumption.
    + constructor; assumption.
Qed.

Lemma agg_step_entry_ok (agg agg' : odict entry) (o : obs) :
  obs_in_window c o ->
  Forall (fun kv => entry_ok c (fst kv) (snd kv)) agg ->
  agg_step agg o = Ok agg' ->
  Forall (fun kv => entry_ok c (fst kv) (snd kv)) agg'.
Proof.
  intros (Htr & t & Ht & Hwin) Hagg H.
  destruct (agg_step_ok _ _ H) as (k & raw & e & Hk & Hraw & He & ->).
  pose proof (raw_int_nonneg _ Hraw) as Hnn.
  apply od_set_forall_items; [|assumption].
  destruct (od_get k agg) as [e0|] eqn:Eget; cbn [updated_entry] in He.
  - apply od_get_in_key in Eget. rewrite Forall_forall in Hagg.
    destruct (Hagg _ Eget) as (Hw & Htw & (f0 & l0 & Hf0 & Hl0 & H1 & H2)
                               & Hc & Hr).
    cbn [fst snd] in *.
    destruct (py_min_num _ _ Hf0 Ht) as (mn & Emn & Hmn).
    destruct (py_max_num _ _ Hl0 Ht) as (mx & Emx & Hmx).
    rewrite Emn, Emx in He. cbn [bind] in He. injection He as <-.
    unfold entry_ok. cbn [wallet first_ts last_ts tx_count raw_total].
    repeat split; try assumption; try lia.
    exists (Z.min f0 t), (Z.max l0 t). repeat split; try assumption; lia.
  - injection He as <-. unfold entry_ok.
    cbn [wallet first_ts last_ts tx_count raw_total].
    repeat split; try assumption; try lia.
    exists t, t. repeat split; try assumption; lia.
Qed.

Lemma fold_obs_entry_ok (l : list obs) :
  Forall (obs_in_window c) l ->
  forall agg agg',
    Forall (fun kv => entry_ok c (fst kv) (snd kv)) agg ->
    fold_obs l agg = Ok agg' ->
    Forall (fun kv => entry_ok c (fst kv) (snd kv)) agg'.
Proof.
  induction 1 as [|o l Ho _ IH]; intros agg agg' Hagg H; cbn [fold_obs] in H.
  - now injection H as <-.
  - destruct (agg_step agg o) as [agg1|] eqn:E; [|discriminate].
    cbn [bind] in H. eapply IH; [|exact H].
    eapply agg_step_entry_ok; eassumption.
Qed.

(** The tuples [main] folds for a transaction have the timestamp that
    passed the window test. *)
Lemma tx_obs_in_window (tx : json) (l : list obs) :
  tx_obs c tx = Ok l -> Forall (obs_in_window c) l.
Proof.
  unfold tx_obs. intros H.
  destruct (get tx (lit "timestamp")) as [t|] eqn:Et; [|discriminate].
  cbn [bind] in H. unfold outside_window in H.
  destruct (is_none t); [injection H as <-; constructor|].
  unfold num_of in H. destruct (as_num t) as [z|] eqn:Ez; [|now destruct t].
  cbn [bind] in H.
  destruct (Z.leb (START_TS c) z && Z.leb z (END_TS c)) eqn:Ew;
    cbn [negb] in H; [|injection H as <-; constructor].
  apply andb_true_iff in Ew as [H1 H2]. apply Z.leb_le in H1, H2.
  destruct (get tx (lit "tokenTransfers")) as [tt|]; [|discriminate].
  cbn [bind] in H.
  destruct (iter (or_list tt)) as [trs|]; [|discriminate]. cbn [bind] in H.
  destruct (any_mint (MINT c) trs); [|discriminate]. cbn [bind] in H.
  destruct (extract_fields _ _ H) as (sig & ts & _ & Hts & Hall).
  rewrite Et in Hts. injection Hts as <-.
  eapply Forall_impl; [|exact Hall].
  intros ob (_ & Hobts & Htr). split; [assumption|].
  exists z. rewrite Hobts. split; [assumption | lia].
Qed.

Lemma process_tx_entry_ok (agg agg' : odict entry) (tx : json) :
  Forall (fun kv => entry_ok c (fst kv) (snd kv)) agg ->
  process_tx c agg tx = Ok agg' ->
  Forall (fun kv => entry_ok c (fst kv) (snd kv)) agg'.
Proof.
  intros Hagg H. rewrite process_tx_obs in H.
  destruct (tx_obs c tx) as [l|] eqn:El; [|discriminate]. cbn [bind] in H.
  eapply fold_obs_entry_ok; [eapply tx_obs_in_window| |]; eassumption.
Qed.

Lemma fold_txs_entry_ok (txs : list json) :
  forall agg agg',
    Forall (fun kv => entry_ok c (fst kv) (snd kv)) agg ->
    fold_txs c txs agg = Ok agg' ->
    Forall (fun kv => entry_ok c (fst kv) (snd kv)) agg'.
Proof.
  induction txs as [|tx txs IH]; intros agg agg' Hagg H; cbn [fold_txs] in H.
  - now injection H as <-.
  - destruct (process_tx c agg tx) as [agg1|] eqn:E; [|discriminate].
    cbn [bind] in H. eapply IH; [|exact H].
    eapply process_tx_entry_ok; eassumption.
Qed.

Lemma parse_chunks_entry_ok (api_key : pystr) (cs : list (list json)) :
  forall agg agg' w w',
    Forall (fun kv => entry_ok c (fst kv) (snd kv)) agg ->
    parse_chunks c api_key cs agg w = (Ok agg', w') ->
    Forall (fun kv => entry_ok c (fst kv) (snd kv)) agg'.
Proof.
  induction cs as [|chunk cs IH]; intros agg agg' w w' Hagg H;
    cbn [parse_chunks] in H.
  - unfold ret in H. now injection H as <- _.
  - unfold mbind at 1 in H.
    destruct (http_post _ _ w) as [[parsed|] w1]; [|discriminate].
    unfold mbind at 1, lift at 1 in H.
    destruct (iter parsed) as [txs|]; [|discriminate].
    unfold mbind at 1, lift at 1 in H.
    destruct (fold_txs c txs agg) as [agg1|] eqn:E; [|discriminate].
    eapply IH; [|exact H]. eapply fold_txs_entry_ok; eassumption.
Qed.

Lemma scan_pool_entry_ok (api_key : pystr) (p : json)
    (agg agg' : odict entry) (w w' : world) :
  Forall (fun kv => entry_ok c (fst kv) (snd kv)) agg ->
  scan_pool c api_key agg p w = (Ok agg', w') ->
  Forall (fun kv => entry_ok c (fst kv) (snd kv)) agg'.
Proof.
  unfold scan_pool, mbind, lift, ret. intros Hagg H.
  destruct (get p (lit "pairAddress")) as [addr|]; [|discriminate].
  destruct (negb (truthy addr)); [now injection H as <- _|].
  destruct (includes_mint (MINT c) p) as [keep|]; [|discriminate].
  destruct (negb keep); [now injection H as <- _|].
  destruct (fetch_signatures_in_window _ _ _ _ _ w) as [[sigs|] w1];
    [|discriminate].
  destruct (dedup [] sigs) as [sigs'|]; [|discriminate].
  destruct (chunks (PARSE_BATCH c) sigs') as [cs|]; [|discriminate].
  eapply parse_chunks_entry_ok; eassumption.
Qed.

Lemma scan_pools_entry_ok (api_key : pystr) (pairs : list json) :
  forall agg agg' w w',
    Forall (fun kv => entry_ok c (fst kv) (snd kv)) agg ->
    scan_pools c api_key pairs agg w = (Ok agg', w') ->
    Forall (fun kv => entry_ok c (fst kv) (snd kv)) agg'.
Proof.
  induction pairs as [|p pairs IH]; intros agg agg' w w' Hagg H;
    cbn [scan_pools] in H.
  - unfold ret in H. now injection H as <- _.
  - unfold mbind at 1 in H.
    destruct (scan_pool c api_key agg p w) as [[agg1|] w1] eqn:E;
      [|discriminate].
    eapply IH; [|exact H]. eapply scan_pool_entry_ok; eassumption.
Qed.

(** X9. When the scan of the pools returns, every entry of [buyers_agg]
    sits under the key of its own wallet, the wallet is truthy, its two
    timestamps are numbers with
    [START_TS <= first_ts <= last_ts <= END_TS], its [tx_count] is at
    least 1 and its [raw_total] is not negative. *)
Theorem run_entries_in_window
    (api_key : pystr) (pairs : list json) (w w' : world) (agg : odict entry) :
  scan_pools c api_key pairs [] w = (Ok agg, w') ->
  Forall (fun kv => entry_ok c (fst kv) (snd kv)) agg.
Proof. intros H. eapply scan_pools_entry_ok; [constructor | exact H]. Qed.

End EntryInvariant.

Lemma run_entries_in_window_witness :
  Forall (fun kv => entry_ok SampleRun.cfg (fst kv) (snd kv))
    [(HStr (lit "W"), TwoPools.entry_w)].
Proof.
  apply (@run_entries_in_window SampleRun.cfg (lit "KEY")
           [TwoPools.pool_a; TwoPools.pool_b] TwoPools.scanning
           (snd (scan_pools SampleRun.cfg (lit "KEY")
                   [TwoPools.pool_a; TwoPools.pool_b] [] TwoPools.scanning))
           [(HStr (lit "W"), TwoPools.entry_w)]).
  vm_compute. reflexivity.
Defined.

(* ================================================================== *)
(** ** The order of the tuples *)

Section TupleOrder.

Lemma Permutation_filter (A : Type) (f : A -> bool) (l1 l2 : list A) :
  Permutation l1 l2 -> Permutation (filter f l1) (filter f l2).
Proof.
  induction 1 as [|x l l' _ IH|x y l|l l' l'' _ IH1 _ IH2]; cbn [filter].
  - constructor.
  - destruct (f x); [now constructor | assumption].
  - destruct (f x), (f y); try reflexivity. apply perm_swap.
  - now transitivity (filter f l').
Qed.

Lemma sum_Z_perm (l1 l2 : list Z) :
  Permutation l1 l2 -> sum_Z l1 = sum_Z l2.
Proof.
  induction 1 as [|x l l' _ IH|x y l|l l' l'' _ IH1 _ IH2];
    rewrite ?sum_Z_cons; lia.
Qed.

Lemma is_min_unique (m1 m2 : Z) (l1 l2 : list Z) :
  is_min m1 l1 -> is_min m2 l2 -> Permutation l1 l2 -> m1 = m2.
Proof.
  intros [Hin1 Hle1] [Hin2 Hle2] Hp.
  rewrite Forall_forall in Hle1, Hle2.
  pose proof (Hle2 _ (Permutation_in _ Hp Hin1)).
  pose proof (Hle1 _ (Permutation_in _ (Permutation_sym Hp) Hin2)). lia.
Qed.

Lemma is_max_unique (m1 m2 : Z) (l1 l2 : list Z) :
  is_max m1 l1 -> is_max m2 l2 -> Permutation l1 l2 -> m1 = m2.
Proof.
  intros [Hin1 Hle1] [Hin2 Hle2] Hp.
  rewrite Forall_forall in Hle1, Hle2.
  pose proof (Hle2 _ (Permutation_in _ Hp Hin1)).
  pose proof (Hle1 _ (Permutation_in _ (Permutation_sym Hp) Hin2)). lia.
Qed.

(** What a fold of foldable tuples leaves under one key. *)
Lemma fold_obs_summary (l : list obs) (agg : odict entry) (k : hkey) :
  Forall foldable l ->
  fold_obs l [] = Ok agg ->
  match filter (has_key k) l with
  | [] => od_get k agg = None
  | o1 :: rest =>
      exists e,
        od_get k agg = Some e
        /\ tx_count e = Z.of_nat (length (o1 :: rest))
        /\ raw_total e = sum_Z (map contribution (o1 :: rest))
        /\ (exists m, as_num (first_ts e) = Some m
                      /\ is_min m (map time_of (o1 :: rest)))
        /\ (exists m, as_num (last_ts e) = Some m
                      /\ is_max m (map time_of (o1 :: rest)))
  end.
Proof.
  intros Hfold Hagg.
  pose proof (fold_obs_slot _ _ Hagg k) as Hslot. cbn [od_get] in Hslot.
  pose proof (slot_fold_none_counts _ _ Hslot) as Hcounts.
  assert (Hnum : Forall (fun o => exists t, as_num (o_ts o) = Some t)
                   (filter (has_key k) l)).
  { apply Forall_forall. intros o Ho. apply filter_In in Ho as [Ho _].
    rewrite Forall_forall in Hfold. now destruct (Hfold o Ho) as (_ & _ & ?). }
  destruct (filter (has_key k) l) as [|o1 rest] eqn:Elk; [exact Hcounts|].
  destruct Hcounts as (e & He & Hc & Hr & _).
  rewrite He in Hslot. rewrite <- Elk in Hnum.
  destruct (slot_fold_none_times _ _ Hslot Hnum) as [Hmin Hmax].
  rewrite Elk in Hmin, Hmax.
  exists e. repeat split; assumption.
Qed.

(** X10. The counts, totals and first/last timestamps of the aggregate do
    not depend on the order in which the tuples arrive (so not on the order
    of pools, batches or transactions): two foldable sequences that are
    permutations of each other give, under every key, entries that agree on
    [tx_count], [raw_total], [first_ts] and [last_ts]. *)
Theorem aggregate_order_independent (l1 l2 : list obs) :
  Forall foldable l1 ->
  Permutation l1 l2 ->
  exists agg1 agg2,
    fold_obs l1 [] = Ok agg1
    /\ fold_obs l2 [] = Ok agg2
    /\ forall k,
         (od_get k agg1 = None /\ od_get k agg2 = None)
         \/ exists e1 e2,
              od_get k agg1 = Some e1
              /\ od_get k agg2 = Some e2
              /\ tx_count e1 = tx_count e2
              /\ raw_total e1 = raw_total e2
              /\ as_num (first_ts e1) = as_num (first_ts e2)
              /\ as_num (last_ts e1) = as_num (last_ts e2).
Proof.
  intros Hf1 Hp.
  assert (Hf2 : Forall foldable l2) by (eapply Permutation_Forall; eassumption).
  destruct (fold_obs_total Hf1 (agg := [])) as [agg1 H1]; [constructor|].
  destruct (fold_obs_total Hf2 (agg := [])) as [agg2 H2]; [constructor|].
  exists agg1, agg2. split; [assumption|]. split; [assumption|].
  intros k.
  pose proof (fold_obs_summary k Hf1 H1) as S1.
  pose proof (fold_obs_summary k Hf2 H2) as S2.
  pose proof (Permutation_filter (has_key k) Hp) as Hpk.
  destruct (filter (has_key k) l1) as [|a1 r1].
  - apply Permutation_nil in Hpk. rewrite Hpk in S2. now left.
  - destruct (filter (has_key k) l2) as [|a2 r2].
    + apply Permutation_sym, Permutation_nil in Hpk. discriminate.
    + destruct S1 as (e1 & G1 & C1 & R1 & (m1 & F1 & M1) & (x1 & L1 & X1)).
      destruct S2 as (e2 & G2 & C2 & R2 & (m2 & F2 & M2) & (x2 & L2 & X2)).
      right. exists e1, e2. repeat split; try assumption.
      * rewrite C1, C2. f_equal. now apply Permutation_length.
      * rewrite R1, R2. apply sum_Z_perm. now apply Permutation_map.
      * rewrite F1, F2. f_equal.
        eapply is_min_unique; [eassumption | eassumption |].
        now apply Permutation_map.
      * rewrite L1, L2. f_equal.
        eapply is_max_unique; [eassumption | eassumption |].
        now apply Permutation_map.
Qed.

Lemma fold_obs_keys (l : list obs) :
  forall agg agg',
    fold_obs l agg = Ok agg' ->
    map fst agg'
    = fold_left (fun acc k => if existsb (hkey_eqb k) acc then acc
                              else acc ++ [k])
        (map obs_key l) (map fst agg).
Proof.
  induction l as [|o l IH]; intros agg agg' H; cbn [fold_obs] in H.
  - now injection H as <-.
  - destruct (agg_step agg o) as [agg1|] eqn:E; [|discriminate].
    cbn [bind] in H.
    destruct (agg_step_ok _ _ E) as (k & raw & e & Hk & _ & _ & ->).
    rewrite (IH _ _ H). cbn [map fold_left]. f_equal.
    unfold obs_key. rewrite Hk. rewrite od_keys_set.
    destruct (od_get k agg) eqn:Eget.
    + replace (existsb (hkey_eqb k) (map fst agg)) with true; [reflexivity|].
      symmetry. apply existsb_hkey. eapply od_get_some_in; eassumption.
    + replace (existsb (hkey_eqb k) (map fst agg)) with false; [reflexivity|].
      symmetry. apply existsb_hkey_false. now apply od_get_none.
Qed.

(** X11. The items of [buyers_agg] stand in the order in which their
    wallets were first seen: the keys of the result of a fold are the keys
    of the tuples in order of first occurrence, and each entry keeps the
    signature of the first tuple of its wallet however many follow. *)
Theorem wallets_in_first_seen_order (l : list obs) (agg : odict entry) :
  fold_obs l [] = Ok agg ->
  map fst agg = first_occurrences (map obs_key l)
  /\ forall k e,
       od_get k agg = Some e ->
       option_map o_sig (hd_error (filter (has_key k) l))
       = Some (example_sig e).
Proof.
  intros H. split.
  - rewrite (fold_obs_keys _ _ H). reflexivity.
  - intros k e He.
    pose proof (fold_obs_slot _ _ H k) as Hslot. cbn [od_get] in Hslot.
    pose proof (slot_fold_none_counts _ _ Hslot) as Hcounts.
    destruct (filter (has_key k) l) as [|o1 rest]; [congruence|].
    destruct Hcounts as (e' & He' & _ & _ & _ & Hs & _).
    rewrite He in He'. injection He' as <-.
    cbn [hd_error option_map]. now rewrite Hs.
Qed.

End TupleOrder.

Lemma aggregate_order_independent_witness :
  exists agg1 agg2,
    fold_obs [Sample.observation "W" (JStr (lit "100")) "s1" 1200;
              Sample.observation "V" (JStr (lit "7")) "s2" 1500;
              Sample.observation "W" (JStr (lit "50")) "s3" 1800] []
    = Ok agg1
    /\ fold_obs [Sample.observation "W" (JStr (lit "50")) "s3" 1800;
                 Sample.observation "W" (JStr (lit "100")) "s1" 1200;
                 Sample.observation "V" (JStr (lit "7")) "s2" 1500] []
       = Ok agg2
    /\ forall k,
         (od_get k agg1 = None /\ od_get k agg2 = None)
         \/ exists e1 e2,
              od_get k agg1 = Some e1
              /\ od_get k agg2 = Some e2
              /\ tx_count e1 = tx_count e2
              /\ raw_total e1 = raw_total e2
              /\ as_num (first_ts e1) = as_num (first_ts e2)
              /\ as_num (last_ts e1) = as_num (last_ts e2).
Proof.
  apply (@aggregate_order_independent
           [Sample.observation "W" (JStr (lit "100")) "s1" 1200;
            Sample.observation "V" (JStr (lit "7")) "s2" 1500;
            Sample.observation "W" (JStr (lit "50")) "s3" 1800]
           [Sample.observation "W" (JStr (lit "50")) "s3" 1800;
            Sample.observation "W" (JStr (lit "100")) "s1" 1200;
            Sample.observation "V" (JStr (lit "7")) "s2" 1500]).
  - repeat constructor; eexists; reflexivity.
  - apply Permutation_sym. apply (Permutation_cons_app [_; _] []).
    reflexivity.
Defined.

(** What does depend on the order: the signature kept as the example. *)
Lemma example_sig_follows_order :
  fold_obs [Sample.observation "W" (JStr (lit "100")) "s1" 1200;
            Sample.observation "W" (JStr (lit "50")) "s3" 1800] []
  = Ok [(HStr (lit "W"),
         {| wallet := JStr (lit "W"); first_ts := JInt 1200;
            last_ts := JInt 1800; tx_count := 2; raw_total := 150;
            decimals := JInt 6; example_sig := JStr (lit "s1") |})]
  /\ fold_obs [Sample.observation "W" (JStr (lit "50")) "s3" 1800;
               Sample.observation "W" (JStr (lit "100")) "s1" 1200] []
     = Ok [(HStr (lit "W"),
            {| wallet := JStr (lit "W"); first_ts := JInt 1200;
               last_ts := JInt 1800; tx_count := 2; raw_total := 150;
               decimals := JInt 6; example_sig := JStr (lit "s3") |})].
Proof. split; reflexivity. Qed.

Lemma wallets_in_first_seen_order_witness :
  map fst [(HStr (lit "W"),
            {| wallet := JStr (lit "W"); first_ts := JInt 1200;
               last_ts := JInt 1800; tx_count := 2; raw_total := 150;
               decimals := JInt 6; example_sig := JStr (lit "s1") |});
           (HStr (lit "V"),
            {| wallet := JStr (lit "V"); first_ts := JInt 1500;
               last_ts := JInt 1500; tx_count := 1; raw_total := 7;
               decimals := JInt 6; example_sig := JStr (lit "s2") |})]
  = [HStr (lit "W"); HStr (lit "V")].
Proof.
  refine (proj1 (@wallets_in_first_seen_order
                   [Sample.observation "W" (JStr (lit "100")) "s1" 1200;
                    Sample.observation "V" (JStr (lit "7")) "s2" 1500;
                    Sample.observation "W" (JStr (lit "50")) "s3" 1800]
                   _ _)).
  reflexivity.
Defined.

(* ================================================================== *)
(** ** The report *)

Section AscendingSort.

Context {A : Type}.

Lemma insert_asc_perm (x : Z * A) (l : list (Z * A)) :
  Permutation (insert_asc x l) (x :: l).
Proof.
  induction l as [|y l IH]; simpl; [reflexivity|].
  destruct (Z.ltb (fst y) (fst x)); [|reflexivity].
  rewrite IH. apply perm_swap.
Qed.

Lemma sort_asc_perm (l : list (Z * A)) :
  Permutation (fold_right insert_asc [] l) l.
Proof.
  induction l as [|x l IH]; simpl; [reflexivity|].
  rewrite insert_asc_perm. now constructor.
Qed.

Lemma insert_asc_sorted (x : Z * A) (l : list (Z * A)) :
  StronglySorted key_le l -> StronglySorted key_le (insert_asc x l).
Proof.
  induction l as [|y l IH]; intros Hs; simpl.
  - constructor; constructor.
  - inversion Hs as [|? ? Hl Hy]; subst.
    destruct (Z.ltb (fst y) (fst x)) eqn:E.
    + constructor; [now apply IH|].
      apply Z.ltb_lt in E.
      eapply Permutation_Forall; [symmetry; apply insert_asc_perm|].
      constructor; [unfold key_le; lia | assumption].
    + apply Z.ltb_ge in E. constructor; [assumption|].
      constructor; [exact E|].
      eapply Forall_impl; [|exact Hy].
      unfold key_le. intros z Hz. lia.
Qed.

Lemma sort_asc_sorted (l : list (Z * A)) :
  StronglySorted key_le (fold_right insert_asc [] l).
Proof.
  induction l as [|x l IH]; simpl; [constructor | now apply insert_asc_sorted].
Qed.

Lemma insert_asc_stable (k : Z) (x : Z * A) (l : list (Z * A)) :
  filter (fun kp => Z.eqb (fst kp) k) (insert_asc x l)
  = filter (fun kp => Z.eqb (fst kp) k) (x :: l).
Proof.
  induction l as [|y l IH]; [reflexivity|].
  cbn [insert_asc]. destruct (Z.ltb (fst y) (fst x)) eqn:E; [|reflexivity].
  apply Z.ltb_lt in E. cbn [filter] in *. rewrite IH.
  destruct (Z.eqb (fst x) k) eqn:Ex, (Z.eqb (fst y) k) eqn:Ey; try reflexivity.
  apply Z.eqb_eq in Ex, Ey. lia.
Qed.

Lemma sort_asc_stable (k : Z) (l : list (Z * A)) :
  filter (fun kp => Z.eqb (fst kp) k) (fold_right insert_asc [] l)
  = filter (fun kp => Z.eqb (fst kp) k) l.
Proof.
  induction l as [|x l IH]; [reflexivity|].
  cbn [fold_right]. rewrite insert_asc_stable. cbn [filter]. now rewrite IH.
Qed.

End AscendingSort.

Section Report.

Lemma with_first_ts_timed (l : list entry) :
  Forall timed l ->
  with_first_ts l = Ok (map (fun e => (first_seen e, e)) l).
Proof.
  induction 1 as [|e l [[t Ht] _] _ IH]; [reflexivity|].
  cbn [with_first_ts map]. unfold first_seen at 1. rewrite Ht. cbn [bind].
  rewrite IH. reflexivity.
Qed.

Lemma sorted_rows (sk : list (Z * entry)) :
  StronglySorted key_le sk ->
  Forall (fun kp => fst kp = first_seen (snd kp)) sk ->
  StronglySorted by_first_seen (map snd sk).
Proof.
  induction 1 as [|kp sk Hs IH Hall]; intros Hk; cbn [map]; [constructor|].
  inversion Hk as [|? ? Hkp Hrest]; subst.
  constructor; [now apply IH|].
  apply Forall_forall. intros e He. apply in_map_iff in He as (kq & <- & Hq).
  rewrite Forall_forall in Hall, Hrest.
  unfold by_first_seen. rewrite <- Hkp, <- (Hrest _ Hq). now apply Hall.
Qed.

Lemma filter_rows (t : Z) (sk : list (Z * entry)) :
  Forall (fun kp => fst kp = first_seen (snd kp)) sk ->
  filter (fun e => Z.eqb (first_seen e) t) (map snd sk)
  = map snd (filter (fun kp => Z.eqb (fst kp) t) sk).
Proof.
  induction 1 as [|kp sk Hkp _ IH]; [reflexivity|].
  cbn [map filter]. rewrite <- Hkp, IH.
  now destruct (Z.eqb (fst kp) t).
Qed.

(** Line 227 on entries whose [first_ts] are numbers. *)
Lemma report_rows_spec (agg : odict entry) :
  Forall (fun kv => timed (snd kv)) agg ->
  exists rows,
    report_rows agg = Ok rows
    /\ Permutation rows (od_values agg)
    /\ StronglySorted by_first_seen rows
    /\ forall t,
         filter (fun e => Z.eqb (first_seen e) t) rows
         = filter (fun e => Z.eqb (first_seen e) t) (od_values agg).
Proof.
  intros Hagg.
  assert (Ht : Forall timed (od_values agg)).
  { unfold od_values. apply Forall_forall. intros e He.
    apply in_map_iff in He as (kv & <- & Hkv).
    rewrite Forall_forall in Hagg. now apply Hagg. }
  unfold report_rows. rewrite (with_first_ts_timed Ht). cbn [bind].
  set (keyed := map (fun e => (first_seen e, e)) (od_values agg)).
  assert (Hkeys : Forall (fun kp => fst kp = first_seen (snd kp)) keyed).
  { apply Forall_forall. intros kp Hkp.
    apply in_map_iff in Hkp as (e & <- & _). reflexivity. }
  assert (Hsnd : map snd keyed = od_values agg).
  { unfold keyed. rewrite map_map. apply map_id. }
  assert (Hskeys : Forall (fun kp => fst kp = first_seen (snd kp))
                     (fold_right insert_asc [] keyed)).
  { eapply Permutation_Forall; [symmetry; apply sort_asc_perm | exact Hkeys]. }
  eexists. split; [reflexivity|]. repeat split.
  - rewrite <- Hsnd. apply Permutation_map, sort_asc_perm.
  - apply sorted_rows; [apply sort_asc_sorted | exact Hskeys].
  - intros t. rewrite (filter_rows t Hskeys), sort_asc_stable.
    rewrite <- (filter_rows t Hkeys), Hsnd. reflexivity.
Qed.

(** X12. On an aggregate whose [first_ts] are numbers the report has one
    row per entry, in ascending order of [first_ts], and rows with the same
    [first_ts] keep the order of the dictionary. *)
Theorem report_rows_sorted (agg : odict entry) :
  Forall (fun kv => timed (snd kv)) agg ->
  exists rows,
    report_rows agg = Ok rows
    /\ Permutation rows (od_values agg)
    /\ StronglySorted by_first_seen rows
    /\ forall t,
         filter (fun e => Z.eqb (first_seen e) t) rows
         = filter (fun e => Z.eqb (first_seen e) t) (od_values agg).
Proof. exact (@report_rows_spec agg). Qed.

End Report.

Lemma report_rows_sorted_witness :
  exists rows,
    report_rows
      [(HStr (lit "V"),
        {| wallet := JStr (lit "V"); first_ts := JInt 1500;
           last_ts := JInt 1500; tx_count := 1; raw_total := 7;
           decimals := JInt 6; example_sig := JStr (lit "s2") |});
       (HStr (lit "W"), TwoPools.entry_w)]
    = Ok rows
    /\ Permutation rows
         (od_values
            [(HStr (lit "V"),
              {| wallet := JStr (lit "V"); first_ts := JInt 1500;
                 last_ts := JInt 1500; tx_count := 1; raw_total := 7;
                 decimals := JInt 6; example_sig := JStr (lit "s2") |});
             (HStr (lit "W"), TwoPools.entry_w)])
    /\ StronglySorted by_first_seen rows
    /\ forall t,
         filter (fun e => Z.eqb (first_seen e) t) rows
         = filter (fun e => Z.eqb (first_seen e) t)
             (od_values
                [(HStr (lit "V"),
                  {| wallet := JStr (lit "V"); first_ts := JInt 1500;
                     last_ts := JInt 1500; tx_count := 1; raw_total := 7;
                     decimals := JInt 6; example_sig := JStr (lit "s2") |});
                 (HStr (lit "W"), TwoPools.entry_w)]).
Proof.
  apply (@report_rows_sorted
           [(HStr (lit "V"),
             {| wallet := JStr (lit "V"); first_ts := JInt 1500;
                last_ts := JInt 1500; tx_count := 1; raw_total := 7;
                decimals := JInt 6; example_sig := JStr (lit "s2") |});
            (HStr (lit "W"), TwoPools.entry_w)]).
  repeat constructor; eexists; reflexivity.
Defined.

(* ================================================================== *)
(** ** What a run leaves behind *)

Section Log.

Lemma only_sent_refl (w : world) : only_sent w w.
Proof.
  split; [reflexivity|]. exists []. now rewrite app_nil_r.
Qed.

Lemma only_sent_trans (w1 w2 w3 : world) :
  only_sent w1 w2 -> only_sent w2 w3 -> only_sent w1 w3.
Proof.
  intros [K1 (e1 & L1 & S1)] [K2 (e2 & L2 & S2)]. split; [congruence|].
  exists (e1 ++ e2). rewrite L2, L1, app_assoc.
  split; [reflexivity | now apply Forall_app].
Qed.

Lemma quiet_ret (A : Type) (a : A) : quiet (ret a).
Proof. intros w. apply only_sent_refl. Qed.

Lemma quiet_lift (A : Type) (o : outcome A) : quiet (lift o).
Proof. intros w. apply only_sent_refl. Qed.

Lemma quiet_bind (A B : Type) (m : M A) (k : A -> M B) :
  quiet m -> (forall a, quiet (k a)) -> quiet (mbind m k).
Proof.
  intros Hm Hk w. unfold mbind. specialize (Hm w).
  destruct (m w) as [[a|s] w1]; cbn [snd] in *; [|exact Hm].
  eapply only_sent_trans; [exact Hm | apply Hk].
Qed.

Lemma quiet_exchange (r : request) : quiet (exchange r).
Proof.
  intros w. unfold exchange.
  destruct (replies w) as [|[j|] rs]; cbn [snd]; (split; [reflexivity|]);
    exists [Sent r]; (split; [reflexivity|]);
    repeat constructor; now exists r.
Qed.

Lemma quiet_rpc (api_key method : pystr) (params : json) :
  quiet (rpc api_key method params).
Proof.
  unfold rpc. apply quiet_bind; [apply quiet_exchange|].
  intros res. destruct res; try apply quiet_lift.
  destruct (assoc (lit "error") kv); apply quiet_lift.
Qed.

Lemma quiet_sig_loop (c : config) (api_key : pystr) (address : json)
    (start_ts end_ts : Z) (fuel : nat) :
  forall sigs before,
    quiet (sig_loop fuel c api_key address start_ts end_ts sigs before).
Proof.
  induction fuel as [|fuel IH]; intros sigs before; cbn [sig_loop];
    [apply quiet_lift|].
  apply quiet_bind; [apply quiet_rpc|]. intros batch.
  destruct (negb (truthy batch)); [apply quiet_ret|].
  apply quiet_bind; [apply quiet_lift|]. intros _.
  apply quiet_bind; [apply quiet_lift|]. intros items.
  apply quiet_bind; [apply quiet_lift|]. intros r.
  destruct r; [|apply quiet_ret].
  apply quiet_bind; [apply quiet_lift|]. intros before'. apply IH.
Qed.

Lemma quiet_fetch (c : config) (api_key : pystr) (address : json)
    (start_ts end_ts : Z) :
  quiet (fetch_signatures_in_window c api_key address start_ts end_ts).
Proof. intros w. unfold fetch_signatures_in_window. apply quiet_sig_loop. Qed.

Lemma quiet_parse_chunks (c : config) (api_key : pystr)
    (cs : list (list json)) :
  forall agg, quiet (parse_chunks c api_key cs agg).
Proof.
  induction cs as [|chunk cs IH]; intros agg; cbn [parse_chunks];
    [apply quiet_ret|].
  apply quiet_bind; [apply quiet_exchange|]. intros parsed.
  apply quiet_bind; [apply quiet_lift|]. intros txs.
  apply quiet_bind; [apply quiet_lift|]. intros agg'. apply IH.
Qed.

Lemma quiet_scan_pool (c : config) (api_key : pystr) (agg : odict entry)
    (p : json) :
  quiet (scan_pool c api_key agg p).
Proof.
  unfold scan_pool. apply quiet_bind; [apply quiet_lift|]. intros addr.
  destruct (negb (truthy addr)); [apply quiet_ret|].
  apply quiet_bind; [apply quiet_lift|]. intros keep.
  destruct (negb keep); [apply quiet_ret|].
  apply quiet_bind; [apply quiet_fetch|]. intros sigs.
  apply quiet_bind; [apply quiet_lift|]. intros sigs'.
  apply quiet_bind; [apply quiet_lift|]. intros cs.
  apply quiet_parse_chunks.
Qed.

Lemma quiet_scan_pools (c : config) (api_key : pystr) (pairs : list json) :
  forall agg, quiet (scan_pools c api_key pairs agg).
Proof.
  induction pairs as [|p pairs IH]; intros agg; cbn [scan_pools];
    [apply quiet_ret|].
  apply quiet_bind; [apply quiet_scan_pool|]. intros agg'. apply IH.
Qed.

Lemma quiet_get_top_pairs (mint : pystr) (top_n : Z) :
  quiet (get_top_pairs_from_dexscreener mint top_n).
Proof.
  unfold get_top_pairs_from_dexscreener.
  apply quiet_bind; [apply quiet_exchange|]. intros data. apply quiet_lift.
Qed.

Lemma write_row_encodes (e : entry) :
  write_row e = Ok tt -> row_encodes e = true.
Proof.
  unfold write_row. intros H.
  destruct (num_of (first_ts e)); [|discriminate]. cbn [bind] in H.
  destruct (fromtimestamp_utc a); [|discriminate]. cbn [bind] in H.
  destruct (num_of (last_ts e)); [|discriminate]. cbn [bind] in H.
  destruct (fromtimestamp_utc a1); [|discriminate]. cbn [bind] in H.
  now destruct (row_encodes e).
Qed.

(** The loop writes the rows in order and stops at the first it cannot
    write. *)
Lemma write_rows_spec (rows : list entry) :
  forall written,
    match write_rows rows written with
    | (Ok _, res) =>
        res = written ++ rows /\ Forall (fun e => write_row e = Ok tt) rows
    | (Halt s, res) =>
        exists done e rest,
          rows = done ++ e :: rest
          /\ res = written ++ done
          /\ Forall (fun e => write_row e = Ok tt) done
          /\ write_row e = Halt s
    end.
Proof.
  induction rows as [|e rows IH]; intros written; cbn [write_rows].
  - rewrite app_nil_r. split; [reflexivity | constructor].
  - destruct (write_row e) as [[]|s] eqn:Ee.
    + specialize (IH (written ++ [e])).
      destruct (write_rows rows (written ++ [e])) as [[u|s] res].
      * destruct IH as [-> Hall]. rewrite <- app_assoc.
        split; [reflexivity | now constructor].
      * destruct IH as (done & e' & rest & -> & -> & Hdone & He').
        exists (e :: done), e', rest. rewrite <- app_assoc.
        repeat split; [now constructor | assumption].
    + exists [], e, rows. rewrite app_nil_r.
      repeat split; [constructor | assumption].
Qed.

Variable c : config.

(** Inside a window whose two ends have a date, every timestamp has one. *)
Lemma write_row_dated (e : entry) (k : hkey) (s : stop) :
  fromtimestamp_utc (START_TS c) = Ok tt ->
  fromtimestamp_utc (END_TS c) = Ok tt ->
  entry_ok c k e ->
  write_row e = Halt s ->
  s = Raised UnicodeEncodeError /\ row_encodes e = false.
Proof.
  unfold fromtimestamp_utc. intros Hs He (_ & _ & Ht & _) H.
  destruct Ht as (f & l & Hf & Hl & Hfl & Hle).
  destruct (Z.leb (-62135596800) (START_TS c) && Z.leb (START_TS c) 253402300799)
    eqn:E1; [|discriminate].
  destruct (Z.leb (-62135596800) (END_TS c) && Z.leb (END_TS c) 253402300799)
    eqn:E2; [|discriminate].
  apply andb_prop in E1 as [E1 _]. apply andb_prop in E2 as [_ E2].
  apply Z.leb_le in E1, E2.
  unfold write_row, num_of, fromtimestamp_utc in H. rewrite Hf, Hl in H.
  cbn [bind] in H.
  replace (Z.leb (-62135596800) f && Z.leb f 253402300799) with true in H
    by (symmetry; apply andb_true_intro; split; apply Z.leb_le; lia).
  cbn [bind] in H.
  replace (Z.leb (-62135596800) l && Z.leb l 253402300799) with true in H
    by (symmetry; apply andb_true_intro; split; apply Z.leb_le; lia).
  cbn [bind] in H.
  destruct (row_encodes e); [discriminate|].
  injection H as <-. split; reflexivity.
Qed.

(** How a run that returns came about. *)
Lemma main_ok_inv (w w' : world) :
  main c w = (Ok tt, w') ->
  exists api_key pairs w1 agg w2 rows,
    get_top_pairs_from_dexscreener (MINT c) (TOP_POOLS c) w = (Ok pairs, w1)
    /\ scan_pools c api_key pairs [] w1 = (Ok agg, w2)
    /\ report_rows agg = Ok rows
    /\ log w' = log w2 ++ [Wrote (out_file c) rows].
Proof.
  unfold main. intros H.
  destruct (HELIUS_KEY w) as [[|k0 key]|]; try discriminate.
  unfold mbind at 1, lift at 1 in H.
  destruct (fromtimestamp_utc (START_TS c)); [|discriminate].
  unfold mbind at 1, lift at 1 in H.
  destruct (fromtimestamp_utc (END_TS c)); [|discriminate].
  unfold mbind at 1 in H.
  destruct (get_top_pairs_from_dexscreener _ _ w) as [[pairs|] w1] eqn:E1;
    [|discriminate].
  destruct pairs as [|p ps]; [discriminate|].
  unfold mbind at 1 in H.
  destruct (scan_pools c (k0 :: key) (p :: ps) [] w1) as [[agg|] w2] eqn:E2;
    [|discriminate].
  unfold mbind at 1, lift at 1 in H.
  destruct (report_rows agg) as [rows|] eqn:E3; [|discriminate].
  unfold write_csv in H. pose proof (write_rows_spec rows []) as Hw.
  destruct (write_rows rows []) as [[u|s] res]; cbn [fst snd] in H;
    [|discriminate].
  destruct Hw as [-> _]. destruct u. injection H as <-.
  exists (k0 :: key), (p :: ps), w1, agg, w2, rows.
  repeat split; assumption || reflexivity.
Qed.

(** X13. The file is opened only after discovery, the scan of every pool
    and the sort have gone through. A run that halts before that has sent
    requests and written nothing. A run that reaches the file leaves it as
    its last event, after the requests: with all the rows, each of which
    encodes, when it returns; and when it halts, then by a
    [UnicodeEncodeError] on a row that does not encode, with the rows before
    that one. *)
Theorem main_writes_last (w : world) :
  match main c w with
  | (Ok _, w') =>
      exists evs rows,
        log w' = log w ++ evs ++ [Wrote (out_file c) rows]
        /\ Forall is_sent evs
        /\ Forall (fun e => row_encodes e = true) rows
  | (Halt s, w') =>
      only_sent w w'
      \/ exists evs written e,
           log w' = log w ++ evs ++ [Wrote (out_file c) written]
           /\ Forall is_sent evs
           /\ Forall (fun r => row_encodes r = true) written
           /\ row_encodes e = false
           /\ s = Raised UnicodeEncodeError
  end.
Proof.
  unfold main.
  destruct (HELIUS_KEY w) as [[|k0 key]|]; try (left; apply only_sent_refl).
  unfold mbind at 1, lift at 1.
  destruct (fromtimestamp_utc (START_TS c)) as [[]|] eqn:Es;
    [|left; apply only_sent_refl].
  unfold mbind at 1, lift at 1.
  destruct (fromtimestamp_utc (END_TS c)) as [[]|] eqn:Ee;
    [|left; apply only_sent_refl].
  unfold mbind at 1.
  pose proof (quiet_get_top_pairs (MINT c) (TOP_POOLS c) w) as H1.
  destruct (get_top_pairs_from_dexscreener _ _ w) as [[pairs|] w1];
    cbn [snd] in H1; [|left; exact H1].
  destruct pairs as [|p ps]; [left; exact H1|].
  unfold mbind at 1.
  pose proof (quiet_scan_pools c (k0 :: key) (p :: ps) [] w1) as H2.
  destruct (scan_pools c (k0 :: key) (p :: ps) [] w1) as [[agg|] w2] eqn:E2;
    cbn [snd] in H2; [|left; eapply only_sent_trans; eassumption].
  unfold mbind at 1, lift at 1.
  destruct (report_rows agg) as [rows|] eqn:E3;
    [|left; eapply only_sent_trans; eassumption].
  destruct (only_sent_trans H1 H2) as [_ (evs & Hlog & Hsent)].
  pose proof (@scan_pools_entry_ok c (k0 :: key) (p :: ps) [] agg w1 w2
                (Forall_nil _) E2) as Hok.
  assert (Hrows : Forall (fun e => exists k, entry_ok c k e) rows).
  { assert (Htimed : Forall (fun kv => timed (snd kv)) agg).
    { eapply Forall_impl; [|exact Hok].
      intros kv (_ & _ & (f & l & Hf & Hl & _) & _).
      split; eexists; eassumption. }
    destruct (@report_rows_spec agg Htimed) as (rows' & Hrep' & Hperm & _).
    rewrite E3 in Hrep'. injection Hrep' as <-.
    eapply Permutation_Forall; [symmetry; exact Hperm|].
    unfold od_values. apply Forall_forall. intros e He.
    apply in_map_iff in He as (kv & <- & Hkv).
    rewrite Forall_forall in Hok. exists (fst kv). now apply Hok. }
  unfold write_csv. pose proof (write_rows_spec rows []) as Hw.
  destruct (write_rows rows []) as [[u|s] res]; cbn [fst snd emit log].
  - destruct Hw as [-> Hall]. exists evs, rows.
    rewrite Hlog, <- app_assoc. repeat split; [assumption|].
    eapply Forall_impl; [|exact Hall]. intros e. apply write_row_encodes.
  - destruct Hw as (done & e & rest & -> & -> & Hdone & He).
    right. exists evs, done, e.
    rewrite Forall_forall in Hrows.
    destruct (Hrows e ltac:(apply in_or_app; right; now left)) as [k Hk].
    destruct (write_row_dated Es Ee Hk He) as [-> Henc].
    rewrite Hlog, <- app_assoc. repeat split; try assumption.
    eapply Forall_impl; [|exact Hdone]. intros r. apply write_row_encodes.
Qed.

(** A wallet whose address is a lone surrogate: the run reaches the file,
    writes the row of the wallet seen before it, and halts on its row. *)
Lemma partial_report :
  fst (main SampleRun.cfg (SampleRun.world0 Partial.network))
  = Raise UnicodeEncodeError
  /\ last (log (snd (main SampleRun.cfg (SampleRun.world0 Partial.network))))
       (Sent (Get []))
     = Wrote (out_file SampleRun.cfg) [Partial.entry_w]
  /\ row_encodes Partial.entry_w = true.
Proof. vm_compute. repeat split; reflexivity. Qed.

Lemma scan_pools_nodup (api_key : pystr) (pairs : list json) (w w' : world)
    (agg : odict entry) :
  scan_pools c api_key pairs [] w = (Ok agg, w') -> NoDup (map fst agg).
Proof.
  intros H. destruct (@scan_pools_obs c api_key pairs [] agg w w' H) as (per_pool & _ & _ & Hfold).
  eapply fold_obs_nodup; [exact Hfold | constructor].
Qed.

(** X14. When a run returns, the last event is the write of [out_file] and
    its rows are in ascending order of [first_ts], belong to pairwise
    distinct wallets, and each has
    [START_TS <= first_ts <= last_ts <= END_TS], a [tx_count] of at least 1
    and a [raw_total] that is not negative. *)
Theorem report_of_a_run (w w' : world) :
  main c w = (Ok tt, w') ->
  exists rows,
    last (log w') (Sent (Get [])) = Wrote (out_file c) rows
    /\ StronglySorted by_first_seen rows
    /\ NoDup (map (fun e => sig_key (wallet e)) rows)
    /\ Forall (fun e => entry_ok c (sig_key (wallet e)) e) rows.
Proof.
  intros H.
  destruct (@main_ok_inv w w' H) as (key & pairs & w1 & agg & w2 & rows
                               & _ & Hscan & Hrep & Hlog).
  pose proof (@scan_pools_entry_ok c key pairs [] agg w1 w2 (Forall_nil _) Hscan) as Hok.
  pose proof (@scan_pools_nodup key pairs w1 w2 agg Hscan) as Hnd.
  assert (Htimed : Forall (fun kv => timed (snd kv)) agg).
  { eapply Forall_impl; [|exact Hok].
    intros kv (_ & _ & (f & l & Hf & Hl & _) & _). split; eexists; eassumption. }
  destruct (@report_rows_spec agg Htimed) as (rows' & Hrep' & Hperm & Hsorted & _).
  rewrite Hrep in Hrep'. injection Hrep' as <-.
  assert (Hkeys : map (fun e => sig_key (wallet e)) (od_values agg)
                  = map fst agg).
  { unfold od_values. rewrite map_map. apply map_ext_in. intros kv Hkv.
    rewrite Forall_forall in Hok. destruct (Hok _ Hkv) as (Hk & _).
    now apply sig_key_ok. }
  exists rows. repeat split.
  - rewrite Hlog. apply last_last.
  - exact Hsorted.
  - eapply Permutation_NoDup;
      [apply Permutation_map; symmetry; exact Hperm|].
    rewrite Hkeys. exact Hnd.
  - eapply Permutation_Forall; [symmetry; exact Hperm|].
    unfold od_values. apply Forall_forall. intros e He.
    apply in_map_iff in He as (kv & <- & Hkv).
    rewrite Forall_forall in Hok. pose proof (Hok _ Hkv) as Hkv'.
    destruct Hkv' as (Hk & Hrest).
    rewrite (sig_key_ok _ Hk). split; assumption.
Qed.

End Log.

Lemma report_of_a_run_witness :
  exists rows,
    last (log (snd (main SampleRun.cfg (SampleRun.world0 TwoPools.network))))
      (Sent (Get []))
    = Wrote (out_file SampleRun.cfg) rows
    /\ StronglySorted by_first_seen rows
    /\ NoDup (map (fun e => sig_key (wallet e)) rows)
    /\ Forall (fun e => entry_ok SampleRun.cfg (sig_key (wallet e)) e) rows.
Proof.
  apply (@report_of_a_run SampleRun.cfg (SampleRun.world0 TwoPools.network)
           (snd (main SampleRun.cfg (SampleRun.world0 TwoPools.network)))).
  vm_compute. reflexivity.
Defined.

(* ================================================================== *)
(** ** Pairs without an address *)

Section PairAddress.

Variable c : config.
Variable api_key : pystr.

(** X15. A pair whose [pairAddress] is missing, [None] or empty is passed
    over: it sends no request and leaves [buyers_agg] as it is, so the scan
    of a shortlist with it is the scan of the shortlist without it. *)
Theorem pair_without_address_skipped (p addr : json) :
  get p (lit "pairAddress") = Ok addr ->
  truthy addr = false ->
  (forall agg w, scan_pool c api_key agg p w = (Ok agg, w))
  /\ forall pre post agg w,
       scan_pools c api_key (pre ++ p :: post) agg w
       = scan_pools c api_key (pre ++ post) agg w.
Proof.
  intros Haddr Hfalsy.
  assert (Hskip : forall agg w, scan_pool c api_key agg p w = (Ok agg, w)).
  { intros agg w. unfold scan_pool, mbind at 1, lift at 1.
    rewrite Haddr, Hfalsy. reflexivity. }
  split; [exact Hskip|].
  intros pre post. induction pre as [|q pre IH]; intros agg w;
    cbn [app scan_pools].
  - unfold mbind at 1. now rewrite Hskip.
  - unfold mbind.
    destruct (scan_pool c api_key agg q w) as [[agg1|] w1];
      [apply IH | reflexivity].
Qed.

End PairAddress.

Lemma pair_without_address_skipped_witness :
  scan_pools SampleRun.cfg (lit "KEY")
    [TwoPools.pool_a; JObj [(lit "dexId", JStr (lit "dex"))]; TwoPools.pool_b]
    [] TwoPools.scanning
  = scan_pools SampleRun.cfg (lit "KEY") [TwoPools.pool_a; TwoPools.pool_b]
      [] TwoPools.scanning.
Proof.
  refine (proj2 (@pair_without_address_skipped SampleRun.cfg (lit "KEY")
                   (JObj [(lit "dexId", JStr (lit "dex"))]) JNull
                   eq_refl eq_refl)
            [TwoPools.pool_a] [TwoPools.pool_b] [] TwoPools.scanning).
Defined.
